(** * mpgameserver.http_server: routing, rate limiting and dispatch

    A shallow embedding of [mpgameserver/http_server.py] and the properties
    of its router, rate limiter, payload validation and safe path join.

    Conventions of the embedding
    - a Python [str] or [bytes] value is a [string] (a sequence of
      characters with codes 0..255);
    - a Python [int] is a [Z];
    - a call that may raise returns an [Outcome]; a method that mutates its
      object returns the object after the call together with the outcome,
      so that the state left behind by a raising call is not lost;
    - the clock ([time.time()]) and the working directory ([os.getcwd()])
      are explicit arguments. *)

From Stdlib Require Import ZArith String Ascii DecimalString.
From stdpp Require Import base option list gmap strings.

Open Scope string_scope.
Open Scope Z_scope.

(* ===================================================================== *)
(** * Python values, exceptions and outcomes                              *)
(* ===================================================================== *)

(** The exceptions the module can raise or let through.  [UserError] is an
    exception a handler raises that derives from [Exception]; [BaseExit]
    stands for the ones that derive from [BaseException] only
    ([SystemExit], [KeyboardInterrupt], [GeneratorExit]). *)
Inductive PyExn : Type :=
| ValueError (msg : string)
| TypeError (msg : string)
| IndexError
| KeyError (key : string)
| AttributeError (attr : string)
| ZeroDivisionError
| AssertionError
| StopIteration
| ReError
| UserError (name : string)
| BaseExit (name : string).

(** [isinstance(e, Exception)], which is what [except Exception] tests. *)
Definition is_Exception (e : PyExn) : bool :=
  match e with
  | BaseExit _ => false
  | _ => true
  end.

Inductive Outcome (A : Type) : Type :=
| Return (a : A)
| Raise (e : PyExn).
Arguments Return {A} a.
Arguments Raise {A} e.

(* ===================================================================== *)
(** * String primitives ([str] methods used by the module)                *)
(* ===================================================================== *)

Definition chars (s : string) : list ascii := list_ascii_of_string s.
Definition text (l : list ascii) : string := string_of_list_ascii l.

(** [s.split(sep)] for a one-character separator. *)
Fixpoint split (sep : ascii) (s : string) : list string :=
  match s with
  | EmptyString => [EmptyString]
  | String c s' =>
      if Ascii.eqb c sep then EmptyString :: split sep s'
      else match split sep s' with
           | [] => [String c EmptyString]
           | w :: ws => String c w :: ws
           end
  end.

(** [s.replace(a, b)] for one-character [a] and [b]. *)
Fixpoint replace (a b : ascii) (s : string) : string :=
  match s with
  | EmptyString => EmptyString
  | String c s' => String (if Ascii.eqb c a then b else c) (replace a b s')
  end.

(** [s.startswith(p)]. *)
Fixpoint startswith (p s : string) : bool :=
  match p, s with
  | EmptyString, _ => true
  | String a p', String b s' => Ascii.eqb a b && startswith p' s'
  | String _ _, EmptyString => false
  end.

(** [s.endswith(p)]. *)
Definition endswith (p s : string) : bool :=
  startswith (text (rev (chars p))) (text (rev (chars s))).

(** [sep.join(parts)]. *)
Fixpoint str_join (sep : string) (parts : list string) : string :=
  match parts with
  | [] => EmptyString
  | [p] => p
  | p :: ps => p +:+ sep +:+ str_join sep ps
  end.

(** [s[-1]] of a string; [None] stands for the [IndexError] on [""]. *)
Fixpoint last_char (s : string) : option ascii :=
  match s with
  | EmptyString => None
  | String c EmptyString => Some c
  | String _ s' => last_char s'
  end.

(** [s[:-1]]. *)
Fixpoint drop_last (s : string) : string :=
  match s with
  | EmptyString => EmptyString
  | String _ EmptyString => EmptyString
  | String c s' => String c (drop_last s')
  end.

(** [s[1:]]. *)
Definition drop_first (s : string) : string :=
  match s with
  | EmptyString => EmptyString
  | String _ s' => s'
  end.

(** [bytes.upper()]: ASCII letters only. *)
Definition upper_char (c : ascii) : ascii :=
  let n := nat_of_ascii c in
  if (Nat.leb 97 n && Nat.leb n 122)%bool then ascii_of_nat (n - 32) else c.

Fixpoint upper (s : string) : string :=
  match s with
  | EmptyString => EmptyString
  | String c s' => String (upper_char c) (upper s')
  end.

(** [str(n)] for a natural number. *)
Definition str_of_nat (n : nat) : string :=
  NilEmpty.string_of_uint (Nat.to_uint n).

(* ===================================================================== *)
(** * [os.path] (posixpath) and [path_join_safe]                          *)
(* ===================================================================== *)

Module posixpath.

(** [os.path.join(a, b)]. *)
Definition join (a b : string) : string :=
  if startswith "/" b then b
  else if (String.eqb a "" || endswith "/" a)%bool then a +:+ b
  else a +:+ "/" +:+ b.

Definition isabs (p : string) : bool := startswith "/" p.

(** The loop of [normpath]: [new_comps] is kept in reverse, its head is
    the component appended last. *)
Fixpoint norm_comps (initial_slashes : nat) (comps : list string)
         (new_comps : list string) : list string :=
  match comps with
  | [] => rev new_comps
  | comp :: comps' =>
      if (String.eqb comp "" || String.eqb comp ".")%bool
      then norm_comps initial_slashes comps' new_comps
      else if (negb (String.eqb comp "..")
               || (Nat.eqb initial_slashes 0
                   && match new_comps with [] => true | _ => false end)
               || match new_comps with
                  | last :: _ => String.eqb last ".."
                  | [] => false
                  end)%bool
      then norm_comps initial_slashes comps' (comp :: new_comps)
      else match new_comps with
           | _ :: popped => norm_comps initial_slashes comps' popped
           | [] => norm_comps initial_slashes comps' new_comps
           end
  end.

Definition normpath (path : string) : string :=
  if String.eqb path "" then "."
  else
    let initial_slashes : nat :=
      if startswith "/" path then
        if (startswith "//" path && negb (startswith "///" path))%bool
        then 2%nat else 1%nat
      else 0%nat in
    let comps := norm_comps initial_slashes (split "/" path) [] in
    let joined := str_join "/" comps in
    let path' :=
      match initial_slashes with
      | 0%nat => joined
      | 1%nat => "/" +:+ joined
      | _ => "//" +:+ joined
      end in
    if String.eqb path' "" then "." else path'.

(** [os.path.abspath(path)] in working directory [cwd]. *)
Definition abspath (cwd path : string) : string :=
  normpath (if isabs path then path else join cwd path).

End posixpath.

(** [path_join_safe(root_directory, filename)], run in directory [cwd]. *)
Definition path_join_safe (cwd root_directory filename : string)
  : Outcome string :=
  let root_directory := replace "\" "/" root_directory in
  let filename := replace "\" "/" filename in
  let parts : gset string := list_to_set (split "/" filename) in
  if bool_decide (".." ∈ parts ∨ "." ∈ parts)
  then Raise (ValueError "invalid path")
  else
    let path := posixpath.join root_directory filename in
    Return (posixpath.abspath cwd path).

(* ===================================================================== *)
(** * [CacheDict]: an [OrderedDict] bounded by [cache_len]                *)
(* ===================================================================== *)

Module CacheDict.
Section WithValue.
Context {V : Type}.

(** The entries are kept in the order of the [OrderedDict]: the head is
    the oldest entry, the one [next(iter(self))] yields. *)
Record t : Type := mk { cache_len : Z; items : list (string * V) }.

Definition __contains__ (key : string) (self : t) : bool :=
  existsb (fun kv => String.eqb key kv.1) (items self).

Definition __len__ (self : t) : Z := Z.of_nat (length (items self)).

(** [OrderedDict.__setitem__]: an existing key keeps its position. *)
Definition od_setitem (key : string) (value : V) (l : list (string * V))
  : list (string * V) :=
  if existsb (fun kv => String.eqb key kv.1) l
  then map (fun kv => if String.eqb key kv.1 then (key, value) else kv) l
  else l ++ [(key, value)].

(** [OrderedDict.__getitem__]. *)
Definition od_getitem (key : string) (l : list (string * V)) : option V :=
  snd <$> find (fun kv => String.eqb key kv.1) l.

(** [OrderedDict.move_to_end(key)]. *)
Definition od_move_to_end (key : string) (l : list (string * V))
  : list (string * V) :=
  match od_getitem key l with
  | Some v =>
      List.filter (fun kv => negb (String.eqb key kv.1)) l ++ [(key, v)]
  | None => l
  end.

(** [while len(self) > self.cache_len: del self[next(iter(self))]]. *)
Fixpoint evict (cache_len : Z) (l : list (string * V))
  : list (string * V) * Outcome unit :=
  match l with
  | [] => ([], if 0 >? cache_len then Raise StopIteration else Return tt)
  | _ :: rest =>
      if Z.of_nat (length l) >? cache_len then evict cache_len rest
      else (l, Return tt)
  end.

Definition __setitem__ (key : string) (value : V) (self : t)
  : t * Outcome unit :=
  let l := od_move_to_end key (od_setitem key value (items self)) in
  let '(l', r) := evict (cache_len self) l in
  (mk (cache_len self) l', r).

Definition __getitem__ (key : string) (self : t) : t * Outcome V :=
  match od_getitem key (items self) with
  | None => (self, Raise (KeyError key))
  | Some v => (mk (cache_len self) (od_move_to_end key (items self)),
               Return v)
  end.

(** The object stored under [key] is mutated in place: the entry keeps
    its position and now shows the new state of the object. *)
Definition mutate (key : string) (value : V) (self : t) : t :=
  mk (cache_len self)
     (map (fun kv => if String.eqb key kv.1 then (key, value) else kv)
          (items self)).

(** [OrderedDict.__init__] with keyword arguments: every keyword is
    stored through [__setitem__]. *)
Fixpoint update (kwargs : list (string * V)) (self : t) : t * Outcome unit :=
  match kwargs with
  | [] => (self, Return tt)
  | (k, v) :: kwargs' =>
      match __setitem__ k v self with
      | (self', Return _) => update kwargs' self'
      | (self', Raise e) => (self', Raise e)
      end
  end.

(** The constructor of [CacheDict]: [cache_len] is the only keyword it
    takes for itself; every other keyword ([kwargs]) goes to
    [OrderedDict.__init__] and becomes an entry. *)
Definition __init__ (cache_len : Z) (kwargs : list (string * V))
  : Outcome t :=
  if cache_len >? 0 then
    match update kwargs (mk cache_len []) with
    | (self, Return _) => Return self
    | (_, Raise e) => Raise e
    end
  else Raise AssertionError.

Definition default_cache_len : Z := 128.

End WithValue.
Arguments t V : clear implicits.
End CacheDict.

(* ===================================================================== *)
(** * [RollingCounter]                                                    *)
(* ===================================================================== *)

Module RollingCounter.

Record t : Type := mk {
  interval_ms : Z;
  _current_index : Z;
  _bins : Z;
  _counts : list Z;
  _count : Z
}.

(** [RollingCounter(interval_ms, bins)]; [//] by zero raises. *)
Definition __init__ (interval_ms bins : Z) : Outcome t :=
  if bins =? 0 then Raise ZeroDivisionError
  else Return (mk (interval_ms / bins) 0 bins [] 0).

(** [while len(self._counts) > self._bins: self._counts.pop(0)]. *)
Fixpoint pop_excess (bins : Z) (counts : list Z) : list Z * Outcome unit :=
  match counts with
  | [] => ([], if 0 >? bins then Raise IndexError else Return tt)
  | _ :: rest =>
      if Z.of_nat (length counts) >? bins then pop_excess bins rest
      else (counts, Return tt)
  end.

(** [self._counts[-1] += 1]. *)
Fixpoint bump_last (counts : list Z) : option (list Z) :=
  match counts with
  | [] => None
  | [c] => Some [c + 1]
  | c :: rest => cons c <$> bump_last rest
  end.

Definition sum (counts : list Z) : Z := fold_right Z.add 0 counts.

Definition with_counts (self : t) (counts : list Z) : t :=
  mk (interval_ms self) (_current_index self) (_bins self) counts
     (_count self).

Definition with_index (self : t) (index : Z) : t :=
  mk (interval_ms self) index (_bins self) (_counts self) (_count self).

Definition with_count (self : t) (count : Z) : t :=
  mk (interval_ms self) (_current_index self) (_bins self) (_counts self)
     count.

(** The [if index != self._current_index:] block of [increment]. *)
Definition roll (index : Z) (self : t) : t * Outcome unit :=
  if negb (index =? _current_index self) then
    if index - _current_index self >? _bins self then
      (with_counts self [0], Return tt)
    else
      match pop_excess (_bins self) (_counts self ++ [0]) with
      | (counts, Return _) =>
          (with_index (with_counts self counts) index, Return tt)
      | (counts, Raise e) => (with_counts self counts, Raise e)
      end
  else (self, Return tt).

(** [increment()] when the clock reads [ms] milliseconds. *)
Definition increment (ms : Z) (self : t) : t * Outcome Z :=
  if interval_ms self =? 0 then (self, Raise ZeroDivisionError)
  else
    let index := ms / interval_ms self in
    match roll index self with
    | (self1, Raise e) => (self1, Raise e)
    | (self1, Return _) =>
        match bump_last (_counts self1) with
        | None => (self1, Raise IndexError)
        | Some counts =>
            let self2 := with_counts self1 counts in
            let self3 := with_count self2 (sum (_counts self2)) in
            (self3, Return (_count self3))
        end
    end.

Definition value (self : t) : Z := _count self.

End RollingCounter.

(* ===================================================================== *)
(** * [RateLimiter]                                                       *)
(* ===================================================================== *)

Module RateLimiter.

(** What a slot of [self.counter] can hold: the rolling counter of a key,
    or the integer that the constructor's [capacity] keyword leaves
    there. *)
Inductive slot : Type :=
| SInt (n : Z)
| SCounter (c : RollingCounter.t).

Record t : Type := mk {
  counter : CacheDict.t slot;
  blocked : CacheDict.t slot;
  limit : Z;
  interval_ms : Z
}.

Definition with_counter (self : t) (c : CacheDict.t slot) : t :=
  mk c (blocked self) (limit self) (interval_ms self).

(** [RateLimiter(limit, interval_ms, capacity)].  Both dictionaries are
    built with [CacheDict(capacity=capacity)]: no [cache_len] is given, so
    the default applies, and [capacity] is one of the other keywords. *)
Definition __init__ (limit interval_ms capacity : Z) : Outcome t :=
  match CacheDict.__init__ CacheDict.default_cache_len
                           [("capacity", SInt capacity)] with
  | Raise e => Raise e
  | Return counter =>
      match CacheDict.__init__ CacheDict.default_cache_len
                               [("capacity", SInt capacity)] with
      | Raise e => Raise e
      | Return blocked => Return (mk counter blocked limit interval_ms)
      end
  end.

(** [insert(k)] when the clock reads [ms]. *)
Definition insert (k : string) (ms : Z) (self : t) : t * Outcome bool :=
  let '(c1, r1) :=
    if negb (CacheDict.__contains__ k (counter self)) then
      match RollingCounter.__init__ (interval_ms self) 4 with
      | Raise e => (counter self, Raise e)
      | Return rc => CacheDict.__setitem__ k (SCounter rc) (counter self)
      end
    else (counter self, Return tt) in
  match r1 with
  | Raise e => (with_counter self c1, Raise e)
  | Return _ =>
      match CacheDict.__getitem__ k c1 with
      | (c2, Raise e) => (with_counter self c2, Raise e)
      | (c2, Return (SInt _)) =>
          (with_counter self c2, Raise (AttributeError "increment"))
      | (c2, Return (SCounter rc)) =>
          match RollingCounter.increment ms rc with
          | (rc', Raise e) =>
              (with_counter self (CacheDict.mutate k (SCounter rc') c2),
               Raise e)
          | (rc', Return count) =>
              (with_counter self (CacheDict.mutate k (SCounter rc') c2),
               Return (count >? limit self))
          end
      end
  end.

(** The keys of [self.counter], the oldest entry first. *)
Definition tracked (self : t) : list string :=
  (CacheDict.items (counter self)).*1.

End RateLimiter.

(* ===================================================================== *)
(** * Python's [re]: the fragment the router relies on                    *)
(* ===================================================================== *)

(** The router builds a regular expression as text and hands it to
    [re.compile]; literal segments of a path pattern are spliced into that
    text as they are.  [re.compile] is modelled for the syntax below, which
    includes everything the router itself writes: literal characters,
    escaped punctuation, [.], [^], [$], character sets of plain characters,
    groups (capturing and [(?:...)]), alternation and the greedy
    quantifiers [?], [*], [+].  Text that uses anything else is reported as
    [Unsupported]: the model makes no statement about it. *)
Module re.

Inductive regex : Type :=
| Eps
| Chr (c : ascii)
| AnyChar
| NotIn (cs : list ascii)
| OneOf (cs : list ascii)
| Bol
| Eol
| Seq (r1 r2 : regex)
| Alt (r1 r2 : regex)
| Opt (r : regex)
| Star (r : regex)
| Plus (r : regex)
| Group (index : option nat) (r : regex).

Fixpoint nullable (r : regex) : bool :=
  match r with
  | Eps | Bol | Eol | Opt _ | Star _ => true
  | Chr _ | AnyChar | NotIn _ | OneOf _ => false
  | Seq r1 r2 => nullable r1 && nullable r2
  | Alt r1 r2 => nullable r1 || nullable r2
  | Plus r' | Group _ r' => nullable r'
  end.

(** ** Parsing: a machine that reads the pattern text left to right *)

Inductive mode : Type :=
| MNormal
| MEscape
| MParen
| MParenQ
| MSetOpen
| MSet (neg : bool) (members : list ascii)
| MSetEscape (neg : bool) (members : list ascii).

(** What is saved when a group opens. *)
Record frame : Type := mkframe {
  f_group : option nat;
  f_seq : list regex;
  f_alts : list regex
}.

(** [p_seq]: the items of the branch being read, last read first;
    [p_alts]: the finished branches, last finished first. *)
Record pstate : Type := mkp {
  p_mode : mode;
  p_seq : list regex;
  p_alts : list regex;
  p_stack : list frame;
  p_groups : nat
}.

Inductive presult : Type :=
| POk (s : pstate)
| PError
| PUnsupported.

Definition seq_of (items : list regex) : regex := fold_right Seq Eps items.

Fixpoint alt_of (branches : list regex) : regex :=
  match branches with
  | [] => Eps
  | [r] => r
  | r :: rs => Alt r (alt_of rs)
  end.

Definition branches (s : pstate) : regex :=
  alt_of (rev (seq_of (rev (p_seq s)) :: p_alts s)).

Definition set_mode (m : mode) (s : pstate) : pstate :=
  mkp m (p_seq s) (p_alts s) (p_stack s) (p_groups s).

Definition push (a : regex) (s : pstate) : presult :=
  POk (mkp MNormal (a :: p_seq s) (p_alts s) (p_stack s) (p_groups s)).

Inductive quantifier : Type := QOpt | QStar | QPlus.

Definition quantify (q : quantifier) (s : pstate) : presult :=
  match p_seq s with
  | [] => PError
  | a :: items =>
      match a with
      | Bol | Eol => PError
      | Opt _ | Star _ | Plus _ => PUnsupported
      | _ =>
          match q with
          | QOpt => POk (mkp MNormal (Opt a :: items) (p_alts s)
                             (p_stack s) (p_groups s))
          | QStar =>
              if nullable a then PUnsupported
              else POk (mkp MNormal (Star a :: items) (p_alts s)
                            (p_stack s) (p_groups s))
          | QPlus =>
              if nullable a then PUnsupported
              else POk (mkp MNormal (Plus a :: items) (p_alts s)
                            (p_stack s) (p_groups s))
          end
      end
  end.

Definition open_group (capturing : bool) (s : pstate) : pstate :=
  if capturing then
    mkp MNormal [] []
        (mkframe (Some (S (p_groups s))) (p_seq s) (p_alts s) :: p_stack s)
        (S (p_groups s))
  else
    mkp MNormal [] []
        (mkframe None (p_seq s) (p_alts s) :: p_stack s) (p_groups s).

Definition close_group (s : pstate) : presult :=
  match p_stack s with
  | [] => PError
  | f :: stack =>
      POk (mkp MNormal (Group (f_group f) (branches s) :: f_seq f)
               (f_alts f) stack (p_groups s))
  end.

Definition next_branch (s : pstate) : presult :=
  POk (mkp MNormal [] (seq_of (rev (p_seq s)) :: p_alts s)
           (p_stack s) (p_groups s)).

(** ASCII letters and digits: after a backslash they name a class, a
    back reference or an anchor, none of which is modelled. *)
Definition alnum (c : ascii) : bool :=
  let n := nat_of_ascii c in
  ((Nat.leb 48 n && Nat.leb n 57) || (Nat.leb 65 n && Nat.leb n 90)
   || (Nat.leb 97 n && Nat.leb n 122))%bool.

Definition step_normal (s : pstate) (c : ascii) : presult :=
  if Ascii.eqb c "\" then POk (set_mode MEscape s)
  else if Ascii.eqb c "(" then POk (set_mode MParen s)
  else if Ascii.eqb c ")" then close_group s
  else if Ascii.eqb c "[" then POk (set_mode MSetOpen s)
  else if Ascii.eqb c "|" then next_branch s
  else if Ascii.eqb c "?" then quantify QOpt s
  else if Ascii.eqb c "*" then quantify QStar s
  else if Ascii.eqb c "+" then quantify QPlus s
  else if Ascii.eqb c "{" then PUnsupported
  else if Ascii.eqb c "." then push AnyChar s
  else if Ascii.eqb c "^" then push Bol s
  else if Ascii.eqb c "$" then push Eol s
  else push (Chr c) s.

Definition step_set (neg : bool) (members : list ascii) (s : pstate)
           (c : ascii) : presult :=
  if Ascii.eqb c "]" then
    match members with
    | [] => PUnsupported
    | _ => push (if neg then NotIn (rev members) else OneOf (rev members)) s
    end
  else if Ascii.eqb c "\" then POk (set_mode (MSetEscape neg members) s)
  else if (Ascii.eqb c "-" || Ascii.eqb c "[")%bool then PUnsupported
  else POk (set_mode (MSet neg (c :: members)) s).

Definition step (s : pstate) (c : ascii) : presult :=
  match p_mode s with
  | MNormal => step_normal s c
  | MEscape => if alnum c then PUnsupported else push (Chr c) s
  | MParen =>
      if Ascii.eqb c "?" then POk (set_mode MParenQ s)
      else step_normal (open_group true s) c
  | MParenQ =>
      if Ascii.eqb c ":" then POk (open_group false s) else PUnsupported
  | MSetOpen =>
      if Ascii.eqb c "^" then POk (set_mode (MSet true []) s)
      else step_set false [] s c
  | MSet neg members => step_set neg members s c
  | MSetEscape neg members =>
      if alnum c then PUnsupported
      else POk (set_mode (MSet neg (c :: members)) s)
  end.

Definition feed (r : presult) (c : ascii) : presult :=
  match r with
  | POk s => step s c
  | _ => r
  end.

Definition parse_from (r : presult) (cs : list ascii) : presult :=
  fold_left feed cs r.

Definition initial : pstate := mkp MNormal [] [] [] 0.

(** A compiled pattern: its syntax tree and its number of groups. *)
Record Pattern : Type := mkpat { ast : regex; groups : nat }.

(** What [re.compile] does with a text: a pattern, [re.error], or
    [Unsupported] when the text is outside the modelled syntax. *)
Inductive compiled : Type :=
| Compiled (p : Pattern)
| error
| Unsupported.

(** The end of the text: every group must be closed and no construct
    may be left half read. *)
Definition finish (r : presult) : compiled :=
  match r with
  | PError => error
  | PUnsupported => Unsupported
  | POk s =>
      match p_mode s, p_stack s with
      | MNormal, [] => Compiled (mkpat (branches s) (p_groups s))
      | _, _ => error
      end
  end.

(** [re.compile(text)]. *)
Definition compile (pattern_text : string) : compiled :=
  finish (parse_from (POk initial) (chars pattern_text)).

(** ** Matching: a backtracking matcher with continuations *)

Definition captures : Type := list (nat * list ascii).

(** [m_pos]: how many characters are behind; [m_rest]: the characters
    ahead; [m_caps]: what the groups closed so far have captured, the
    latest first. *)
Record mstate : Type := mkm {
  m_pos : nat;
  m_rest : list ascii;
  m_caps : captures
}.

Definition cont : Type := mstate → option captures.

Definition eat (p : ascii → bool) (st : mstate) (k : cont)
  : option captures :=
  match m_rest st with
  | x :: xs => if p x then k (mkm (S (m_pos st)) xs (m_caps st)) else None
  | [] => None
  end.

Definition newline : ascii := "010".

Definition member (cs : list ascii) (x : ascii) : bool :=
  existsb (Ascii.eqb x) cs.

(** The text from [st] up to [st'] is recorded for group [i]. *)
Definition capture (i : nat) (st st' : mstate) : mstate :=
  mkm (m_pos st') (m_rest st')
      ((i, take (length (m_rest st) - length (m_rest st')) (m_rest st))
         :: m_caps st').

(** Greedy repetition of the matcher [m]: one more round is tried first,
    and the rest of the pattern ([k]) only when that fails.  A round
    must consume text; [n] bounds the number of rounds. *)
Definition star_loop (m : mstate → cont → option captures) (k : cont)
  : nat → mstate → option captures :=
  fix loop (n : nat) (st : mstate) {struct n} : option captures :=
    match n with
    | O => k st
    | S n' =>
        match m st (fun st' =>
                      if (length (m_rest st') <? length (m_rest st))%nat
                      then loop n' st' else None) with
        | Some caps => Some caps
        | None => k st
        end
    end.

Fixpoint run (r : regex) (st : mstate) (k : cont) {struct r}
  : option captures :=
  match r with
  | Eps => k st
  | Chr c => eat (Ascii.eqb c) st k
  | AnyChar => eat (fun x => negb (Ascii.eqb x newline)) st k
  | NotIn cs => eat (fun x => negb (member cs x)) st k
  | OneOf cs => eat (member cs) st k
  | Bol => if Nat.eqb (m_pos st) 0 then k st else None
  | Eol =>
      match m_rest st with
      | [] => k st
      | [x] => if Ascii.eqb x newline then k st else None
      | _ => None
      end
  | Seq r1 r2 => run r1 st (fun st' => run r2 st' k)
  | Alt r1 r2 =>
      match run r1 st k with
      | Some caps => Some caps
      | None => run r2 st k
      end
  | Opt r' =>
      match run r' st k with
      | Some caps => Some caps
      | None => k st
      end
  | Star r' => star_loop (run r') k (length (m_rest st)) st
  | Plus r' =>
      run r' st (fun st' => star_loop (run r') k (length (m_rest st')) st')
  | Group g r' =>
      run r' st (fun st' =>
                   k (match g with
                      | Some i => capture i st st'
                      | None => st'
                      end))
  end.

Fixpoint lookup_group (i : nat) (caps : captures) : option (list ascii) :=
  match caps with
  | [] => None
  | (j, s) :: caps' => if Nat.eqb i j then Some s else lookup_group i caps'
  end.

(** [pattern.match(s)] followed by [groups()]: [None] when there is no
    match at the start of [s]; otherwise one entry per group, [None] for
    a group that took no part in the match. *)
Definition match_groups (p : Pattern) (s : string)
  : option (list (option string)) :=
  match run (ast p) (mkm 0 (chars s) []) (fun st => Some (m_caps st)) with
  | None => None
  | Some caps =>
      Some (map (fun i => text <$> lookup_group i caps)
                (seq 1 (groups p)))
  end.

Definition accepts (p : Pattern) (s : string) : bool :=
  match match_groups p s with Some _ => true | None => false end.

End re.

(* ===================================================================== *)
(** * Payload objects and [json.dumps]                                    *)
(* ===================================================================== *)

(** The objects a response payload can be.  [PySerializable encoded] is an
    instance of [Serializable] whose [dumpb()] returns [encoded]. *)
#[warnings="-register-all"]
Inductive PyObj : Type :=
| PyNone
| PyStr (s : string)
| PyBytes (b : string)
| PyInt (n : Z)
| PyDict (entries : list (string * PyObj))
| PySerializable (encoded : string).

Module json.

Definition dquote : ascii := "034".

Definition hex_digit (n : nat) : ascii :=
  match nth_error (chars "0123456789abcdef") n with
  | Some c => c
  | None => "0"%char
  end.

(** One character of a string literal, with [ensure_ascii] on. *)
Definition escape_char (c : ascii) : string :=
  let n := nat_of_ascii c in
  if Ascii.eqb c dquote then String "\" (String dquote "")
  else if Ascii.eqb c "\" then "\\"
  else if Nat.eqb n 10 then "\n"
  else if Nat.eqb n 13 then "\r"
  else if Nat.eqb n 9 then "\t"
  else if Nat.eqb n 8 then "\b"
  else if Nat.eqb n 12 then "\f"
  else if (Nat.leb 32 n && Nat.leb n 126)%bool then String c ""
  else "\u00" +:+ String (hex_digit (n / 16)) (String (hex_digit (n mod 16)) "").

Fixpoint escape (s : string) : string :=
  match s with
  | EmptyString => EmptyString
  | String c s' => escape_char c +:+ escape s'
  end.

Definition quote (s : string) : string :=
  String dquote (escape s) +:+ String dquote "".

Definition str_of_Z (n : Z) : string :=
  match n with
  | Z0 => "0"
  | Zpos p => str_of_nat (Pos.to_nat p)
  | Zneg p => "-" +:+ str_of_nat (Pos.to_nat p)
  end.

(** [json.dumps(o)] with the default separators. *)
Fixpoint dumps (o : PyObj) : Outcome string :=
  match o with
  | PyNone => Return "null"
  | PyStr s => Return (quote s)
  | PyInt n => Return (str_of_Z n)
  | PyDict entries =>
      let fix members (l : list (string * PyObj)) : Outcome (list string) :=
        match l with
        | [] => Return []
        | (k, v) :: l' =>
            match dumps v with
            | Raise e => Raise e
            | Return sv =>
                match members l' with
                | Raise e => Raise e
                | Return rest => Return ((quote k +:+ ": " +:+ sv) :: rest)
                end
            end
        end in
      match members entries with
      | Raise e => Raise e
      | Return items => Return ("{" +:+ str_join ", " items +:+ "}")
      end
  | PyBytes _ | PySerializable _ =>
      Raise (TypeError "Object is not JSON serializable")
  end.

End json.

(** [s.encode("utf-8")] for characters with codes 0..255. *)
Fixpoint utf8_encode (s : string) : string :=
  match s with
  | EmptyString => EmptyString
  | String c s' =>
      let n := nat_of_ascii c in
      if Nat.ltb n 128 then String c (utf8_encode s')
      else String (ascii_of_nat (192 + n / 64))
                  (String (ascii_of_nat (128 + n mod 64)) (utf8_encode s'))
  end.

(* ===================================================================== *)
(** * Responses                                                           *)
(* ===================================================================== *)

Inductive ResponseClass : Type :=
| ClsResponse
| ClsErrorResponse
| ClsJsonResponse
| ClsSerializableResponse.

Record Response : Type := mkResponse {
  cls : ResponseClass;
  status_code : Z;
  resp_headers : gmap string string;
  payload : PyObj;
  compress : bool
}.

(** [Response.__init__(payload, status_code, headers, compress)], shared by
    the subclasses: [None] becomes [b""] and text is encoded. *)
Definition new_response (c : ResponseClass) (payload : PyObj)
           (status_code : Z) (headers : option (gmap string string))
           (compress : bool) : Response :=
  mkResponse c status_code
             (match headers with Some h => h | None => ∅ end)
             (match payload with
              | PyNone => PyBytes ""
              | PyStr s => PyBytes (utf8_encode s)
              | _ => payload
              end)
             compress.

(** [JsonResponse(obj, status_code)]. *)
Definition JsonResponse (obj : PyObj) (status_code : Z) : Response :=
  new_response ClsJsonResponse obj status_code None false.

(** [ErrorResponse(obj, status_code)]. *)
Definition ErrorResponse (obj : PyObj) (status_code : Z) : Response :=
  new_response ClsErrorResponse obj status_code None false.

(** [SerializableResponse(obj, status_code)]. *)
Definition SerializableResponse (obj : PyObj) (status_code : Z) : Response :=
  new_response ClsSerializableResponse obj status_code None false.

(** The body [{'error': message}] of the dispatcher's own responses. *)
Definition error_body (message : string) : PyObj :=
  PyDict [("error", PyStr message)].

Definition with_payload (r : Response) (p : PyObj) : Response :=
  mkResponse (cls r) (status_code r) (resp_headers r) p (compress r).

Definition set_header (k v : string) (r : Response) : Response :=
  mkResponse (cls r) (status_code r) (<[k := v]> (resp_headers r))
             (payload r) (compress r).

Section Rendering.

(** [gzip]: what writing [b] through a [GzipFile] leaves in the buffer. *)
Variable gzip_compress : string → string.

(** [Response._get_payload]. *)
Definition base_get_payload (self : Response) : Response * Outcome PyObj :=
  if compress self then
    match payload self with
    | PyBytes b =>
        let self1 := with_payload self (PyBytes (gzip_compress b)) in
        let self2 := set_header "Vary" "Accept-Encoding" self1 in
        let self3 := set_header "Content-Encoding" "gzip" self2 in
        (self3, Return (payload self3))
    | _ => (self, Raise (TypeError "a bytes-like object is required"))
    end
  else (self, Return (payload self)).

(** [_get_payload] of the class of [self]. *)
Definition _get_payload (self : Response) : Response * Outcome PyObj :=
  match cls self with
  | ClsResponse | ClsErrorResponse => base_get_payload self
  | ClsJsonResponse =>
      match base_get_payload self with
      | (self1, Raise e) => (self1, Raise e)
      | (self1, Return payload) =>
          match json.dumps payload with
          | Raise e => (self1, Raise e)
          | Return dumped =>
              let encoded := dumped +:+ String re.newline "" in
              let self2 :=
                set_header "Content-Type" "application/json" self1 in
              let self3 :=
                set_header "Content-Length"
                           (str_of_nat (String.length encoded)) self2 in
              (self3, Return (PyBytes encoded))
          end
      end
  | ClsSerializableResponse =>
      match base_get_payload self with
      | (self1, Raise e) => (self1, Raise e)
      | (self1, Return (PySerializable encoded)) =>
          let self2 :=
            set_header "Content-Type" "application/x-serializable" self1 in
          let self3 :=
            set_header "Content-Length"
                       (str_of_nat (String.length encoded)) self2 in
          (self3, Return (PyBytes encoded))
      | (self1, Return _) => (self1, Raise (AttributeError "dumpb"))
      end
  end.

End Rendering.

(* ===================================================================== *)
(** * Requests and routes                                                 *)
(* ===================================================================== *)

(** The header map of a request: the transport builds a
    [CaseInsensitiveDict], whose keys are stored and looked up in upper
    case; the test client builds a plain [dict]. *)
Inductive Headers : Type :=
| PlainDict (m : gmap string (list string))
| CaseInsensitiveDict (m : gmap string (list string)).

Definition headers_get (key : string) (h : Headers) : option (list string) :=
  match h with
  | PlainDict m => m !! key
  | CaseInsensitiveDict m => m !! upper key
  end.

Definition headers_contains (key : string) (h : Headers) : bool :=
  match headers_get key h with Some _ => true | None => false end.

Record Request : Type := mkRequest {
  client_address : string * Z;
  method : string;
  path : string;
  params : gmap string (list (option string));
  fragment : string;
  headers : Headers;
  stream : string;
  matches : gmap string (option string)
}.

Definition with_matches (r : Request) (m : gmap string (option string))
  : Request :=
  mkRequest (client_address r) (method r) (path r) (params r) (fragment r)
            (headers r) (stream r) m.

(** What a handler hands back: a [Response], or some other object
    ([VObject PyNone] when it returns nothing). *)
Inductive PyVal : Type :=
| VResponse (r : Response)
| VObject (o : PyObj).

Record Route : Type := mkRoute {
  name : string;
  route_method : string;
  pattern : string;
  callback : Request → Outcome PyVal;
  ratelimit : option (Z * string);
  options : gmap string Z
}.

(* ===================================================================== *)
(** * [Router]: pattern compiler, route table, dispatch                   *)
(* ===================================================================== *)

Module Router.

(** One row of [route_table[method]]: [(regex, tokens, route)]. *)
Abbreviation entry := (re.Pattern * list string * Route)%type.

Record t : Type := mk {
  route_table : gmap string (list entry);
  routes : list Route;
  limiter : RateLimiter.t
}.

Definition with_limiter (self : t) (l : RateLimiter.t) : t :=
  mk (route_table self) (routes self) l.

(** [Router()]: four empty method lists and the default limiter. *)
Definition __init__ : Outcome t :=
  match RateLimiter.__init__ 5 (60 * 1000) 1024 with
  | Raise e => Raise e
  | Return l =>
      Return (mk (<["DELETE" := []]> (<["GET" := []]>
                   (<["POST" := []]> (<["PUT" := []]> ∅))))
                 [] l)
  end.

(** [[part for part in pattern.split("/") if part]]. *)
Definition parts_of (pattern : string) : list string :=
  List.filter (fun part => negb (String.eqb part "")) (split "/" pattern).

Definition is_token (part : string) : bool := startswith ":" part.

(** [part[-1]] is one of [?], [*], [+]. *)
Definition suffix_of (part : string) : option ascii :=
  match last_char part with
  | Some c =>
      if (Ascii.eqb c "?" || Ascii.eqb c "*" || Ascii.eqb c "+")%bool
      then Some c else None
  | None => None
  end.

(** The text appended to [re_str] for each kind of token. *)
Definition re_optional : string := "(?:\/([^\/]*)|\/)?".
Definition re_star : string := "(?:\/(.*)|\/)?".
Definition re_plus : string := "\/?(.+)".
Definition re_plain : string := "\/([^\/]+)".

(** The [for part in parts] loop of [patternToRegex]. *)
Fixpoint compile_parts (pattern : string) (parts : list string)
         (tokens : list string) (re_str : string) (final : bool)
  : Outcome (string * list string) :=
  match parts with
  | [] => Return (re_str, tokens)
  | part :: parts' =>
      if is_token part then
        match last_char part with
        | None => Raise IndexError
        | Some c =>
            if Ascii.eqb c "?" then
              if final then Raise (ValueError pattern)
              else compile_parts pattern parts'
                     (tokens ++ [drop_last (drop_first part)])
                     (re_str +:+ re_optional) true
            else if Ascii.eqb c "*" then
              if final then Raise (ValueError pattern)
              else compile_parts pattern parts'
                     (tokens ++ [drop_last (drop_first part)])
                     (re_str +:+ re_star) true
            else if Ascii.eqb c "+" then
              if final then Raise (ValueError pattern)
              else compile_parts pattern parts'
                     (tokens ++ [drop_last (drop_first part)])
                     (re_str +:+ re_plus) true
            else compile_parts pattern parts'
                   (tokens ++ [drop_first part])
                   (re_str +:+ re_plain) final
        end
      else compile_parts pattern parts' tokens
             (re_str +:+ "\/" +:+ part) final
  end.

(** [patternToRegex] up to the call of [re.compile]: the text of the
    regular expression and the token names. *)
Definition regex_text (pattern : string) : Outcome (string * list string) :=
  match compile_parts pattern (parts_of pattern) [] "^" false with
  | Raise e => Raise e
  | Return (re_str, tokens) =>
      let re_str :=
        if negb (String.eqb re_str "^\/") then re_str +:+ "\/?"
        else re_str in
      Return (re_str +:+ "$", tokens)
  end.

(** [patternToRegex(pattern)].  [None]: the text handed to [re.compile]
    lies outside the modelled syntax. *)
Definition patternToRegex (pattern : string)
  : option (Outcome (re.Pattern * list string)) :=
  match regex_text pattern with
  | Raise e => Some (Raise e)
  | Return (re_str, tokens) =>
      match re.compile re_str with
      | re.Compiled p => Some (Return (p, tokens))
      | re.error => Some (Raise ReError)
      | re.Unsupported => None
      end
  end.

(** [registerRoutes(routes)].  The table is updated route by route, so a
    route that raises leaves the earlier ones registered. *)
Fixpoint registerRoutes (new_routes : list Route) (self : t)
  : option (t * Outcome unit) :=
  match new_routes with
  | [] => Some (self, Return tt)
  | route :: rest =>
      match patternToRegex (pattern route) with
      | None => None
      | Some (Raise e) => Some (self, Raise e)
      | Some (Return (regex, tokens)) =>
          match route_table self !! route_method route with
          | None =>
              Some (self, Raise (ValueError ("Unsupported method: "
                                             +:+ route_method route)))
          | Some rows =>
              registerRoutes rest
                (mk (<[route_method route :=
                         (rows ++ [(regex, tokens, route)])%list]>
                       (route_table self))
                    (routes self ++ [route])%list
                    (limiter self))
          end
      end
  end.

(** [{k: v for k, v in zip(tokens, groups)}]: a later pair replaces an
    earlier one with the same key. *)
Definition dict_of_pairs (pairs : list (string * option string))
  : gmap string (option string) :=
  fold_left (fun m kv => <[kv.1 := kv.2]> m) pairs ∅.

(** The [for re_ptn, tokens, endpt in ...] loop of [getRoute]. *)
Fixpoint first_match (rows : list entry) (path : string)
  : option (Route * gmap string (option string)) :=
  match rows with
  | [] => None
  | (re_ptn, tokens, endpt) :: rows' =>
      match re.match_groups re_ptn path with
      | Some groups => Some (endpt, dict_of_pairs (zip tokens groups))
      | None => first_match rows' path
      end
  end.

(** [getRoute(method, path)]. *)
Definition getRoute (method path : string) (self : t)
  : option (Route * gmap string (option string)) :=
  match route_table self !! method with
  | None => None
  | Some rows => first_match rows path
  end.

(** The [for part in parts] loop of [patternToTemplate]. *)
Fixpoint template_parts (parts : list string) (tokens : list string)
         (template : string) (required : Z)
  : Outcome (string * list string * Z) :=
  match parts with
  | [] => Return (template, tokens, required)
  | part :: parts' =>
      if is_token part then
        match last_char part with
        | None => Raise IndexError
        | Some c =>
            if (Ascii.eqb c "?" || Ascii.eqb c "*")%bool then
              let token := drop_last (drop_first part) in
              template_parts parts' (tokens ++ [token])
                             (template +:+ "/{" +:+ token +:+ "}") required
            else if Ascii.eqb c "+" then
              let token := drop_last (drop_first part) in
              template_parts parts' (tokens ++ [token])
                             (template +:+ "/{" +:+ token +:+ "}")
                             (required + 1)
            else
              let token := drop_first part in
              template_parts parts' (tokens ++ [token])
                             (template +:+ "/{" +:+ token +:+ "}")
                             (required + 1)
        end
      else template_parts parts' tokens (template +:+ "/" +:+ part) required
  end.

(** [patternToTemplate(pattern)]: the template, the token names and the
    number of required tokens. *)
Definition patternToTemplate (pattern : string)
  : Outcome (string * list string * Z) :=
  template_parts (parts_of pattern) [] "" 0.

End Router.

Section Dispatch.

Variable gzip_compress : string → string.

(** [int(b)] on a header value: [None] when it raises. *)
Variable int_of_bytes : string → option Z.

(** The payload validation of [request_response]: the response it
    settles on, if any, before the handler is considered. *)
Definition check_content_length (endpt : Route) (request : Request)
  : option Response :=
  match options endpt !! "max_content_length" with
  | None => None
  | Some max_content_length =>
      let '(response, request_content_length) :=
        if negb (headers_contains "Content-Length" (headers request)) then
          (Some (JsonResponse (error_body "Content-Length not specified")
                              411), 0)
        else
          (None,
           match headers_get "Content-Length" (headers request) with
           | Some (value :: _) =>
               match int_of_bytes value with
               | Some n => if n <? 0 then 0 else n
               | None => 0
               end
           | _ => 0
           end) in
      if request_content_length >? max_content_length
      then Some (JsonResponse (error_body "Payload too large") 413)
      else response
  end.

(** The [try: response = endpt.callback(request)] block: an exception
    that derives from [Exception] is logged and leaves [None]. *)
Definition run_callback (endpt : Route) (request : Request)
  : Outcome PyVal :=
  match callback endpt request with
  | Return v => Return v
  | Raise e => if is_Exception e then Return (VObject PyNone) else Raise e
  end.

(** The end of [request_response]: [None] becomes the 500 response, and
    anything that is not a [Response] raises [TypeError]. *)
Definition finish_response (response : Outcome PyVal) : Outcome Response :=
  match response with
  | Raise e => Raise e
  | Return (VObject PyNone) =>
      Return (JsonResponse
                (error_body "route failed to return a response") 500)
  | Return (VObject _) => Raise (TypeError "type(response)")
  | Return (VResponse r) => Return r
  end.

(** [request_response(router, request)]. *)
Definition request_response (router : Router.t) (request : Request)
  : Outcome Response :=
  match Router.getRoute (method request) (path request) router with
  | None => Return (JsonResponse (error_body "path not found") 404)
  | Some (endpt, matches) =>
      let request := with_matches request matches in
      finish_response
        match check_content_length endpt request with
        | Some r => Return (VResponse r)
        | None => run_callback endpt request
        end
  end.

(** [Router.dispatch(request)] when the clock reads [ms]. *)
Definition dispatch (request : Request) (ms : Z) (self : Router.t)
  : Router.t * Outcome (Response * PyObj) :=
  match RateLimiter.insert (client_address request).1 ms
                           (Router.limiter self) with
  | (l, Raise e) => (Router.with_limiter self l, Raise e)
  | (l, Return is_blocked) =>
      let self' := Router.with_limiter self l in
      let response :=
        if is_blocked
        then Return (JsonResponse (error_body "Too Many Requests") 429)
        else request_response self' request in
      match response with
      | Raise e => (self', Raise e)
      | Return response =>
          match _get_payload gzip_compress response with
          | (_, Raise e) => (self', Raise e)
          | (response', Return payload) =>
              (self', Return (response', payload))
          end
      end
  end.

End Dispatch.

(* ===================================================================== *)
(** * Scenarios and auxiliary notions used by the properties              *)
(* ===================================================================== *)

(** [insert(k)] called once per clock reading, in order. *)
Fixpoint insert_each (k : string) (clock : list Z) (self : RateLimiter.t)
  : RateLimiter.t * list (Outcome bool) :=
  match clock with
  | [] => (self, [])
  | ms :: clock' =>
      let '(self1, r) := RateLimiter.insert k ms self in
      let '(self2, rs) := insert_each k clock' self1 in
      (self2, r :: rs)
  end.

(** [insert] called once for every key of a list, all at time [ms]. *)
Fixpoint insert_keys (keys : list string) (ms : Z) (self : RateLimiter.t)
  : RateLimiter.t :=
  match keys with
  | [] => self
  | k :: keys' => insert_keys keys' ms (RateLimiter.insert k ms self).1
  end.

(** The address [10.0.0.i]. *)
Definition client (i : nat) : string := "10.0.0." +:+ str_of_nat i.

(** The limiter of the testable property: limit 5, window 60000 ms. *)
Definition limiter_5_per_minute : RateLimiter.t :=
  RateLimiter.mk (CacheDict.mk 128 [("capacity", RateLimiter.SInt 2)])
                 (CacheDict.mk 128 [("capacity", RateLimiter.SInt 2)])
                 5 60000.

(** The limiter a new [Router] owns. *)
Definition default_limiter : RateLimiter.t :=
  RateLimiter.mk (CacheDict.mk 128 [("capacity", RateLimiter.SInt 1024)])
                 (CacheDict.mk 128 [("capacity", RateLimiter.SInt 1024)])
                 5 60000.

(** A clock reading of November 2023, in milliseconds. *)
Definition now : Z := 1700000000000.

(** The default limiter after one request from each of the 129 addresses
    [10.0.0.1] .. [10.0.0.129]. *)
Definition after_129_clients : RateLimiter.t :=
  insert_keys (client <$> seq 1 129) now default_limiter.

(** The limiter of the testable property once it tracks key [k] with
    rolling counter [rc]. *)
Definition limiter_with (k : string) (rc : RollingCounter.t) : RateLimiter.t :=
  RateLimiter.mk
    (CacheDict.mk 128 [("capacity", RateLimiter.SInt 2);
                       (k, RateLimiter.SCounter rc)])
    (CacheDict.mk 128 [("capacity", RateLimiter.SInt 2)])
    5 60000.

(** A rolling counter that has just started afresh. *)
Definition restarted : RollingCounter.t := RollingCounter.mk 15000 0 4 [1] 1.

(** A part of a pattern that is an optional or greedy token: it starts
    with [:] and ends in [?], [*] or [+]. *)
Definition is_greedy (part : string) : bool :=
  (Router.is_token part
   && match Router.suffix_of part with Some _ => true | None => false end)%bool.

Definition greedy_count (parts : list string) : nat :=
  length (List.filter is_greedy parts).

(** The router [Router()] returns. *)
Definition new_router : Router.t :=
  Router.mk (<["DELETE" := []]> (<["GET" := []]>
               (<["POST" := []]> (<["PUT" := []]> ∅))))
            [] default_limiter.

(** The routers a program can hold: a new one, and what [registerRoutes]
    and the rate limiter make of it. *)
Inductive reachable : Router.t → Prop :=
| reach_init : reachable new_router
| reach_register (r r' : Router.t) (new_routes : list Route)
                 (o : Outcome unit) :
    reachable r →
    Router.registerRoutes new_routes r = Some (r', o) →
    reachable r'
| reach_limiter (r : Router.t) (l : RateLimiter.t) :
    reachable r → reachable (Router.with_limiter r l).

Definition supported_methods : list string := ["GET"; "PUT"; "POST"; "DELETE"].

(** A handler that returns nothing. *)
Definition silent_handler : Request → Outcome PyVal :=
  λ _, Return (VObject PyNone).

(** The two routes of the precedence example, in registration order. *)
Definition user_by_id (h : Request → Outcome PyVal) : Route :=
  mkRoute "user.get_user" "GET" "/user/:id" h None ∅.

Definition user_admin (h : Request → Outcome PyVal) : Route :=
  mkRoute "user.get_admin" "GET" "/user/admin" h None ∅.

(** A route that serves files below [/files]. *)
Definition files_route (h : Request → Outcome PyVal) : Route :=
  mkRoute "files.get_file" "GET" "/files/:rest*" h None ∅.

(** The matcher [patternToRegex] compiles for [pattern]. *)
Definition matcher_of (pattern : string) : re.Pattern :=
  match Router.patternToRegex pattern with
  | Some (Return (p, _)) => p
  | _ => re.mkpat re.Eps 0
  end.

(** A new router after [registerRoutes(new_routes)]. *)
Definition router_with (new_routes : list Route) : Router.t :=
  match Router.registerRoutes new_routes new_router with
  | Some (r, _) => r
  | None => new_router
  end.

(** The router of the precedence example. *)
Definition user_router : Router.t :=
  router_with [user_by_id silent_handler; user_admin silent_handler].

(** [int(b)] for a byte string: optional surrounding ASCII white space, an
    optional sign, then decimal digits that single underscores may
    separate. *)
Module python_int.

Definition is_space (c : ascii) : bool :=
  let n := nat_of_ascii c in
  (Nat.eqb n 32 || (Nat.leb 9 n && Nat.leb n 13))%bool.

Definition digit (c : ascii) : option Z :=
  let n := nat_of_ascii c in
  if (Nat.leb 48 n && Nat.leb n 57)%bool then Some (Z.of_nat (n - 48))
  else None.

Fixpoint lstrip (cs : list ascii) : list ascii :=
  match cs with
  | c :: cs' => if is_space c then lstrip cs' else cs
  | [] => []
  end.

Definition strip (cs : list ascii) : list ascii :=
  rev (lstrip (rev (lstrip cs))).

(** [after_digit]: the character before was a digit, so an underscore may
    follow; the text may only end after a digit. *)
Fixpoint digits (acc : Z) (after_digit : bool) (cs : list ascii) : option Z :=
  match cs with
  | [] => if after_digit then Some acc else None
  | c :: cs' =>
      match digit c with
      | Some d => digits (10 * acc + d) true cs'
      | None =>
          if (Ascii.eqb c "_" && after_digit)%bool then digits acc false cs'
          else None
      end
  end.

Definition parse (b : string) : option Z :=
  match strip (chars b) with
  | c :: cs =>
      if Ascii.eqb c "-" then Z.opp <$> digits 0 false cs
      else if Ascii.eqb c "+" then digits 0 false cs
      else digits 0 false (c :: cs)
  | [] => None
  end.

End python_int.

(** A stand-in for the compressor in the examples, none of which sets
    [compress]. *)
Definition stored : string → string := λ b, b.

(** The text of the JSON body [{"error": message}], newline included. *)
Definition error_text (message : string) : string :=
  ("{" +:+ (json.quote "error" +:+ ": " +:+ json.quote message) +:+ "}")
  +:+ String re.newline "".

(** What [dispatch] returns for one of its own error responses: the
    response with its two headers set, and the bytes of the body. *)
Definition rendered_error (message : string) (code : Z) : Response * PyObj :=
  (mkResponse ClsJsonResponse code
              (<["Content-Length" :=
                   str_of_nat (String.length (error_text message))]>
                 (<["Content-Type" := "application/json"]> ∅))
              (error_body message) false,
   PyBytes (error_text message)).

(** A route for uploads of at most ten bytes. *)
Definition upload_route (h : Request → Outcome PyVal) : Route :=
  mkRoute "upload.put_file" "PUT" "/upload" h (Some (1, "second"))
          {["max_content_length" := 10]}.

(** A PUT request for [/upload] from [10.0.0.1] with the given headers, as
    the transport builds it. *)
Definition upload_request (hdrs : gmap string (list string)) : Request :=
  mkRequest ("10.0.0.1", 54321) "PUT" "/upload" ∅ "" (CaseInsensitiveDict hdrs)
            "" ∅.

(** A limiter that allows no request at all. *)
Definition strict_limiter : RateLimiter.t :=
  RateLimiter.mk (CacheDict.mk 128 [("capacity", RateLimiter.SInt 1024)])
                 (CacheDict.mk 128 [("capacity", RateLimiter.SInt 1024)])
                 0 60000.

(** A router whose only route is the upload route. *)
Definition upload_router : Router.t := router_with [upload_route silent_handler].

(** A response with status 200 and the body [ok]. *)
Definition ok_response : Response :=
  new_response ClsResponse (PyStr "ok") 200 None false.

(** A handler that answers with [ok_response]. *)
Definition ok_handler : Request → Outcome PyVal :=
  λ _, Return (VResponse ok_response).

(** A router whose only route is the upload route, with [ok_handler]. *)
Definition ok_upload_router : Router.t :=
  router_with [upload_route ok_handler].

(** An upload route that declares the maximum -1. *)
Definition negative_route (h : Request → Outcome PyVal) : Route :=
  mkRoute "upload.put_file" "PUT" "/upload" h (Some (1, "second"))
          {["max_content_length" := -1]}.

Definition negative_router : Router.t :=
  router_with [negative_route ok_handler].

(** A handler that fails with an ordinary exception. *)
Definition failing_handler : Request → Outcome PyVal :=
  λ _, Raise (UserError "RuntimeError").

(** A handler that calls [sys.exit()]. *)
Definition exiting_handler : Request → Outcome PyVal :=
  λ _, Raise (BaseExit "SystemExit").

(** A router with one GET route, [/job], bound to handler [h]. *)
Definition job_router (h : Request → Outcome PyVal) : Router.t :=
  router_with [mkRoute "job.get_job" "GET" "/job" h None ∅].

Definition job_request : Request :=
  mkRequest ("10.0.0.1", 54321) "GET" "/job" ∅ "" (CaseInsensitiveDict ∅) "" ∅.

(** Characters with a meaning of their own in a regular expression. *)
Definition re_meta (c : ascii) : bool := re.member (chars "\()[|?*+{.^$") c.

(** A literal segment that the regular expression takes letter by
    letter. *)
Definition plain_literal (part : string) : bool :=
  forallb (λ c, negb (re_meta c)) (chars part).

(** A pattern all of whose literal segments are plain. *)
Definition plain_pattern (pattern : string) : bool :=
  forallb (λ part, Router.is_token part || plain_literal part)
          (Router.parts_of pattern).

(** A regular expression without [$]. *)
Fixpoint eol_free (r : re.regex) : bool :=
  match r with
  | re.Eol => false
  | re.Eps | re.Chr _ | re.AnyChar | re.NotIn _ | re.OneOf _ | re.Bol => true
  | re.Seq r1 r2 | re.Alt r1 r2 => eol_free r1 && eol_free r2
  | re.Opt r' | re.Star r' | re.Plus r' | re.Group _ r' => eol_free r'
  end.

(** The syntax trees of the four kinds of token, for group number [g]. *)
Definition item_optional (g : nat) : re.regex :=
  re.Opt (re.Group None
    (re.Alt (re.seq_of [re.Chr "/";
                        re.Group (Some g)
                                 (re.seq_of [re.Star (re.NotIn ["/"%char])])])
            (re.seq_of [re.Chr "/"]))).

Definition item_star (g : nat) : re.regex :=
  re.Opt (re.Group None
    (re.Alt (re.seq_of [re.Chr "/";
                        re.Group (Some g) (re.seq_of [re.Star re.AnyChar])])
            (re.seq_of [re.Chr "/"]))).

Definition item_plus (g : nat) : re.regex :=
  re.Group (Some g) (re.seq_of [re.Plus re.AnyChar]).

Definition item_plain (g : nat) : re.regex :=
  re.Group (Some g) (re.seq_of [re.Plus (re.NotIn ["/"%char])]).

(** The state of the matcher when [x] is appended to the text. *)
Definition extend (x : list ascii) (st : re.mstate) : re.mstate :=
  re.mkm (re.m_pos st) (re.m_rest st ++ x) (re.m_caps st).

(** A matcher that still succeeds when text is appended, provided the
    rest of the pattern does. *)
Definition extends_ok (x : list ascii)
           (m : re.mstate → re.cont → option re.captures) : Prop :=
  ∀ (st : re.mstate) (k k' : re.cont) (c : re.captures),
    m st k = Some c →
    (∀ st' c0, re.m_rest st' `suffix_of` re.m_rest st →
               k st' = Some c0 → ∃ c', k' (extend x st') = Some c') →
    ∃ c', m (extend x st) k' = Some c'.

(** The path [/a] followed by a newline. *)
Definition path_with_newline : string := "/a" +:+ String re.newline "".

(** The keys of a cache, the oldest first. *)
Definition cache_keys {V : Type} (d : CacheDict.t V) : list string :=
  (CacheDict.items d).*1.

(** A cache in good order: no key twice, and no more entries than
    [cache_len]. *)
Definition cache_ok {V : Type} (d : CacheDict.t V) : Prop :=
  NoDup (cache_keys d)
  ∧ Z.of_nat (length (CacheDict.items d)) ≤ CacheDict.cache_len d.

(** A cache for two entries that holds [A], then [B]. *)
Definition two_entries : CacheDict.t Z :=
  CacheDict.mk 2 [("A", 1); ("B", 2)].

(** A counter with bins of 15000 ms, in bin 1, holding the counts 2 and
    3. *)
Definition counter_in_bin_1 : RollingCounter.t :=
  RollingCounter.mk 15000 1 4 [2; 3] 5.

(** The counter [RollingCounter(60000, bins=4)] creates. *)
Definition new_counter : RollingCounter.t := RollingCounter.mk 15000 0 4 [] 0.

(** The name a token segment binds: the segment without its colon and
    without its [?], [*] or [+]. *)
Definition token_name (part : string) : string :=
  match Router.suffix_of part with
  | Some _ => drop_last (drop_first part)
  | None => drop_first part
  end.

(** The names of the tokens among the segments, in order. *)
Definition token_names (parts : list string) : list string :=
  token_name <$> List.filter Router.is_token parts.

(** The routes among [new_routes] registered under [method]. *)
Definition routes_for (method : string) (new_routes : list Route)
  : list Route :=
  List.filter (λ route, String.eqb (route_method route) method) new_routes.

(** The items of the syntax tree that the segments of a pattern stand
    for, when [g] groups have been opened before them. *)
Fixpoint pattern_items (g : nat) (parts : list string) : list re.regex :=
  match parts with
  | [] => []
  | part :: parts' =>
      if Router.is_token part then
        match last_char part with
        | None => []
        | Some c =>
            if Ascii.eqb c "?" then
              item_optional (S g) :: pattern_items (S g) parts'
            else if Ascii.eqb c "*" then
              item_star (S g) :: pattern_items (S g) parts'
            else if Ascii.eqb c "+" then
              re.Opt (re.Chr "/") :: item_plus (S g)
                :: pattern_items (S g) parts'
            else
              re.Chr "/" :: item_plain (S g) :: pattern_items (S g) parts'
        end
      else
        (re.Chr "/" :: (re.Chr <$> chars part)) ++ pattern_items g parts'
  end.

(** A new router with the route [/user/:id] alone. *)
Definition id_router : Router.t := router_with [user_by_id silent_handler].

(** A route whose pattern has two optional tokens. *)
Definition twice_optional (h : Request → Outcome PyVal) : Route :=
  mkRoute "user.get_both" "GET" "/user/:a?/:b?" h None ∅.

(** A request with method [HEAD] for [/user/7]. *)
Definition head_request : Request :=
  mkRequest ("10.0.0.1", 54321) "HEAD" "/user/7" ∅ "" (CaseInsensitiveDict ∅)
            "" ∅.

(** A handler that answers with a [JsonResponse] built from a text. *)
Definition text_handler : Request → Outcome PyVal :=
  λ _, Return (VResponse (JsonResponse (PyStr "ok") 200)).

(** A GET request for [/user/7]. *)
Definition user_request : Request :=
  mkRequest ("10.0.0.1", 54321) "GET" "/user/7" ∅ "" (CaseInsensitiveDict ∅)
            "" ∅.

(** A plain response whose payload is to be compressed. *)
Definition compressed_response : Response :=
  new_response ClsResponse (PyStr "hello") 200 None true.

(** A new router whose route [/user/:id] answers with [text_handler]. *)
Definition text_router : Router.t := router_with [user_by_id text_handler].

(** A segment without surprises: a token without [?], [*] or [+], or a
    literal that the regular expression takes letter by letter. *)
Definition simple_part (part : string) : bool :=
  if Router.is_token part then negb (is_greedy part) else plain_literal part.


(** The path that has, for each segment, a slash and then the segment
    itself, or the next of the values when the segment is a token. *)
Fixpoint fill (parts : list string) (values : list string) : string :=
  match parts with
  | [] => ""
  | part :: parts' =>
      if Router.is_token part then
        match values with
        | v :: values' => "/" +:+ v +:+ fill parts' values'
        | [] => "/" +:+ fill parts' []
        end
      else "/" +:+ part +:+ fill parts' values
  end.

(** A value that fits in one segment of a path: not empty, no slash. *)
Definition segment_value (v : string) : Prop := v ≠ "" ∧ "/"%char ∉ chars v.

(** The text ahead ends a segment: nothing, or a slash first. *)
Definition seg_end (tail : list ascii) : Prop :=
  tail = [] ∨ ∃ t, tail = "/"%char :: t.

(** The captures after the groups [g+1], [g+2], ... have taken the
    values, one after the other. *)
Fixpoint add_caps (g : nat) (values : list string) (caps : re.captures)
  : re.captures :=
  match values with
  | [] => caps
  | v :: values' => add_caps (S g) values' ((S g, chars v) :: caps)
  end.

(** A component of a root directory: not empty, not [.] or [..], and
    without a slash or a backslash in it. *)
Definition clean_component (c : string) : Prop :=
  c ≠ "" ∧ c ≠ "." ∧ c ≠ ".."
  ∧ ("/"%char ∉ chars c) ∧ ("\"%char ∉ chars c).

(** The absolute path with the given components. *)
Definition rooted (comps : list string) : string :=
  "/" +:+ str_join "/" comps.

(** The components of a filename that count: those between slashes or
    backslashes that are not empty. *)
Definition named_components (filename : string) : list string :=
  List.filter (λ c, negb (String.eqb c ""))
              (split "/" (replace "\" "/" filename)).

(** The loop of [RequestFactory.process] that fills the header map:
    a new [CaseInsensitiveDict], then [headers[key] = value] for each raw
    header in turn.  [CaseInsensitiveDict.__setitem__] stores under
    [key.upper()]. *)
Definition transport_headers (raw : list (string * list string)) : Headers :=
  CaseInsensitiveDict
    (fold_left (λ m kv, <[upper kv.1 := kv.2]> m) raw ∅).

(** The route with its [ratelimit] attribute set to [rl]. *)
Definition with_ratelimit (rl : option (Z * string)) (route : Route) : Route :=
  mkRoute (name route) (route_method route) (pattern route) (callback route)
          rl (options route).

(** The router whose routes have their [ratelimit] attributes replaced,
    each by what [f] says for it. *)
Definition relimit (f : Route → option (Z * string)) (r : Router.t)
  : Router.t :=
  Router.mk
    ((λ rows : list Router.entry,
        (λ row : Router.entry, (row.1, with_ratelimit (f row.2) row.2))
          <$> rows) <$> Router.route_table r)
    ((λ route, with_ratelimit (f route) route) <$> Router.routes r)
    (Router.limiter r).
(* ===================================================================== *)
(** * Decorators, [OrderedPropertyMap] and [Resource]                      *)
(* ===================================================================== *)

(** A function object with the attributes the decorators set on it;
    [None] stands for an attribute that is not there. *)
Record Func : Type := mkFunc {
  __name__ : string;
  __call__ : Request → Outcome PyVal;
  _route : option string;
  _methods : option (list string);
  _options : option (gmap string Z);
  _ratelimit : option (Z * string);
  _header : option (list string);
  _param : option (list string)
}.

(** [def f(self, request): ...] before any decorator. *)
Definition bare (fn_name : string) (body : Request → Outcome PyVal) : Func :=
  mkFunc fn_name body None None None None None None.

(** The decorators of the module. *)
Module decorator.

(** [get(path)(f)]. *)
Definition get (path : string) (f : Func) : Func :=
  mkFunc (__name__ f) (__call__ f) (Some path) (Some ["GET"])
         (_options f) (_ratelimit f) (_header f) (_param f).

Definition default_max_content_length : Z := 5 * 1024 * 1024.

(** [put(path, max_content_length)(f)]. *)
Definition put (path : string) (max_content_length : Z) (f : Func) : Func :=
  mkFunc (__name__ f) (__call__ f) (Some path) (Some ["PUT"])
         (Some {["max_content_length" := max_content_length]})
         (_ratelimit f) (_header f) (_param f).

(** [post(path, max_content_length)(f)]. *)
Definition post (path : string) (max_content_length : Z) (f : Func) : Func :=
  mkFunc (__name__ f) (__call__ f) (Some path) (Some ["POST"])
         (Some {["max_content_length" := max_content_length]})
         (_ratelimit f) (_header f) (_param f).

(** [delete(path)(f)]. *)
Definition delete (path : string) (f : Func) : Func :=
  mkFunc (__name__ f) (__call__ f) (Some path) (Some ["DELETE"])
         (_options f) (_ratelimit f) (_header f) (_param f).

(** [header(h)(f)]. *)
Definition header (h : string) (f : Func) : Func :=
  mkFunc (__name__ f) (__call__ f) (_route f) (_methods f) (_options f)
         (_ratelimit f)
         (Some (match _header f with Some l => l | None => [] end ++ [h])%list)
         (_param f).

(** [param(p)(f)]. *)
Definition param (p : string) (f : Func) : Func :=
  mkFunc (__name__ f) (__call__ f) (_route f) (_methods f) (_options f)
         (_ratelimit f) (_header f)
         (Some (match _param f with Some l => l | None => [] end ++ [p])%list).

Definition rate_units : list string := ["second"; "minute"; "hour"; "day"].

Section WithInt.

(** [int(s)] on a text: [None] when it raises [ValueError]. *)
Variable int_of_str : string → option Z.

(** [ratelimit(rate)]: the decorator, or the exception.  The text of
    the [ValueError] that [int] raises is given for a [count_text] that
    [repr] shows as it is. *)
Definition ratelimit (rate : string) : Outcome (Func → Func) :=
  match split "/" rate with
  | [count_text; unit] =>
      if bool_decide (unit ∈ rate_units) then
        match int_of_str count_text with
        | None => Raise (ValueError
                           ("invalid literal for int() with base 10: '"
                            +:+ count_text +:+ "'"))
        | Some count =>
            Return (λ f, mkFunc (__name__ f) (__call__ f) (_route f)
                                (_methods f) (_options f)
                                (Some (count, unit)) (_header f) (_param f))
        end
      else Raise (ValueError rate)
  | _ => Raise (ValueError rate)
  end.

End WithInt.

End decorator.

(** [OrderedPropertyMap]: a [dict] that records its keys in the order in
    which they were first set. *)
Module OrderedPropertyMap.
Section WithValue.
Context {V : Type}.

Record t : Type := mk { member_names : list string; dict : gmap string V }.

Definition __init__ : t := mk [] ∅.

Definition __setitem__ (key : string) (value : V) (self : t) : t :=
  mk (match dict self !! key with
      | None => member_names self ++ [key]
      | Some _ => member_names self
      end)
     (<[key := value]> (dict self)).

End WithValue.
Arguments t : clear implicits.
End OrderedPropertyMap.

(** What a name of a class body is bound to: a function object, or
    something that has no [_route] attribute. *)
Inductive Member : Type :=
| MFunc (f : Func)
| MOther.

(** The name space after a class body has run: each binding of the body
    is one [__setitem__] on the map that [OrderedClass.__prepare__] has
    returned. *)
Definition class_body {V : Type} (bindings : list (string * V))
  : OrderedPropertyMap.t V :=
  fold_left (λ ns kv, OrderedPropertyMap.__setitem__ kv.1 kv.2 ns)
            bindings OrderedPropertyMap.__init__.

Module Resource.

(** The [for name in self.member_names] loop of [Resource.__init__].
    [cls_name] is the class name without [Resource], in lower case;
    [getattr name] is [getattr(self, name)]. *)
Fixpoint collect (cls_name : string) (getattr : string → Outcome Member)
         (names : list string) (_routes : list Route)
  : Outcome (list Route) :=
  match names with
  | [] => Return _routes
  | name :: names' =>
      if startswith "_" name then collect cls_name getattr names' _routes
      else
        match getattr name with
        | Raise e => Raise e
        | Return MOther => collect cls_name getattr names' _routes
        | Return (MFunc func) =>
            match _route func with
            | None => collect cls_name getattr names' _routes
            | Some path =>
                match _methods func with
                | None => Raise (AttributeError "_methods")
                | Some [] => Raise IndexError
                | Some (method :: _) =>
                    let endpt :=
                      mkRoute (cls_name +:+ "." +:+ __name__ func) method path
                              (__call__ func)
                              (Some (match _ratelimit func with
                                     | Some rl => rl
                                     | None => (1, "second")
                                     end))
                              (match _options func with
                               | Some o => o
                               | None => ∅
                               end) in
                    collect cls_name getattr names' (_routes ++ [endpt])
                end
            end
        end
  end.

(** [getattr(self, name)] for an instance of a class whose attributes are
    those of its own body. *)
Definition own_attribute (ns : OrderedPropertyMap.t Member) (name : string)
  : Outcome Member :=
  match OrderedPropertyMap.dict ns !! name with
  | Some m => Return m
  | None => Raise (AttributeError name)
  end.

(** [Resource.__init__] for a class with the given name space: the list
    [_routes] it builds. *)
Definition __init__ (cls_name : string) (ns : OrderedPropertyMap.t Member)
  : Outcome (list Route) :=
  collect cls_name (own_attribute ns) (OrderedPropertyMap.member_names ns) [].

End Resource.

(** The names of a sequence of bindings, each once, in the order in which
    they are first bound. *)
Definition first_definitions (names : list string) : list string :=
  reverse (remove_dups (reverse names)).

(** The function objects that the decorators of the module make of a
    function. *)
Inductive built : Func → Prop :=
| built_bare (fn_name : string) (body : Request → Outcome PyVal) :
    built (bare fn_name body)
| built_get (path : string) (f : Func) : built f → built (decorator.get path f)
| built_put (path : string) (n : Z) (f : Func) : built f → built (decorator.put path n f)
| built_post (path : string) (n : Z) (f : Func) :
    built f → built (decorator.post path n f)
| built_delete (path : string) (f : Func) : built f → built (decorator.delete path f)
| built_header (h : string) (f : Func) : built f → built (decorator.header h f)
| built_param (p : string) (f : Func) : built f → built (decorator.param p f)
| built_ratelimit (int_of_str : string → option Z) (rate : string)
                  (d : Func → Func) (f : Func) :
    decorator.ratelimit int_of_str rate = Return d →
    built f → built (d f).

(** The members of a class body are functions made by the decorators, or
    objects without a route. *)
Definition handlers_built (bindings : list (string * Member)) : Prop :=
  Forall (λ kv : string * Member,
            match kv.2 with MFunc f => built f | MOther => True end)
         bindings.

(** The body of a resource class for users: two handlers, and a
    decorated function whose name starts with an underscore. *)
Definition user_resource_body : list (string * Member) :=
  [("__module__", MOther);
   ("get_user", MFunc (decorator.get "/user/:id" (bare "get_user" silent_handler)));
   ("put_file",
    MFunc (decorator.put "/upload" decorator.default_max_content_length
               (bare "put_file" silent_handler)));
   ("_hidden", MFunc (decorator.get "/hidden" (bare "_hidden" silent_handler)))].

(** A token that takes the rest of the path: it starts with a colon and
    ends in [*]. *)
Definition star_token (part : string) : bool :=
  (Router.is_token part
   && match last_char part with
      | Some c => Ascii.eqb c "*"
      | None => false
      end)%bool.

(** The path [/files/a] followed by a newline, and by a newline and
    [b]. *)
Definition files_a_newline : string := "/files/a" +:+ String re.newline "".
Definition files_a_newline_b : string :=
  "/files/a" +:+ String re.newline "b".

(* ===================================================================== *)
(** * Properties                                                          *)
(* ===================================================================== *)

(** ** Safe path join *)

(** C3 (the code departs from the claim).  A filename that starts with a
    slash has no component equal to [.] or [..], so it passes the check;
    [os.path.join] then drops the root altogether.  Whatever the working
    directory, joining root [/srv/www] with filename [/etc/passwd] returns
    [/etc/passwd], which does not have the root as a prefix. *)
Theorem path_join_safe_absolute_filename_leaves_root (cwd : string) :
  path_join_safe cwd "/srv/www" "/etc/passwd" = Return "/etc/passwd"
  ∧ startswith "/srv/www" "/etc/passwd" = false.
Proof. split; reflexivity. Qed.

Lemma split_cons (sep : ascii) (s : string) :
  ∃ w ws, split sep s = w :: ws.
Proof.
  induction s as [|a s (w & ws & IH)]; simpl; [by eexists _, _|].
  destruct (Ascii.eqb a sep); [by eexists _, _|]. rewrite IH. by eexists _, _.
Qed.

Lemma replace_fixed_cons (a : ascii) (w : string) :
  replace "\" "/" (String a w) = String a w →
  a ≠ "\"%char ∧ replace "\" "/" w = w.
Proof.
  simpl. destruct (Ascii.eqb_spec a "\") as [->|Hne]; intros [= H]; done.
Qed.

(** Replacing backslashes by slashes keeps every component that has no
    backslash: the first one stays first, the others stay behind it. *)
Lemma split_replace_keeps (f c : string) :
  replace "\" "/" c = c →
  (head (split "/" f) = Some c →
   head (split "/" (replace "\" "/" f)) = Some c)
  ∧ (c ∈ tail (split "/" f) → c ∈ tail (split "/" (replace "\" "/" f))).
Proof.
  revert c. induction f as [|a f IH]; intros c Hc; [done|].
  destruct (split_cons "/" f) as (w & ws & Hf).
  destruct (split_cons "/" (replace "\" "/" f)) as (w' & ws' & Hf').
  simpl. rewrite Hf. rewrite Hf' in IH. rewrite Hf in IH. simpl in IH.
  destruct (Ascii.eqb_spec a "/") as [->|Hslash].
  - simpl. rewrite Hf'. split; [done|].
    intros [Heq|Hin]%elem_of_cons.
    + subst w. destruct (IH c Hc) as [IHh _].
      injection (IHh eq_refl) as ->. left.
    + right. by apply IH.
  - destruct (Ascii.eqb_spec a "\") as [->|Hback].
    + simpl. rewrite Hf'. split.
      * intros [= <-]. by destruct (replace_fixed_cons _ _ Hc).
      * intros Hin. right. by apply IH.
    + rewrite <- Ascii.eqb_neq in Hslash. rewrite Hslash, Hf'. simpl. split.
      * intros [= <-]. destruct (replace_fixed_cons _ _ Hc) as [_ Hw].
        destruct (IH w Hw) as [IHh _]. by injection (IHh eq_refl) as ->.
      * by apply IH.
Qed.

Lemma split_replace_elem (f c : string) :
  replace "\" "/" c = c →
  c ∈ split "/" f → c ∈ split "/" (replace "\" "/" f).
Proof.
  intros Hc Hin. destruct (split_replace_keeps f c Hc) as [Hh Ht].
  destruct (split_cons "/" f) as (w & ws & Hf).
  destruct (split_cons "/" (replace "\" "/" f)) as (w' & ws' & Hf').
  rewrite Hf in *. rewrite Hf' in *. simpl in *.
  apply elem_of_cons in Hin as [->|Hin].
  - injection (Hh eq_refl) as ->. left.
  - right. by apply Ht.
Qed.

(** The first half of C3 holds: a filename with a component [.] or [..]
    between slashes is refused, whatever the root and the directory. *)
Lemma path_join_safe_rejects_dots (cwd root filename : string) :
  "." ∈ split "/" filename ∨ ".." ∈ split "/" filename →
  path_join_safe cwd root filename = Raise (ValueError "invalid path").
Proof.
  intros Hdots. unfold path_join_safe.
  rewrite bool_decide_eq_true_2; [done|].
  rewrite !elem_of_list_to_set.
  destruct Hdots as [H|H]; [right | left];
    by apply split_replace_elem.
Qed.

(** A filename that starts with a slash or a backslash and is not refused
    is returned normalised, whatever the root is. *)
Lemma path_join_safe_ignores_root (cwd root root' filename : string) :
  startswith "/" (replace "\" "/" filename) = true →
  path_join_safe cwd root filename = path_join_safe cwd root' filename.
Proof.
  intros Habs. unfold path_join_safe, posixpath.join. by rewrite Habs.
Qed.

(** ** Rolling counter and rate limiter *)

(** Once the clock is more than four bins past the stored index, the
    counter starts afresh at every call: the stored index is only written
    in the other branch, so it never catches up with the clock. *)
Lemma increment_restarts (ms : Z) (rc : RollingCounter.t) :
  RollingCounter.interval_ms rc = 15000 →
  RollingCounter._current_index rc = 0 →
  RollingCounter._bins rc = 4 →
  75000 ≤ ms →
  RollingCounter.increment ms rc
  = (RollingCounter.mk 15000 0 4 [1] 1, Return 1).
Proof.
  intros Hi Hc Hb Hms. unfold RollingCounter.increment, RollingCounter.roll.
  rewrite Hi, Hc, Hb. simpl (15000 =? 0).
  assert (Hdiv : 5 ≤ ms / 15000).
  { apply Z.div_le_lower_bound; lia. }
  destruct (Z.eqb_spec (ms / 15000) 0) as [E|_]; [lia|].
  simpl negb.
  destruct (Z.gtb_spec (ms / 15000 - 0) 4) as [_|E]; [|lia].
  unfold RollingCounter.with_counts, RollingCounter.with_count. simpl.
  by rewrite Hi, Hc, Hb.
Qed.

(** C1 (the code departs from the claim).  With limit 5 and a window of
    60000 ms, six calls of [insert] for the fresh key [A], one millisecond
    apart at a present-day clock reading, all return "not blocked": the
    count the sixth call compares with the limit is 1, not 6. *)
Theorem sixth_insert_is_not_blocked :
  (insert_each "A" [now; now + 1; now + 2; now + 3; now + 4; now + 5]
               limiter_5_per_minute).2
  = [Return false; Return false; Return false;
     Return false; Return false; Return false]
  ∧ RateLimiter.__init__ 5 60000 2 = Return limiter_5_per_minute
  ∧ CacheDict.__contains__ "A" (RateLimiter.counter limiter_5_per_minute)
    = false.
Proof. split_and!; vm_compute; reflexivity. Qed.

(** The same six calls in the second bin after the epoch (clock readings
    20000..20005 ms) do count up, and the sixth one is blocked. *)
Lemma sixth_insert_blocked_in_1970 :
  (insert_each "A" [20000; 20001; 20002; 20003; 20004; 20005]
               limiter_5_per_minute).2
  = [Return false; Return false; Return false;
     Return false; Return false; Return true].
Proof. vm_compute. reflexivity. Qed.

(** The configuration of a new router's limiter. *)
Lemma router_default_limiter :
  ∃ r, Router.__init__ = Return r
       ∧ Router.limiter r = default_limiter
       ∧ Router.routes r = []
       ∧ RateLimiter.limit (Router.limiter r) = 5
       ∧ RateLimiter.interval_ms (Router.limiter r) = 60000.
Proof. eexists. split_and!; reflexivity. Qed.

(** C4 (the code departs from the claim).  The limit (5), the window
    (60000 ms) and the four bins (of 15000 ms each) are as claimed, but the
    key cache is bounded by 128, not 1024: [capacity=1024] is not a keyword
    of [CacheDict], so it is stored as an entry named [capacity] and
    [cache_len] keeps its default.  After requests from 129 distinct
    addresses the cache holds 128 keys and the first address is gone. *)
Theorem default_key_cache_holds_128 :
  Router.__init__ = Return new_router
  ∧ Router.limiter new_router = default_limiter
  ∧ CacheDict.cache_len (RateLimiter.counter default_limiter) = 128
  ∧ RateLimiter.limit default_limiter = 5
  ∧ RateLimiter.interval_ms default_limiter = 60000
  ∧ RateLimiter.tracked default_limiter = ["capacity"]
  ∧ length (RateLimiter.tracked after_129_clients) = 128%nat
  ∧ CacheDict.__contains__ (client 1)
                           (RateLimiter.counter after_129_clients) = false
  ∧ CacheDict.__contains__ (client 2)
                           (RateLimiter.counter after_129_clients) = true
  ∧ CacheDict.od_getitem (client 129)
      (CacheDict.items (RateLimiter.counter after_129_clients))
    = Some (RateLimiter.SCounter (RollingCounter.mk 15000 0 4 [1] 1)).
Proof. split_and!; vm_compute; reflexivity. Qed.

(** One step of symbolic evaluation of the cache operations. *)
Ltac cache_step Hk :=
  first
    [ rewrite Hk
    | rewrite String.eqb_refl
    | match goal with
      | |- context [Z.of_nat ?n >? ?m] =>
          let v := eval vm_compute in (Z.of_nat n >? m) in
          change (Z.of_nat n >? m) with v
      end
    | progress unfold CacheDict.__setitem__, CacheDict.od_setitem,
        CacheDict.od_move_to_end, CacheDict.od_getitem,
        CacheDict.__getitem__, CacheDict.mutate, CacheDict.__contains__
    | progress cbn -[RollingCounter.increment String.eqb Z.div Z.of_nat Z.gtb] ].

(** The first request of a key that the cache does not hold. *)
Lemma insert_fresh_key_now (k : string) (ms : Z) :
  CacheDict.__contains__ k (RateLimiter.counter limiter_5_per_minute) = false →
  75000 ≤ ms →
  RateLimiter.insert k ms limiter_5_per_minute
  = (limiter_with k restarted, Return false).
Proof.
  intros Hk Hms. unfold RateLimiter.insert. rewrite Hk.
  cbn in Hk. rewrite orb_false_r in Hk.
  cbn -[RollingCounter.increment String.eqb Z.div].
  unfold CacheDict.__setitem__, CacheDict.od_setitem, CacheDict.od_move_to_end,
    CacheDict.od_getitem, CacheDict.__getitem__, CacheDict.mutate.
  cbn -[RollingCounter.increment String.eqb Z.div].
  repeat cache_step Hk.
  change (60000 `div` 4) with 15000.
  rewrite increment_restarts by (reflexivity || exact Hms).
  repeat cache_step Hk.
  reflexivity.
Qed.

(** Every later request of that key: the state does not move. *)
Lemma insert_known_key_now (k : string) (ms : Z) :
  (k =? "capacity")%string = false →
  75000 ≤ ms →
  RateLimiter.insert k ms (limiter_with k restarted)
  = (limiter_with k restarted, Return false).
Proof.
  intros Hk Hms. unfold RateLimiter.insert, CacheDict.__contains__.
  unfold CacheDict.__setitem__, CacheDict.od_setitem, CacheDict.od_move_to_end,
    CacheDict.od_getitem, CacheDict.__getitem__, CacheDict.mutate.
  repeat cache_step Hk.
  rewrite increment_restarts by (reflexivity || exact Hms).
  repeat cache_step Hk.
  reflexivity.
Qed.

(** At present-day clock readings the limiter of the testable property
    never blocks a key, however many requests it makes. *)
Lemma insert_never_blocks (k : string) (clock : list Z) :
  CacheDict.__contains__ k (RateLimiter.counter limiter_5_per_minute) = false →
  Forall (λ ms, 75000 ≤ ms) clock →
  Forall (λ r, r = Return false)
         (insert_each k clock limiter_5_per_minute).2.
Proof.
  intros Hk.
  assert (Hk' : (k =? "capacity")%string = false).
  { cbn in Hk. by rewrite orb_false_r in Hk. }
  assert (Hstuck : ∀ clock, Forall (λ ms, 75000 ≤ ms) clock →
            Forall (λ r, r = Return false)
                   (insert_each k clock (limiter_with k restarted)).2).
  { induction 1 as [|ms clock' Hms _ IH]; simpl; [constructor|].
    rewrite insert_known_key_now by done.
    destruct (insert_each k clock' _) as [l rs]. simpl in *.
    by constructor. }
  intros [|ms clock' Hms Hrest]; simpl; [constructor|].
  rewrite insert_fresh_key_now by done.
  specialize (Hstuck clock' Hrest).
  destruct (insert_each k clock' _) as [l rs]. simpl in *.
  by constructor.
Qed.

(** ** Pattern compiler *)

Lemma parts_of_nonempty (pattern : string) :
  Forall (λ part : string, part ≠ "") (Router.parts_of pattern).
Proof.
  unfold Router.parts_of. apply Forall_forall. intros part Hin.
  apply list_elem_of_In, filter_In in Hin. destruct Hin as [_ Hne].
  intros ->. discriminate Hne.
Qed.

Lemma last_char_nonempty (s : string) : s ≠ "" → ∃ c, last_char s = Some c.
Proof.
  induction s as [|a s IH]; [done|]. intros _.
  destruct s as [|b s]; [by exists a|].
  destruct IH as [c Hc]; [done|]. exists c. exact Hc.
Qed.

(** The loop raises exactly when it meets a second optional or greedy
    token ([final] tells whether one was met before), and then with
    [ValueError(pattern)]. *)
Lemma compile_parts_outcome (pattern : string) (parts : list string) :
  Forall (λ part : string, part ≠ "") parts →
  ∀ (tokens : list string) (re_str : string) (final : bool),
    ((greedy_count parts + (if final then 1 else 0) ≤ 1)%nat →
     ∃ r, Router.compile_parts pattern parts tokens re_str final = Return r)
    ∧ ((1 < greedy_count parts + (if final then 1 else 0))%nat →
       Router.compile_parts pattern parts tokens re_str final
       = Raise (ValueError pattern)).
Proof.
  induction 1 as [|part parts Hne _ IH]; intros tokens re_str final.
  - unfold greedy_count. simpl. split; [eauto | destruct final; lia].
  - simpl Router.compile_parts.
    assert (Hcount : greedy_count (part :: parts)
                     = ((if is_greedy part then 1 else 0)
                        + greedy_count parts)%nat).
    { unfold greedy_count. simpl. by destruct (is_greedy part). }
    rewrite Hcount. clear Hcount. unfold is_greedy, Router.suffix_of.
    destruct (Router.is_token part) eqn:Htok; simpl andb; [|apply IH].
    destruct (last_char_nonempty part Hne) as [c ->].
    destruct (Ascii.eqb c "?") eqn:E1; simpl orb.
    { destruct final; [split; [lia | done]|].
      destruct (IH (tokens ++ [drop_last (drop_first part)])%list
                   (re_str +:+ Router.re_optional) true) as [IH1 IH2].
      split; intros; [apply IH1 | apply IH2]; lia. }
    destruct (Ascii.eqb c "*") eqn:E2; simpl orb.
    { destruct final; [split; [lia | done]|].
      destruct (IH (tokens ++ [drop_last (drop_first part)])%list
                   (re_str +:+ Router.re_star) true) as [IH1 IH2].
      split; intros; [apply IH1 | apply IH2]; lia. }
    destruct (Ascii.eqb c "+") eqn:E3; simpl orb.
    { destruct final; [split; [lia | done]|].
      destruct (IH (tokens ++ [drop_last (drop_first part)])%list
                   (re_str +:+ Router.re_plus) true) as [IH1 IH2].
      split; intros; [apply IH1 | apply IH2]; lia. }
    apply IH.
Qed.

(** The text of the regular expression is built unless the pattern has
    two or more optional or greedy tokens; where such a token stands does
    not matter. *)
Lemma regex_text_raises_iff (pattern : string) :
  (2 ≤ greedy_count (Router.parts_of pattern))%nat
  ↔ Router.regex_text pattern = Raise (ValueError pattern).
Proof.
  unfold Router.regex_text.
  destruct (compile_parts_outcome pattern _ (parts_of_nonempty pattern)
                                  [] "^" false) as [H1 H2].
  destruct (decide (greedy_count (Router.parts_of pattern) ≤ 1)%nat) as [Hc|Hc].
  - destruct H1 as [[re_str tokens] ->]; [lia|]. split; [lia | done].
  - rewrite H2 by lia. split; [done | lia].
Qed.

(** C2 (the code departs from the claim).  An optional token followed by
    a literal, and a greedy token followed by a plain token, both compile
    and match; only a second optional or greedy token is refused.  A
    literal segment is copied into the regular expression as it is, so a
    pattern without any token can fail to compile as well. *)
Theorem misplaced_optional_token_compiles :
  Router.regex_text "/:a?/b" = Return ("^(?:\/([^\/]*)|\/)?\/b\/?$", ["a"])
  ∧ (∃ p, Router.patternToRegex "/:a?/b" = Some (Return (p, ["a"]))
          ∧ re.match_groups p "/x/b" = Some [Some "x"])
  ∧ (∃ p, Router.patternToRegex "/files/:rest*/:id"
          = Some (Return (p, ["rest"; "id"]))
          ∧ re.match_groups p "/files/a/b/7" = Some [Some "a/b"; Some "7"])
  ∧ Router.patternToRegex "/:a?/:b?" = Some (Raise (ValueError "/:a?/:b?"))
  ∧ Router.patternToRegex "/a(" = Some (Raise ReError).
Proof.
  split; [reflexivity|].
  split; [eexists; split; vm_compute; reflexivity|].
  split; [eexists; split; vm_compute; reflexivity|].
  split; vm_compute; reflexivity.
Qed.

(** ** Matching *)

Lemma router_init : Router.__init__ = Return new_router.
Proof. reflexivity. Qed.

Lemma text_chars (s : string) : text (chars s) = s.
Proof. apply string_of_list_ascii_of_string. Qed.

Lemma chars_app (a b : string) : chars (a +:+ b) = (chars a ++ chars b)%list.
Proof. induction a as [|c a IH]; simpl; [done | by f_equal]. Qed.

Lemma star_loop_S (m : re.mstate → re.cont → option re.captures)
      (k : re.cont) (n : nat) (st : re.mstate) :
  re.star_loop m k (S n) st
  = match m st (λ st', if (length (re.m_rest st') <? length (re.m_rest st))%nat
                       then re.star_loop m k n st' else None) with
    | Some caps => Some caps
    | None => k st
    end.
Proof. reflexivity. Qed.

Lemma star_any_to_the_end (m : re.mstate → re.cont → option re.captures)
      (k : re.cont) (caps0 : re.captures) (cs : list ascii) :
  (∀ st k', m st k' = re.eat (λ x, negb (Ascii.eqb x re.newline)) st k') →
  re.newline ∉ cs →
  ∀ (n pos : nat) (caps : re.captures),
    (length cs ≤ n)%nat →
    k (re.mkm (pos + length cs) [] caps) = Some caps0 →
    re.star_loop m k n (re.mkm pos cs caps) = Some caps0.
Proof.
  intros Hm. induction cs as [|x xs IH]; intros Hnl n pos caps Hn Hk.
  - rewrite Nat.add_0_r in Hk. destruct n; [done|].
    rewrite star_loop_S, Hm. unfold re.eat. cbn [re.m_rest].
    by rewrite Hk.
  - destruct n as [|n]; [simpl in Hn; lia|].
    rewrite star_loop_S, Hm. unfold re.eat.
    cbn [re.m_rest re.m_pos re.m_caps].
    destruct (Ascii.eqb_spec x re.newline) as [->|_].
    { exfalso. apply Hnl. left. }
    cbn [negb length].
    destruct (Nat.ltb_spec (length xs) (S (length xs))) as [_|?]; [|lia].
    rewrite (IH ltac:(set_solver) n (S pos) caps); [done | simpl in Hn; lia |].
    rewrite <- Hk. f_equal. f_equal. simpl. lia.
Qed.


(** ** Route table *)

(** Only the four methods of a new router ever have a list. *)
Lemma reachable_methods (r : Router.t) :
  reachable r →
  ∀ m : string, is_Some (Router.route_table r !! m) → m ∈ supported_methods.
Proof.
  induction 1 as [|r r' new_routes o _ IH Hreg|r l _ IH]; intros m Hm.
  - unfold new_router in Hm. cbn [Router.route_table] in Hm.
    unfold supported_methods.
    destruct (decide (m = "DELETE")) as [->|?]; [set_solver|].
    destruct (decide (m = "GET")) as [->|?]; [set_solver|].
    destruct (decide (m = "POST")) as [->|?]; [set_solver|].
    destruct (decide (m = "PUT")) as [->|?]; [set_solver|].
    rewrite !lookup_insert_ne, lookup_empty in Hm by done.
    by destruct Hm.
  - revert m Hm. revert r r' o IH Hreg.
    induction new_routes as [|route rest IHr]; intros r r' o IH Hreg m Hm.
    + simpl in Hreg. injection Hreg as <- <-. by apply IH.
    + simpl in Hreg.
      destruct (Router.patternToRegex (pattern route)) as [[[p tokens]|e]|];
        [| injection Hreg as <- <-; by apply IH | done].
      destruct (Router.route_table r !! route_method route) as [rows|] eqn:E;
        [| injection Hreg as <- <-; by apply IH].
      eapply IHr; [| exact Hreg | exact Hm]. cbn [Router.route_table].
      intros m' Hm'. destruct (decide (route_method route = m')) as [Heq|Hne].
      * subst m'. apply IH. by exists rows.
      * rewrite lookup_insert_ne in Hm' by done. by apply IH.
  - by apply IH.
Qed.

(** A route registered on its own becomes the last row of its method. *)
Lemma registerRoutes_appends (r r' : Router.t) (route : Route) :
  Router.registerRoutes [route] r = Some (r', Return tt) →
  ∃ rows p tokens,
    Router.route_table r !! route_method route = Some rows
    ∧ Router.patternToRegex (pattern route) = Some (Return (p, tokens))
    ∧ Router.route_table r' !! route_method route
      = Some (rows ++ [(p, tokens, route)])%list.
Proof.
  simpl.
  destruct (Router.patternToRegex (pattern route)) as [[[p tokens]|e]|];
    [| intros [= _ ?]; done | done].
  destruct (Router.route_table r !! route_method route) as [rows|] eqn:E;
    [| intros [= _ ?]; done].
  intros [= <-]. exists rows, p, tokens. cbn [Router.route_table].
  by rewrite lookup_insert_eq.
Qed.




(** ** Dispatch *)

Section DispatchProperties.

Context (gzip_compress : string → string).
Context (int_of_bytes : string → option Z).

(** The dispatcher's own error responses always render. *)
Lemma render_error (message : string) (code : Z) :
  _get_payload gzip_compress (JsonResponse (error_body message) code)
  = ((rendered_error message code).1, Return (rendered_error message code).2).
Proof. reflexivity. Qed.

(** Replacing the limiter does not change the route lookup. *)
Lemma getRoute_with_limiter (r : Router.t) (l : RateLimiter.t)
      (m p : string) :
  Router.getRoute m p (Router.with_limiter r l) = Router.getRoute m p r.
Proof. reflexivity. Qed.

(** When the limiter lets a request pass, [dispatch] renders what
    [request_response] returns, and raises what it raises. *)
Lemma dispatch_when_allowed (router : Router.t) (request : Request)
      (ms : Z) (l : RateLimiter.t) :
  RateLimiter.insert (client_address request).1 ms (Router.limiter router)
  = (l, Return false) →
  dispatch gzip_compress int_of_bytes request ms router
  = match request_response int_of_bytes router request with
    | Raise e => (Router.with_limiter router l, Raise e)
    | Return response =>
        match _get_payload gzip_compress response with
        | (_, Raise e) => (Router.with_limiter router l, Raise e)
        | (response', Return body) =>
            (Router.with_limiter router l, Return (response', body))
        end
    end.
Proof.
  intros Hpass. unfold dispatch. rewrite Hpass. unfold request_response.
  by rewrite getRoute_with_limiter.
Qed.

(** C5.  For a request matched to a route whose options hold a maximum
    body size that is not negative: without a [Content-Length] header the
    response is the 411 error; with a declared length above the maximum it
    is the 413 error; with a value that [int] rejects or that is negative
    the validation settles on nothing and the handler of the route is
    called with the request, its matches set: what the handler returns or
    raises decides the response, and a response it returns is the response
    of [request_response], which [dispatch] renders.  When the limiter lets
    the request pass, [dispatch] returns the 411 and the 413 response
    rendered. *)
Theorem content_length_validation (router : Router.t) (request : Request)
        (endpt : Route) (captured : gmap string (option string))
        (max_content_length : Z) (ms : Z) (l : RateLimiter.t) :
  Router.getRoute (method request) (path request) router
  = Some (endpt, captured) →
  options endpt !! "max_content_length" = Some max_content_length →
  0 ≤ max_content_length →
  RateLimiter.insert (client_address request).1 ms (Router.limiter router)
  = (l, Return false) →
  (headers_contains "Content-Length" (headers request) = false →
   request_response int_of_bytes router request
   = Return (JsonResponse (error_body "Content-Length not specified") 411)
   ∧ dispatch gzip_compress int_of_bytes request ms router
     = (Router.with_limiter router l,
        Return (rendered_error "Content-Length not specified" 411))
   ∧ status_code (rendered_error "Content-Length not specified" 411).1
     = 411)
  ∧ (∀ value others n,
        headers_get "Content-Length" (headers request)
        = Some (value :: others) →
        int_of_bytes value = Some n →
        max_content_length < n →
        request_response int_of_bytes router request
        = Return (JsonResponse (error_body "Payload too large") 413)
        ∧ dispatch gzip_compress int_of_bytes request ms router
          = (Router.with_limiter router l,
             Return (rendered_error "Payload too large" 413))
        ∧ status_code (rendered_error "Payload too large" 413).1 = 413)
  ∧ (∀ value others,
        headers_get "Content-Length" (headers request)
        = Some (value :: others) →
        int_of_bytes value = None
        ∨ (∃ n, int_of_bytes value = Some n ∧ n < 0) →
        check_content_length int_of_bytes endpt
                             (with_matches request captured) = None
        ∧ request_response int_of_bytes router request
          = match callback endpt (with_matches request captured) with
            | Return (VResponse response) => Return response
            | Return (VObject PyNone) =>
                Return (JsonResponse
                          (error_body "route failed to return a response")
                          500)
            | Return (VObject _) => Raise (TypeError "type(response)")
            | Raise e =>
                if is_Exception e
                then Return (JsonResponse
                               (error_body "route failed to return a response")
                               500)
                else Raise e
            end
        ∧ ∀ response : Response,
            callback endpt (with_matches request captured)
            = Return (VResponse response) →
            request_response int_of_bytes router request = Return response
            ∧ dispatch gzip_compress int_of_bytes request ms router
              = match _get_payload gzip_compress response with
                | (_, Raise e) => (Router.with_limiter router l, Raise e)
                | (response', Return body) =>
                    (Router.with_limiter router l, Return (response', body))
                end).
Proof.
  intros Hroute Hmax Hnonneg Hpass.
  rewrite (dispatch_when_allowed router request ms l Hpass).
  unfold request_response. rewrite Hroute.
  unfold check_content_length. rewrite Hmax. cbn [with_matches headers].
  split_and!.
  - intros Hmissing. rewrite Hmissing. cbn [negb].
    destruct (Z.gtb_spec 0 max_content_length); [lia|].
    cbn [finish_response]. by rewrite render_error.
  - intros value others n Hget Hint Hlarge.
    unfold headers_contains. rewrite Hget, Hint. cbn [negb].
    destruct (Z.ltb_spec n 0); [lia|].
    destruct (Z.gtb_spec n max_content_length); [|lia].
    cbn [finish_response]. by rewrite render_error.
  - intros value others Hget Hbad.
    unfold headers_contains. rewrite Hget. cbn [negb].
    assert (Hzero : match int_of_bytes value with
                    | Some n => if n <? 0 then 0 else n
                    | None => 0
                    end = 0).
    { destruct Hbad as [->|(n & -> & Hneg)]; [done|].
      destruct (Z.ltb_spec n 0); [done | lia]. }
    rewrite Hzero.
    destruct (Z.gtb_spec 0 max_content_length); [lia|].
    unfold run_callback.
    split_and!; [done | |].
    + destruct (callback endpt _) as [[response|o]|e]; [done | | ].
      * by destruct o.
      * by destruct (is_Exception e).
    + intros response Hcall. by rewrite Hcall.
Qed.

(** C6, as the code has it.  When the handler of the matched route is
    invoked: an exception that derives from [Exception] gives the 500
    error response, and so does a handler that returns [None]; a returned
    object that is not a [Response] makes [request_response] raise
    [TypeError]; an exception outside [Exception] ([SystemExit],
    [KeyboardInterrupt]) passes through.  [dispatch] hands on the rendered
    500 response in the first two cases and raises in the other two. *)
Theorem handler_failures (router : Router.t) (request : Request)
        (endpt : Route) (captured : gmap string (option string))
        (ms : Z) (l : RateLimiter.t) :
  Router.getRoute (method request) (path request) router
  = Some (endpt, captured) →
  check_content_length int_of_bytes endpt (with_matches request captured)
  = None →
  RateLimiter.insert (client_address request).1 ms (Router.limiter router)
  = (l, Return false) →
  let outcome := callback endpt (with_matches request captured) in
  let failed := "route failed to return a response" in
  ((∃ e, outcome = Raise e ∧ is_Exception e = true)
   ∨ outcome = Return (VObject PyNone) →
   request_response int_of_bytes router request
   = Return (JsonResponse (error_body failed) 500)
   ∧ dispatch gzip_compress int_of_bytes request ms router
     = (Router.with_limiter router l, Return (rendered_error failed 500))
   ∧ status_code (rendered_error failed 500).1 = 500)
  ∧ (∀ o, outcome = Return (VObject o) → o ≠ PyNone →
          request_response int_of_bytes router request
          = Raise (TypeError "type(response)")
          ∧ dispatch gzip_compress int_of_bytes request ms router
            = (Router.with_limiter router l,
               Raise (TypeError "type(response)")))
  ∧ (∀ e, outcome = Raise e → is_Exception e = false →
          request_response int_of_bytes router request = Raise e
          ∧ dispatch gzip_compress int_of_bytes request ms router
            = (Router.with_limiter router l, Raise e)).
Proof.
  intros Hroute Hcheck Hpass outcome failed.
  assert (Hrr : request_response int_of_bytes router request
                = finish_response (run_callback endpt
                                     (with_matches request captured))).
  { unfold request_response. by rewrite Hroute, Hcheck. }
  rewrite (dispatch_when_allowed router request ms l Hpass), Hrr. unfold run_callback. fold outcome.
  split_and!.
  - intros [(e & -> & ->)| ->]; cbn [finish_response];
      rewrite render_error; done.
  - intros o -> Ho. destruct o; done.
  - intros e -> ->. done.
Qed.

(** C8.  When the limiter reports the client's address as blocked,
    [dispatch] returns the rendered 429 response; the route table plays no
    part, so any router with the same limiter answers the same.  When the
    limiter lets the request pass, the answer is the one of
    [request_response], the only place where routes are looked up. *)
Theorem blocked_requests_get_429 (router : Router.t) (request : Request)
        (ms : Z) (l : RateLimiter.t) (is_blocked : bool) :
  RateLimiter.insert (client_address request).1 ms (Router.limiter router)
  = (l, Return is_blocked) →
  if is_blocked then
    dispatch gzip_compress int_of_bytes request ms router
    = (Router.with_limiter router l,
       Return (rendered_error "Too Many Requests" 429))
    ∧ status_code (rendered_error "Too Many Requests" 429).1 = 429
    ∧ ∀ table routes,
        (dispatch gzip_compress int_of_bytes request ms
                  (Router.mk table routes (Router.limiter router))).2
        = Return (rendered_error "Too Many Requests" 429)
  else
    dispatch gzip_compress int_of_bytes request ms router
    = match request_response int_of_bytes router request with
      | Raise e => (Router.with_limiter router l, Raise e)
      | Return response =>
          match _get_payload gzip_compress response with
          | (_, Raise e) => (Router.with_limiter router l, Raise e)
          | (response', Return body) =>
              (Router.with_limiter router l, Return (response', body))
          end
      end.
Proof.
  intros Hinsert. destruct is_blocked.
  - split_and!.
    + unfold dispatch. rewrite Hinsert. by rewrite render_error.
    + reflexivity.
    + intros table routes. unfold dispatch. cbn [Router.limiter].
      rewrite Hinsert. by rewrite render_error.
  - by apply dispatch_when_allowed.
Qed.

End DispatchProperties.

(** Instances of C5: the upload route with a declared length of 20 bytes,
    without the header, and with a length that [int] rejects, which
    reaches the handler. *)
Lemma content_length_validation_witness :
  let request := upload_request {["CONTENT-LENGTH" := ["20"]]} in
  let malformed := upload_request {["CONTENT-LENGTH" := ["ten"]]} in
  let l := (RateLimiter.insert "10.0.0.1" now default_limiter).1 in
  Router.getRoute (method request) (path request) ok_upload_router
  = Some (upload_route ok_handler, ∅)
  ∧ options (upload_route ok_handler) !! "max_content_length" = Some 10
  ∧ 0 ≤ 10
  ∧ RateLimiter.insert "10.0.0.1" now (Router.limiter ok_upload_router)
    = (l, Return false)
  ∧ request_response python_int.parse ok_upload_router request
    = Return (JsonResponse (error_body "Payload too large") 413)
  ∧ dispatch stored python_int.parse request now ok_upload_router
    = (Router.with_limiter ok_upload_router l,
       Return (rendered_error "Payload too large" 413))
  ∧ request_response python_int.parse ok_upload_router (upload_request ∅)
    = Return (JsonResponse (error_body "Content-Length not specified") 411)
  ∧ callback (upload_route ok_handler) (with_matches malformed ∅)
    = Return (VResponse ok_response)
  ∧ request_response python_int.parse ok_upload_router malformed
    = Return ok_response.
Proof.
  intros request malformed l.
  assert (H1 : ∀ hdrs,
             Router.getRoute (method (upload_request hdrs))
                             (path (upload_request hdrs)) ok_upload_router
             = Some (upload_route ok_handler, ∅)).
  { intros hdrs. vm_compute. reflexivity. }
  assert (H2 : options (upload_route ok_handler) !! "max_content_length"
               = Some 10) by reflexivity.
  assert (H3 : 0 ≤ 10) by lia.
  assert (H4 : ∀ hdrs,
             RateLimiter.insert (client_address (upload_request hdrs)).1 now
                                (Router.limiter ok_upload_router)
             = (l, Return false)).
  { intros hdrs. vm_compute. reflexivity. }
  assert (H5 : callback (upload_route ok_handler) (with_matches malformed ∅)
               = Return (VResponse ok_response)) by reflexivity.
  split; [apply H1|]. split; [exact H2|]. split; [exact H3|].
  split; [apply (H4 ∅)|].
  destruct (proj1 (proj2 (content_length_validation
                            stored python_int.parse ok_upload_router request
                            (upload_route ok_handler) ∅ 10 now l
                            (H1 _) H2 H3 (H4 _))) "20" [] 20)
    as (Hr & Hd & _); [reflexivity | reflexivity | lia |].
  split; [exact Hr|]. split; [exact Hd|].
  split.
  { apply (proj1 (content_length_validation
                    stored python_int.parse ok_upload_router (upload_request ∅)
                    (upload_route ok_handler) ∅ 10 now l
                    (H1 _) H2 H3 (H4 _))).
    reflexivity. }
  split; [exact H5|].
  destruct (proj2 (proj2 (content_length_validation
                            stored python_int.parse ok_upload_router malformed
                            (upload_route ok_handler) ∅ 10 now l
                            (H1 _) H2 H3 (H4 _))) "ten" [])
    as (_ & _ & Hhandler); [reflexivity | by left |].
  exact (proj1 (Hhandler ok_response H5)).
Defined.

(** The claim C5 as stated fails for a route that declares a negative
    maximum, which nothing refuses: no length is small enough, so the
    answer is 413 also for a request without the header (not 411), and for
    a length that [int] rejects (the handler is not called). *)
Lemma negative_maximum_answers_413 :
  options (negative_route ok_handler) !! "max_content_length" = Some (-1)
  ∧ Router.getRoute "PUT" "/upload" negative_router
    = Some (negative_route ok_handler, ∅)
  ∧ headers_contains "Content-Length" (headers (upload_request ∅)) = false
  ∧ request_response python_int.parse negative_router (upload_request ∅)
    = Return (JsonResponse (error_body "Payload too large") 413)
  ∧ (dispatch stored python_int.parse (upload_request ∅) now
              negative_router).2
    = Return (rendered_error "Payload too large" 413)
  ∧ python_int.parse "ten" = None
  ∧ request_response python_int.parse negative_router
                     (upload_request {["CONTENT-LENGTH" := ["ten"]]})
    = Return (JsonResponse (error_body "Payload too large") 413).
Proof. split_and!; vm_compute; reflexivity. Qed.

(** The claim C6 as stated fails: a handler that calls [sys.exit()] raises
    [SystemExit], which [except Exception] does not catch; it leaves
    [request_response] and [dispatch]. *)
Lemma system_exit_leaves_dispatch :
  callback (mkRoute "job.get_job" "GET" "/job" exiting_handler None ∅)
           job_request
  = Raise (BaseExit "SystemExit")
  ∧ request_response python_int.parse (job_router exiting_handler) job_request
    = Raise (BaseExit "SystemExit")
  ∧ (dispatch stored python_int.parse job_request now
              (job_router exiting_handler)).2
    = Raise (BaseExit "SystemExit").
Proof. split_and!; vm_compute; reflexivity. Qed.

(** An instance of C6: a handler that raises [RuntimeError]. *)
Lemma handler_failures_witness :
  let router := job_router failing_handler in
  let l := (RateLimiter.insert "10.0.0.1" now (Router.limiter router)).1 in
  Router.getRoute "GET" "/job" router
  = Some (mkRoute "job.get_job" "GET" "/job" failing_handler None ∅, ∅)
  ∧ RateLimiter.insert "10.0.0.1" now (Router.limiter router)
    = (l, Return false)
  ∧ request_response python_int.parse router job_request
    = Return (JsonResponse
                (error_body "route failed to return a response") 500)
  ∧ dispatch stored python_int.parse job_request now router
    = (Router.with_limiter router l,
       Return (rendered_error "route failed to return a response" 500)).
Proof.
  intros router l.
  assert (H1 : Router.getRoute (method job_request) (path job_request) router
               = Some (mkRoute "job.get_job" "GET" "/job" failing_handler
                               None ∅, ∅)).
  { vm_compute. reflexivity. }
  assert (H2 : check_content_length
                 python_int.parse
                 (mkRoute "job.get_job" "GET" "/job" failing_handler None ∅)
                 (with_matches job_request ∅) = None) by reflexivity.
  assert (H3 : RateLimiter.insert (client_address job_request).1 now
                                  (Router.limiter router)
               = (l, Return false)).
  { vm_compute. reflexivity. }
  split; [exact H1|]. split; [exact H3|].
  destruct (handler_failures stored python_int.parse router job_request
                             _ _ now l H1 H2 H3) as [H _].
  destruct H as (Hr & Hd & _).
  { left. exists (UserError "RuntimeError"). split; reflexivity. }
  split; [exact Hr | exact Hd].
Defined.

(** An instance of C8: a limiter with limit 0 blocks the first request. *)
Lemma blocked_requests_get_429_witness :
  let router := Router.with_limiter upload_router strict_limiter in
  let l := (RateLimiter.insert "10.0.0.1" now strict_limiter).1 in
  RateLimiter.insert "10.0.0.1" now (Router.limiter router) = (l, Return true)
  ∧ dispatch stored python_int.parse (upload_request ∅) now router
    = (Router.with_limiter router l,
       Return (rendered_error "Too Many Requests" 429)).
Proof.
  intros router l.
  assert (H : RateLimiter.insert (client_address (upload_request ∅)).1 now
                                 (Router.limiter router)
              = (l, Return true)).
  { vm_compute. reflexivity. }
  split; [exact H|].
  exact (proj1 (blocked_requests_get_429 stored python_int.parse router
                                         (upload_request ∅) now l true H)).
Defined.

(** ** Plain patterns compile to a sequence that ends in [/?$] *)

Lemma parse_from_app (r : re.presult) (a b : list ascii) :
  re.parse_from r (a ++ b) = re.parse_from (re.parse_from r a) b.
Proof. apply fold_left_app. Qed.

Lemma parse_text_app (r : re.presult) (a b : string) :
  re.parse_from r (chars (a +:+ b))
  = re.parse_from (re.parse_from r (chars a)) (chars b).
Proof. by rewrite chars_app, parse_from_app. Qed.

Lemma str_length_app (a b : string) :
  String.length (a +:+ b) = (String.length a + String.length b)%nat.
Proof. induction a as [|c a IH]; simpl; [done | by rewrite IH]. Qed.

Section Fragments.

Variables (sq al : list re.regex) (stk : list re.frame) (g : nat).

Lemma parse_re_optional :
  re.parse_from (re.POk (re.mkp re.MNormal sq al stk g))
                (chars Router.re_optional)
  = re.POk (re.mkp re.MNormal (item_optional (S g) :: sq) al stk (S g)).
Proof. reflexivity. Qed.

Lemma parse_re_star :
  re.parse_from (re.POk (re.mkp re.MNormal sq al stk g)) (chars Router.re_star)
  = re.POk (re.mkp re.MNormal (item_star (S g) :: sq) al stk (S g)).
Proof. reflexivity. Qed.

Lemma parse_re_plus :
  re.parse_from (re.POk (re.mkp re.MNormal sq al stk g)) (chars Router.re_plus)
  = re.POk (re.mkp re.MNormal
                   (item_plus (S g) :: re.Opt (re.Chr "/") :: sq)
                   al stk (S g)).
Proof. reflexivity. Qed.

Lemma parse_re_plain :
  re.parse_from (re.POk (re.mkp re.MNormal sq al stk g))
                (chars Router.re_plain)
  = re.POk (re.mkp re.MNormal (item_plain (S g) :: re.Chr "/" :: sq)
                   al stk (S g)).
Proof. reflexivity. Qed.

Lemma parse_slash :
  re.parse_from (re.POk (re.mkp re.MNormal sq al stk g)) (chars "\/")
  = re.POk (re.mkp re.MNormal (re.Chr "/" :: sq) al stk g).
Proof. reflexivity. Qed.

Lemma parse_optional_slash :
  re.parse_from (re.POk (re.mkp re.MNormal sq al stk g)) (chars "\/?")
  = re.POk (re.mkp re.MNormal (re.Opt (re.Chr "/") :: sq) al stk g).
Proof. reflexivity. Qed.

Lemma parse_dollar :
  re.parse_from (re.POk (re.mkp re.MNormal sq al stk g)) (chars "$")
  = re.POk (re.mkp re.MNormal (re.Eol :: sq) al stk g).
Proof. reflexivity. Qed.

End Fragments.

Lemma step_plain (s : re.pstate) (c : ascii) :
  re_meta c = false → re.step_normal s c = re.push (re.Chr c) s.
Proof.
  unfold re_meta, re.member. simpl existsb. unfold re.step_normal.
  intros H.
  repeat match type of H with
         | (?b || _)%bool = false =>
             apply orb_false_elim in H as [-> H]
         end.
  reflexivity.
Qed.

Lemma parse_plain_literal (cs : list ascii) :
  forallb (λ c, negb (re_meta c)) cs = true →
  ∀ (sq al : list re.regex) (stk : list re.frame) (g : nat),
    re.parse_from (re.POk (re.mkp re.MNormal sq al stk g)) cs
    = re.POk (re.mkp re.MNormal (rev (re.Chr <$> cs) ++ sq) al stk g).
Proof.
  induction cs as [|c cs IH]; intros Hplain sq al stk g; [done|].
  simpl in Hplain. apply andb_prop in Hplain as [Hc Hcs].
  apply negb_true_iff in Hc.
  cbn [re.parse_from fold_left re.feed re.step re.p_mode].
  rewrite (step_plain _ c Hc). unfold re.push. cbn [re.p_seq re.p_alts re.p_stack re.p_groups].
  change (fold_left re.feed cs ?r) with (re.parse_from r cs).
  rewrite (IH Hcs). cbn [fmap list_fmap rev]. by rewrite <- app_assoc.
Qed.

Lemma eol_free_literal (cs : list ascii) :
  Forall (λ r, eol_free r = true) (re.Chr <$> cs).
Proof. induction cs; constructor; done. Qed.

(** The loop keeps the parser at top level, in normal mode, over items
    without [$]; the text either stays as it was or grows by three
    characters at least. *)
Lemma compile_parts_parses (pattern : string) (parts : list string) :
  Forall (λ part : string,
            part ≠ "" ∧ (Router.is_token part || plain_literal part) = true)
         parts →
  ∀ (tokens : list string) (re_str : string) (final : bool)
    (re_str' : string) (tokens' : list string) (sq : list re.regex) (g : nat),
    Router.compile_parts pattern parts tokens re_str final
    = Return (re_str', tokens') →
    re.parse_from (re.POk re.initial) (chars re_str)
    = re.POk (re.mkp re.MNormal sq [] [] g) →
    Forall (λ r, eol_free r = true) sq →
    ∃ sq' g',
      re.parse_from (re.POk re.initial) (chars re_str')
      = re.POk (re.mkp re.MNormal sq' [] [] g')
      ∧ Forall (λ r, eol_free r = true) sq'
      ∧ (re_str' = re_str
         ∨ (String.length re_str + 3 ≤ String.length re_str')%nat).
Proof.
  induction 1 as [|part parts [Hne Hok] _ IH];
    intros tokens re_str final re_str' tokens' sq g Hrun Hparse Hfree.
  - simpl in Hrun. injection Hrun as <- <-. exists sq, g. auto.
  - simpl in Hrun.
    assert (Hgrow : ∀ (frag : string) tokens1 final1 sq1 g1,
               (3 ≤ String.length frag)%nat →
               Router.compile_parts pattern parts tokens1 (re_str +:+ frag)
                                    final1 = Return (re_str', tokens') →
               re.parse_from (re.POk (re.mkp re.MNormal sq [] [] g))
                             (chars frag)
               = re.POk (re.mkp re.MNormal sq1 [] [] g1) →
               Forall (λ r, eol_free r = true) sq1 →
               ∃ sq' g',
                 re.parse_from (re.POk re.initial) (chars re_str')
                 = re.POk (re.mkp re.MNormal sq' [] [] g')
                 ∧ Forall (λ r, eol_free r = true) sq'
                 ∧ (re_str' = re_str
                    ∨ (String.length re_str + 3 ≤ String.length re_str')%nat)).
    { intros frag tokens1 final1 sq1 g1 Hlen Hrun1 Hfrag Hfree1.
      destruct (IH tokens1 (re_str +:+ frag) final1 re_str' tokens' sq1 g1)
        as (sq' & g' & Hp & Hf & Hl); [done | | done |].
      { by rewrite parse_text_app, Hparse. }
      exists sq', g'. split_and!; [done | done |]. right.
      destruct Hl as [->|Hl]; rewrite ?str_length_app in *; lia. }
    destruct (Router.is_token part) eqn:Htok.
    + destruct (last_char_nonempty part Hne) as [c Hc]. rewrite Hc in Hrun.
      destruct (Ascii.eqb c "?").
      { destruct final; [done|].
        eapply Hgrow; [| exact Hrun | apply parse_re_optional |];
          [simpl; lia | by constructor]. }
      destruct (Ascii.eqb c "*").
      { destruct final; [done|].
        eapply Hgrow; [| exact Hrun | apply parse_re_star |];
          [simpl; lia | by constructor]. }
      destruct (Ascii.eqb c "+").
      { destruct final; [done|].
        eapply Hgrow; [| exact Hrun | apply parse_re_plus |];
          [simpl; lia | by repeat constructor]. }
      eapply Hgrow; [| exact Hrun | apply parse_re_plain |];
        [simpl; lia | by repeat constructor].
    + simpl in Hok.
      eapply (Hgrow ("\/" +:+ part)); [| exact Hrun | |].
      * destruct part; [done | simpl; lia].
      * rewrite parse_text_app, parse_slash.
        apply parse_plain_literal. exact Hok.
      * apply Forall_app. split; [|by constructor].
        apply Forall_rev, eol_free_literal.
Qed.

Lemma plain_parts (pattern : string) :
  plain_pattern pattern = true →
  Forall (λ part : string,
            part ≠ "" ∧ (Router.is_token part || plain_literal part) = true)
         (Router.parts_of pattern).
Proof.
  intros Hplain. apply Forall_forall. intros part Hin. split.
  - pose proof (parts_of_nonempty pattern) as Hne.
    rewrite Forall_forall in Hne. by apply Hne.
  - unfold plain_pattern in Hplain. rewrite forallb_forall in Hplain.
    apply Hplain. by apply list_elem_of_In.
Qed.

(** What a plain pattern compiles to: items without [$], then [/?],
    then [$]. *)
Lemma plain_pattern_compiles (pattern : string) (p : re.Pattern)
      (tokens : list string) :
  plain_pattern pattern = true →
  Router.patternToRegex pattern = Some (Return (p, tokens)) →
  ∃ body,
    Forall (λ r, eol_free r = true) body
    ∧ re.ast p = re.seq_of (body ++ [re.Opt (re.Chr "/"); re.Eol]).
Proof.
  intros Hplain. unfold Router.patternToRegex, Router.regex_text.
  destruct (Router.compile_parts pattern (Router.parts_of pattern) [] "^" false)
    as [[re_str toks]|e] eqn:Hrun; [|done].
  destruct (compile_parts_parses pattern _ (plain_parts pattern Hplain)
              [] "^" false re_str toks [re.Bol] 0%nat Hrun)
    as (sq & g & Hparse & Hfree & Hlen); [done | by constructor |].
  assert (Hne : String.eqb re_str "^\/" = false).
  { apply String.eqb_neq. intros ->. destruct Hlen as [?|Hlen]; [done|].
    simpl in Hlen. lia. }
  rewrite Hne. cbn [negb]. unfold re.compile.
  rewrite !parse_text_app, Hparse, parse_optional_slash, parse_dollar.
  cbn [re.finish re.p_mode re.p_stack]. intros [= <- _].
  exists (rev sq). split; [by apply Forall_rev|].
  unfold re.branches. cbn [re.p_seq re.p_alts re.ast rev app re.alt_of].
  by rewrite <- !app_assoc.
Qed.

(** ** Appending text to the path *)

Lemma eat_extends (x : list ascii) (p : ascii → bool) :
  extends_ok x (re.eat p).
Proof.
  intros st k k' c Hrun Hk. unfold re.eat in *. cbn [extend re.m_rest].
  destruct (re.m_rest st) as [|a rest] eqn:Hrest; [done|].
  cbn [app]. destruct (p a); [|done].
  destruct (Hk (re.mkm (S (re.m_pos st)) rest (re.m_caps st)) c)
    as [c' Hc']; [by apply suffix_cons_r | exact Hrun |].
  exists c'. exact Hc'.
Qed.

Lemma star_loop_extends (x : list ascii)
      (m : re.mstate → re.cont → option re.captures) :
  extends_ok x m →
  ∀ (n n' : nat) (st : re.mstate) (k k' : re.cont) (c : re.captures),
    (n ≤ n')%nat →
    re.star_loop m k n st = Some c →
    (∀ st' c0, re.m_rest st' `suffix_of` re.m_rest st →
               k st' = Some c0 → ∃ c', k' (extend x st') = Some c') →
    ∃ c', re.star_loop m k' n' (extend x st) = Some c'.
Proof.
  intros Hm.
  assert (Hstop : ∀ n' st (k k' : re.cont) c,
             k st = Some c →
             (∀ st' c0, re.m_rest st' `suffix_of` re.m_rest st →
                        k st' = Some c0 → ∃ c', k' (extend x st') = Some c') →
             ∃ c', re.star_loop m k' n' (extend x st) = Some c').
  { intros n' st k k' c Hk Hcont.
    destruct (Hcont st c ltac:(done) Hk) as [c' Hc'].
    destruct n' as [|n']; [by exists c'|]. rewrite star_loop_S.
    destruct (m (extend x st) _) as [c1|]; [by exists c1 | by exists c']. }
  induction n as [|n IH]; intros n' st k k' c Hle Hrun Hcont.
  - by apply (Hstop n' st k k' c).
  - destruct n' as [|n']; [lia|]. rewrite star_loop_S in Hrun.
    destruct (m st _) as [c1|] eqn:Hbody.
    + rewrite star_loop_S.
      destruct (Hm st _
                  (λ st', if (length (re.m_rest st')
                              <? length (re.m_rest (extend x st)))%nat
                          then re.star_loop m k' n' st' else None)
                  c1 Hbody) as [c' Hc'].
      { intros st' c0 Hsuf Hround.
        destruct (Nat.ltb_spec (length (re.m_rest st'))
                               (length (re.m_rest st))) as [Hlt|]; [|done].
        cbn [extend re.m_rest]. rewrite !length_app.
        destruct (Nat.ltb_spec (length (re.m_rest st') + length x)
                               (length (re.m_rest st) + length x));
          [|lia].
        apply (IH n' st' k k' c0); [lia | done |].
        intros st'' c2 Hsuf' Hk. apply (Hcont st'' c2); [|done].
        by etrans. }
      rewrite Hc'. by exists c'.
    + by apply (Hstop (S n') st k k' c).
Qed.

Lemma capture_extend (x : list ascii) (i : nat) (st st' : re.mstate) :
  re.m_rest st' `suffix_of` re.m_rest st →
  re.capture i (extend x st) (extend x st') = extend x (re.capture i st st').
Proof.
  intros [pre Hpre]. unfold re.capture, extend. cbn [re.m_pos re.m_rest re.m_caps].
  f_equal. f_equal. f_equal. rewrite !length_app, Hpre, !length_app.
  replace (length pre + length (re.m_rest st') + length x
           - (length (re.m_rest st') + length x))%nat
    with (length pre) by lia.
  replace (length pre + length (re.m_rest st') - length (re.m_rest st'))%nat
    with (length pre) by lia.
  rewrite <- app_assoc. by rewrite !take_app_length.
Qed.

(** A pattern without [$] that matches a text up to some point matches
    as far again when more text follows. *)
Lemma run_extends (x : list ascii) (r : re.regex) :
  eol_free r = true → extends_ok x (re.run r).
Proof.
  induction r as [| c | | cs | cs | | | r1 IH1 r2 IH2 | r1 IH1 r2 IH2
                  | r IH | r IH | r IH | g r IH];
    intros Hfree; try discriminate Hfree;
    try (apply eat_extends).
  - (* Eps *)
    intros st k k' c Hrun Hk. by apply (Hk st c).
  - (* Bol *)
    intros st k k' c Hrun Hk. cbn [re.run extend re.m_pos] in *.
    destruct (Nat.eqb (re.m_pos st) 0); [|done]. by apply (Hk st c).
  - (* Seq *)
    simpl in Hfree. apply andb_prop in Hfree as [H1 H2].
    intros st k k' c Hrun Hk. cbn [re.run] in *.
    apply (IH1 H1 st _ _ c Hrun).
    intros st' c0 Hsuf Hrun2. apply (IH2 H2 st' k k' c0 Hrun2).
    intros st'' c1 Hsuf' Hk'. apply (Hk st'' c1); [by etrans | done].
  - (* Alt *)
    simpl in Hfree. apply andb_prop in Hfree as [H1 H2].
    intros st k k' c Hrun Hk. cbn [re.run] in *.
    destruct (re.run r1 st k) as [c1|] eqn:Hleft.
    + destruct (IH1 H1 st k k' c1 Hleft Hk) as [c' ->]. by exists c'.
    + destruct (IH2 H2 st k k' c Hrun Hk) as [c' Hc'].
      destruct (re.run r1 (extend x st) k') as [c1|]; [by exists c1|].
      by exists c'.
  - (* Opt *)
    simpl in Hfree. intros st k k' c Hrun Hk. cbn [re.run] in *.
    destruct (re.run r st k) as [c1|] eqn:Hbody.
    + destruct (IH Hfree st k k' c1 Hbody Hk) as [c' ->]. by exists c'.
    + destruct (Hk st c ltac:(done) Hrun) as [c' Hc'].
      destruct (re.run r (extend x st) k') as [c1|]; [by exists c1|].
      by exists c'.
  - (* Star *)
    simpl in Hfree. intros st k k' c Hrun Hk. cbn [re.run] in *.
    apply (star_loop_extends x (re.run r) (IH Hfree)
             (length (re.m_rest st)) (length (re.m_rest (extend x st)))
             st k k' c);
      [cbn [extend re.m_rest]; rewrite length_app; lia | done | done].
  - (* Plus *)
    simpl in Hfree. intros st k k' c Hrun Hk. cbn [re.run] in *.
    apply (IH Hfree st _ _ c Hrun).
    intros st' c0 Hsuf Hloop.
    apply (star_loop_extends x (re.run r) (IH Hfree)
             (length (re.m_rest st')) (length (re.m_rest (extend x st')))
             st' k k' c0);
      [cbn [extend re.m_rest]; rewrite length_app; lia | done |].
    intros st'' c1 Hsuf' Hk'. apply (Hk st'' c1); [by etrans | done].
  - (* Group *)
    simpl in Hfree. intros st k k' c Hrun Hk. cbn [re.run] in *.
    apply (IH Hfree st _ _ c Hrun).
    intros st' c0 Hsuf Hk'. destruct g as [i|].
    + rewrite capture_extend by done. by apply (Hk _ c0).
    + by apply (Hk st' c0).
Qed.

Lemma endswith_last (z : ascii) (s : string) (l : list ascii) :
  (l ++ [z])%list `suffix_of` chars s → endswith (String z "") s = true.
Proof.
  intros [pre Hpre]. unfold endswith. rewrite Hpre.
  rewrite app_assoc, rev_app_distr. simpl. by rewrite Ascii.eqb_refl.
Qed.

(** The items of a sequence, one after the other. *)
Lemma seq_extends (x : list ascii) (body tail : list re.regex) :
  Forall (λ r, eol_free r = true) body →
  ∀ (st : re.mstate) (k k' : re.cont) (c : re.captures),
    re.run (re.seq_of (body ++ tail)) st k = Some c →
    (∀ st' c0, re.m_rest st' `suffix_of` re.m_rest st →
               re.run (re.seq_of tail) st' k = Some c0 →
               ∃ c', re.run (re.seq_of tail) (extend x st') k' = Some c') →
    ∃ c', re.run (re.seq_of (body ++ tail)) (extend x st) k' = Some c'.
Proof.
  induction 1 as [|a body Ha _ IH]; intros st k k' c Hrun Htail.
  - by apply (Htail st c).
  - cbn [app re.seq_of fold_right re.run] in *.
    apply (run_extends x a Ha st _ _ c Hrun).
    intros st' c0 Hsuf Hrest. apply (IH st' k k' c0 Hrest).
    intros st'' c1 Hsuf' Hk. apply (Htail st'' c1); [by etrans | done].
Qed.

(** The end of every compiled pattern, [/?$], on a text that ends
    neither in a slash nor in a newline: when it succeeds, the text is
    used up, and it succeeds again with one slash appended. *)
Lemma tail_extends (path : string) (st : re.mstate) (c : re.captures) :
  endswith "/" path = false →
  endswith (String re.newline "") path = false →
  re.m_rest st `suffix_of` chars path →
  re.run (re.seq_of [re.Opt (re.Chr "/"); re.Eol]) st
         (λ st', Some (re.m_caps st')) = Some c →
  ∃ c', re.run (re.seq_of [re.Opt (re.Chr "/"); re.Eol])
               (extend ["/"%char] st) (λ st', Some (re.m_caps st'))
        = Some c'.
Proof.
  intros Hslash Hnl Hsuf Hrun.
  assert (Hend : ∀ l z, re.m_rest st = (l ++ [z])%list →
                        z ≠ "/"%char ∧ z ≠ re.newline).
  { intros l z Hl. rewrite Hl in Hsuf. split; intros ->.
    - by rewrite (endswith_last _ _ _ Hsuf) in Hslash.
    - by rewrite (endswith_last _ _ _ Hsuf) in Hnl. }
  destruct st as [pos rest caps]. cbn [re.m_rest] in *.
  destruct rest as [|a [|b rest]].
  - exists caps. reflexivity.
  - destruct (Hend [] a eq_refl) as [Ha1 Ha2]. exfalso.
    cbn -[Ascii.eqb re.newline] in Hrun. unfold re.eat in Hrun.
    cbn -[Ascii.eqb re.newline] in Hrun.
    apply Ascii.eqb_neq in Ha2. rewrite Ha2 in Hrun.
    destruct (Ascii.eqb_spec "/" a) as [<-|_]; done.
  - exfalso. cbn -[Ascii.eqb re.newline] in Hrun. unfold re.eat in Hrun.
    cbn -[Ascii.eqb re.newline] in Hrun.
    destruct rest as [|d rest].
    + destruct (Hend [a] b eq_refl) as [_ Hb].
      apply Ascii.eqb_neq in Hb. rewrite Hb in Hrun.
      destruct (Ascii.eqb "/" a); done.
    + destruct (Ascii.eqb "/" a); done.
Qed.

(** A plain pattern always compiles, unless it has two or more optional
    or greedy tokens. *)
Lemma plain_pattern_total (pattern : string) :
  plain_pattern pattern = true →
  (∃ p tokens, Router.patternToRegex pattern = Some (Return (p, tokens)))
  ∨ Router.patternToRegex pattern = Some (Raise (ValueError pattern)).
Proof.
  intros Hplain. unfold Router.patternToRegex, Router.regex_text.
  destruct (compile_parts_outcome pattern _ (parts_of_nonempty pattern)
                                  [] "^" false) as [Hret Hraise].
  destruct (decide (greedy_count (Router.parts_of pattern) ≤ 1)%nat) as [Hc|Hc].
  - left. destruct Hret as [[re_str toks] Hrun]; [lia|]. rewrite Hrun.
    destruct (compile_parts_parses pattern _ (plain_parts pattern Hplain)
                [] "^" false re_str toks [re.Bol] 0%nat Hrun)
      as (sq & g & Hparse & _ & Hlen); [done | by constructor |].
    assert (Hne : String.eqb re_str "^\/" = false).
    { apply String.eqb_neq. intros ->. destruct Hlen as [?|Hlen]; [done|].
      simpl in Hlen. lia. }
    rewrite Hne. cbn [negb]. unfold re.compile.
    rewrite !parse_text_app, Hparse, parse_optional_slash, parse_dollar.
    cbn [re.finish re.p_mode re.p_stack]. eauto.
  - right. rewrite Hraise by lia. done.
Qed.

(** For a plain pattern the only thing that counts is how many optional
    or greedy tokens there are, not where they stand. *)
Lemma plain_pattern_compiles_iff (pattern : string) :
  plain_pattern pattern = true →
  (greedy_count (Router.parts_of pattern) ≤ 1)%nat
  ↔ ∃ p tokens, Router.patternToRegex pattern = Some (Return (p, tokens)).
Proof.
  intros Hplain. split.
  - intros Hcount.
    destruct (plain_pattern_total pattern Hplain) as [?|Hraise]; [done|].
    unfold Router.patternToRegex in Hraise.
    destruct (Router.regex_text pattern) as [[re_str toks]|e] eqn:Htext.
    + by destruct (re.compile re_str).
    + injection Hraise as ->. apply regex_text_raises_iff in Htext. lia.
  - intros (p & tokens & Hp).
    destruct (decide (greedy_count (Router.parts_of pattern) ≤ 1)%nat)
      as [?|Hmany]; [done|].
    assert (Htext : Router.regex_text pattern = Raise (ValueError pattern)).
    { apply regex_text_raises_iff. lia. }
    unfold Router.patternToRegex in Hp. by rewrite Htext in Hp.
Qed.

(** The claim C10 as stated fails, in two ways.  [$] also matches before
    a newline that ends the text: the matcher of [/a] accepts [/a] followed
    by a newline, but not that text followed by a slash.  And a literal
    segment is taken as a regular expression: the matcher of [/a$] accepts
    [/a] and rejects [/a/]. *)
Lemma trailing_slash_counterexample :
  Router.patternToRegex "/a" = Some (Return (matcher_of "/a", []))
  ∧ endswith "/" path_with_newline = false
  ∧ re.accepts (matcher_of "/a") path_with_newline = true
  ∧ re.accepts (matcher_of "/a") (path_with_newline +:+ "/") = false
  ∧ Router.patternToRegex "/a$" = Some (Return (matcher_of "/a$", []))
  ∧ endswith "/" "/a" = false
  ∧ re.accepts (matcher_of "/a$") "/a" = true
  ∧ re.accepts (matcher_of "/a$") ("/a" +:+ "/") = false.
Proof. split_and!; vm_compute; reflexivity. Qed.

(** C10, as the code has it.  For a pattern whose literal segments are
    plain text, and a path that ends neither in a slash nor in a newline:
    when the compiled matcher accepts the path, it accepts the path
    followed by one slash. *)
Theorem trailing_slash_tolerated (pattern path : string) (p : re.Pattern)
        (tokens : list string) :
  plain_pattern pattern = true →
  Router.patternToRegex pattern = Some (Return (p, tokens)) →
  endswith "/" path = false →
  endswith (String re.newline "") path = false →
  re.accepts p path = true →
  re.accepts p (path +:+ "/") = true.
Proof.
  intros Hplain Hcompile Hslash Hnl.
  destruct (plain_pattern_compiles pattern p tokens Hplain Hcompile)
    as (body & Hfree & Hast).
  unfold re.accepts, re.match_groups. rewrite Hast.
  destruct (re.run _ (re.mkm 0 (chars path) []) _) as [c|] eqn:Hrun; [|done].
  intros _.
  destruct (seq_extends ["/"%char] body [re.Opt (re.Chr "/"); re.Eol] Hfree
              (re.mkm 0 (chars path) [])
              (λ st, Some (re.m_caps st)) (λ st, Some (re.m_caps st)) c Hrun)
    as [c' Hc'].
  { intros st' c0 Hsuf Htail. by apply (tail_extends path st' c0). }
  rewrite chars_app. change (chars "/") with ["/"%char].
  unfold extend in Hc'. cbn [re.m_pos re.m_rest re.m_caps] in Hc'.
  by rewrite Hc'.
Qed.

(** An instance of C10: [/user/:id] and the path [/user/admin]. *)
Lemma trailing_slash_tolerated_witness :
  plain_pattern "/user/:id" = true
  ∧ Router.patternToRegex "/user/:id"
    = Some (Return (matcher_of "/user/:id", ["id"]))
  ∧ endswith "/" "/user/admin" = false
  ∧ endswith (String re.newline "") "/user/admin" = false
  ∧ re.accepts (matcher_of "/user/:id") "/user/admin" = true
  ∧ re.accepts (matcher_of "/user/:id") ("/user/admin" +:+ "/") = true.
Proof.
  assert (H1 : plain_pattern "/user/:id" = true) by reflexivity.
  assert (H2 : Router.patternToRegex "/user/:id"
               = Some (Return (matcher_of "/user/:id", ["id"])))
    by (vm_compute; reflexivity).
  assert (H3 : endswith "/" "/user/admin" = false) by reflexivity.
  assert (H4 : endswith (String re.newline "") "/user/admin" = false)
    by reflexivity.
  assert (H5 : re.accepts (matcher_of "/user/:id") "/user/admin" = true)
    by (vm_compute; reflexivity).
  split; [exact H1|]. split; [exact H2|]. split; [exact H3|].
  split; [exact H4|]. split; [exact H5|].
  exact (trailing_slash_tolerated "/user/:id" "/user/admin" _ _ H1 H2 H3 H4 H5).
Defined.

(** ** The bounded cache *)

Section CacheProperties.

Context {V : Type}.
Implicit Types (l : list (string * V)) (d : CacheDict.t V).

Lemma evict_drops (c : Z) l :
  0 ≤ c →
  CacheDict.evict c l = (drop (length l - Z.to_nat c) l, Return tt).
Proof.
  intros Hc. induction l as [|kv l IH].
  - simpl. destruct (Z.gtb_spec 0 c); [lia | done].
  - cbn [CacheDict.evict].
    destruct (Z.gtb_spec (Z.of_nat (length (kv :: l))) c) as [Hgt|Hle].
    + rewrite IH. simpl length in *.
      replace (S (length l) - Z.to_nat c)%nat
        with (S (length l - Z.to_nat c)) by lia.
      done.
    + simpl length in *.
      replace (S (length l) - Z.to_nat c)%nat with 0%nat by lia. done.
Qed.

Lemma od_getitem_last (k : string) (v : V) l :
  existsb (λ kv, String.eqb k kv.1) l = false →
  CacheDict.od_getitem k (l ++ [(k, v)]) = Some v.
Proof.
  unfold CacheDict.od_getitem. induction l as [|[k' v'] l IH]; simpl.
  - by rewrite String.eqb_refl.
  - intros [Hk Hl]%orb_false_elim. rewrite Hk. by apply IH.
Qed.

Lemma existsb_filter_out (k : string) l :
  existsb (λ kv, String.eqb k kv.1)
          (List.filter (λ kv, negb (String.eqb k kv.1)) l) = false.
Proof.
  induction l as [|[k' v'] l IH]; [done|]. simpl.
  destruct (String.eqb k k') eqn:E; simpl; [done|]. by rewrite E.
Qed.

Lemma od_getitem_some_exists (k : string) l :
  existsb (λ kv, String.eqb k kv.1) l = true →
  ∃ v, CacheDict.od_getitem k l = Some v.
Proof.
  unfold CacheDict.od_getitem. induction l as [|[k' v'] l IH]; [done|].
  simpl. destruct (String.eqb k k'); simpl; [by eexists | done].
Qed.

Lemma od_getitem_none (k : string) l :
  existsb (λ kv, String.eqb k kv.1) l = false →
  CacheDict.od_getitem k l = None.
Proof.
  unfold CacheDict.od_getitem. induction l as [|[k' v'] l IH]; [done|].
  simpl. destruct (String.eqb k k'); simpl; [done | done].
Qed.

Lemma od_getitem_replaced (k : string) (v : V) l :
  existsb (λ kv, String.eqb k kv.1) l = true →
  CacheDict.od_getitem k
    (map (λ kv, if String.eqb k kv.1 then (k, v) else kv) l) = Some v.
Proof.
  unfold CacheDict.od_getitem. induction l as [|[k' v'] l IH]; [done|].
  simpl. destruct (String.eqb k k') eqn:E; simpl.
  - by rewrite String.eqb_refl.
  - rewrite E. exact IH.
Qed.

(** What [__setitem__] leaves before eviction: the other entries in their
    order, then the entry just written. *)
Lemma setitem_before_eviction (k : string) (v : V) l :
  CacheDict.od_move_to_end k (CacheDict.od_setitem k v l)
  = (List.filter (λ kv, negb (String.eqb k kv.1)) l ++ [(k, v)])%list.
Proof.
  unfold CacheDict.od_move_to_end, CacheDict.od_setitem.
  destruct (existsb _ l) eqn:Hin.
  - rewrite (od_getitem_replaced k v l Hin). f_equal.
    clear Hin. induction l as [|[k' v'] l IH]; [done|]. simpl.
    destruct (String.eqb k k') eqn:E; simpl.
    + by rewrite String.eqb_refl.
    + rewrite E. simpl. by rewrite IH.
  - rewrite (od_getitem_last k v l Hin). rewrite List.filter_app. simpl.
    rewrite String.eqb_refl. simpl. by rewrite app_nil_r.
Qed.

Lemma filter_out_length (k : string) l :
  (length (List.filter (λ kv, negb (String.eqb k kv.1)) l) ≤ length l)%nat.
Proof. induction l as [|[k' v'] l IH]; simpl; [done|]. destruct (negb _); simpl; lia. Qed.

Lemma filter_out_absent (k : string) l :
  existsb (λ kv, String.eqb k kv.1) l = false →
  List.filter (λ kv, negb (String.eqb k kv.1)) l = l.
Proof.
  induction l as [|[k' v'] l IH]; [done|]. simpl.
  intros [Hk Hl]%orb_false_elim. rewrite Hk. simpl. by rewrite IH.
Qed.

Lemma filter_out_keys (k : string) l :
  (List.filter (λ kv, negb (String.eqb k kv.1)) l).*1
  = List.filter (λ k', negb (String.eqb k k')) l.*1.
Proof.
  induction l as [|[k' v'] l IH]; [done|]. simpl.
  destruct (String.eqb k k'); simpl; [apply IH | f_equal; apply IH].
Qed.

Lemma NoDup_filter_snoc (k : string) (ks : list string) :
  NoDup ks →
  NoDup (List.filter (λ k', negb (String.eqb k k')) ks ++ [k]).
Proof.
  intros Hnd. apply NoDup_app. split_and!.
  - induction Hnd as [|k' ks Hnotin _ IH]; simpl; [constructor|].
    destruct (String.eqb k k'); simpl; [done|].
    constructor; [|done]. intros Hin. apply Hnotin.
    apply list_elem_of_In, filter_In in Hin as [Hin _].
    by apply list_elem_of_In.
  - intros k' Hin ->%list_elem_of_singleton.
    apply list_elem_of_In, filter_In in Hin as [_ Hne].
    by rewrite String.eqb_refl in Hne.
  - apply NoDup_singleton.
Qed.

End CacheProperties.

Section CacheTheorems.

Context {V : Type}.
Implicit Types (l : list (string * V)) (d : CacheDict.t V).

Lemma existsb_drop_false (k : string) (n : nat) l :
  existsb (λ kv, String.eqb k kv.1) l = false →
  existsb (λ kv, String.eqb k kv.1) (drop n l) = false.
Proof.
  revert n. induction l as [|kv l IH]; intros [|n] H; try done.
  simpl in *. apply orb_false_elim in H as [_ H]. by apply IH.
Qed.

(** The entries after [__setitem__], and that it returns normally, when
    [cache_len] is not negative. *)
Lemma setitem_items (k : string) (v : V) d :
  0 ≤ CacheDict.cache_len d →
  CacheDict.__setitem__ k v d
  = (CacheDict.mk
       (CacheDict.cache_len d)
       (drop (length (List.filter (λ kv, negb (String.eqb k kv.1))
                                  (CacheDict.items d) ++ [(k, v)])
              - Z.to_nat (CacheDict.cache_len d))
             (List.filter (λ kv, negb (String.eqb k kv.1))
                          (CacheDict.items d) ++ [(k, v)])),
     Return tt).
Proof.
  intros Hc. unfold CacheDict.__setitem__.
  rewrite setitem_before_eviction, evict_drops by done. done.
Qed.

(** X1.  Writing [d[k] = v] into a cache that may hold at least one entry
    returns normally, and reading [d[k]] right after returns [v] and leaves
    the order of the entries as it is. *)
Theorem cache_write_then_read (k : string) (v : V) d :
  1 ≤ CacheDict.cache_len d →
  ∃ d',
    CacheDict.__setitem__ k v d = (d', Return tt)
    ∧ CacheDict.__contains__ k d' = true
    ∧ CacheDict.__getitem__ k d' = (d', Return v).
Proof.
  intros Hc. rewrite setitem_items by lia. eexists. split; [done|].
  set (rest := List.filter _ (CacheDict.items d)).
  assert (Hrest : existsb (λ kv, String.eqb k kv.1) rest = false)
    by apply existsb_filter_out.
  rewrite length_app. simpl length.
  rewrite drop_app_le by lia.
  set (kept := drop _ rest).
  assert (Hkept : existsb (λ kv, String.eqb k kv.1) kept = false)
    by by apply existsb_drop_false.
  split.
  - unfold CacheDict.__contains__. cbn [CacheDict.items].
    rewrite existsb_app. simpl. rewrite String.eqb_refl.
    by rewrite orb_true_r.
  - unfold CacheDict.__getitem__, CacheDict.od_move_to_end.
    cbn [CacheDict.items CacheDict.cache_len].
    rewrite (od_getitem_last k v kept Hkept).
    rewrite List.filter_app, filter_out_absent by done. simpl.
    rewrite String.eqb_refl. simpl. by rewrite app_nil_r.
Qed.

(** X2.  The order of a cache is kept by its operations: when
    [cache_len] is not negative and no key occurs twice, [__setitem__]
    returns normally and leaves no key twice and at most [cache_len]
    entries; [__getitem__] keeps both properties too, whether it finds the
    key or raises [KeyError]. *)
Theorem cache_stays_in_order (k : string) (v : V) d :
  0 ≤ CacheDict.cache_len d →
  NoDup (cache_keys d) →
  (CacheDict.__setitem__ k v d).2 = Return tt
  ∧ cache_ok (CacheDict.__setitem__ k v d).1
  ∧ CacheDict.cache_len (CacheDict.__setitem__ k v d).1
    = CacheDict.cache_len d
  ∧ (cache_ok d → cache_ok (CacheDict.__getitem__ k d).1).
Proof.
  intros Hc Hnd. rewrite setitem_items by done. cbn [fst snd].
  split; [done|]. split; [|split; [done|]].
  - split.
    + unfold cache_keys. cbn [CacheDict.items].
      rewrite fmap_drop, fmap_app, filter_out_keys. simpl.
      eapply sublist_NoDup; [by apply NoDup_filter_snoc | apply sublist_drop].
    + cbn [CacheDict.items CacheDict.cache_len]. rewrite length_drop. lia.
  - intros [_ Hlen]. unfold CacheDict.__getitem__.
    destruct (CacheDict.od_getitem k (CacheDict.items d)) as [v'|] eqn:Hget;
      cbn [fst]; [|by split].
    unfold CacheDict.od_move_to_end. rewrite Hget. split.
    + unfold cache_keys. cbn [CacheDict.items].
      rewrite fmap_app, filter_out_keys. simpl. by apply NoDup_filter_snoc.
    + cbn [CacheDict.items CacheDict.cache_len]. rewrite length_app. simpl.
      assert (Hin : existsb (λ kv, String.eqb k kv.1) (CacheDict.items d)
                    = true).
      { destruct (existsb _ _) eqn:E; [done|].
        by rewrite (od_getitem_none k _ E) in Hget. }
      assert (Hlt : (length (List.filter (λ kv, negb (String.eqb k kv.1))
                                         (CacheDict.items d))
                     < length (CacheDict.items d))%nat).
      { clear -Hin. induction (CacheDict.items d) as [|[k' v''] l IH];
          [done|]. simpl in *.
        destruct (String.eqb k k'); simpl.
        - pose proof (filter_out_length k l). lia.
        - specialize (IH Hin). lia. }
      lia.
Qed.

(** X3.  Eviction takes the oldest entry.  Into a cache in good order
    that may hold at least one entry, writing a key it does not hold
    appends the entry; when the cache was full, the entry at the head, the
    least recently used one, is dropped and every other entry stays, in
    the same order. *)
Theorem cache_evicts_oldest (k : string) (v : V) d :
  1 ≤ CacheDict.cache_len d →
  cache_ok d →
  CacheDict.__contains__ k d = false →
  CacheDict.items (CacheDict.__setitem__ k v d).1
  = ((if decide (Z.of_nat (length (CacheDict.items d))
                 = CacheDict.cache_len d)
      then tail (CacheDict.items d) else CacheDict.items d)
       ++ [(k, v)])%list.
Proof.
  intros Hc [_ Hlen] Hnew. rewrite setitem_items by lia.
  cbn [fst CacheDict.items]. unfold CacheDict.__contains__ in Hnew.
  rewrite filter_out_absent by done. rewrite length_app. simpl length.
  rewrite drop_app_le by lia. f_equal.
  case_decide as Hfull.
  - replace (length (CacheDict.items d) + 1 - Z.to_nat (CacheDict.cache_len d))%nat
      with 1%nat by lia.
    by destruct (CacheDict.items d).
  - replace (length (CacheDict.items d) + 1 - Z.to_nat (CacheDict.cache_len d))%nat
      with 0%nat by lia.
    done.
Qed.

(** X4.  Reading a key protects it from the next eviction: in a cache
    that may hold at least two entries, after [d[k]] has been read, writing
    any other key leaves [k] in the cache. *)
Theorem cache_read_key_survives (k k' : string) (v' : V) d :
  2 ≤ CacheDict.cache_len d →
  CacheDict.__contains__ k d = true →
  k' ≠ k →
  CacheDict.__contains__
    k (CacheDict.__setitem__ k' v' (CacheDict.__getitem__ k d).1).1 = true.
Proof.
  intros Hc Hin Hne. unfold CacheDict.__contains__ in Hin.
  destruct (od_getitem_some_exists k _ Hin) as [v Hget].
  unfold CacheDict.__getitem__. rewrite Hget. cbn [fst].
  rewrite setitem_items by (cbn; lia).
  cbn [fst CacheDict.items CacheDict.cache_len].
  unfold CacheDict.od_move_to_end. rewrite Hget.
  rewrite List.filter_app. simpl.
  assert (Hkk : String.eqb k' k = false) by by apply String.eqb_neq.
  rewrite Hkk. simpl. rewrite <- app_assoc. simpl.
  set (rest := List.filter _ (List.filter _ _)).
  rewrite length_app. simpl length. rewrite drop_app_le by lia.
  unfold CacheDict.__contains__. cbn [CacheDict.items].
  rewrite existsb_app. simpl. rewrite String.eqb_refl.
  by rewrite orb_true_r.
Qed.

End CacheTheorems.

Lemma getitem_length {V : Type} (k : string) (d : CacheDict.t V) :
  (length (CacheDict.items (CacheDict.__getitem__ k d).1)
   ≤ length (CacheDict.items d))%nat
  ∧ CacheDict.cache_len (CacheDict.__getitem__ k d).1 = CacheDict.cache_len d.
Proof.
  unfold CacheDict.__getitem__, CacheDict.od_move_to_end.
  destruct (CacheDict.od_getitem k (CacheDict.items d)) as [v|] eqn:Hget;
    cbn [fst CacheDict.items CacheDict.cache_len]; [|done].
  split; [|done]. rewrite length_app. simpl.
  assert (Hin : existsb (λ kv, String.eqb k kv.1) (CacheDict.items d) = true).
  { destruct (existsb _ _) eqn:E; [done|].
    by rewrite (od_getitem_none k _ E) in Hget. }
  clear Hget. induction (CacheDict.items d) as [|[k' v'] l IH]; [done|].
  simpl in *. destruct (String.eqb k k'); simpl.
  - pose proof (filter_out_length k l). lia.
  - specialize (IH Hin). lia.
Qed.

(** X5.  The limiter's memory is bounded: when its key cache holds at
    most [cache_len] entries, it still does after [insert], whatever the
    key and the clock, and whether [insert] returns or raises; the limit,
    the window and [cache_len] are not touched. *)
Theorem limiter_memory_bound (k : string) (ms : Z) (l : RateLimiter.t) :
  0 ≤ CacheDict.cache_len (RateLimiter.counter l) →
  Z.of_nat (length (RateLimiter.tracked l))
  ≤ CacheDict.cache_len (RateLimiter.counter l) →
  let l' := (RateLimiter.insert k ms l).1 in
  Z.of_nat (length (RateLimiter.tracked l'))
  ≤ CacheDict.cache_len (RateLimiter.counter l)
  ∧ CacheDict.cache_len (RateLimiter.counter l')
    = CacheDict.cache_len (RateLimiter.counter l)
  ∧ RateLimiter.limit l' = RateLimiter.limit l
  ∧ RateLimiter.interval_ms l' = RateLimiter.interval_ms l.
Proof.
  intros Hc Hlen l'. subst l'. unfold RateLimiter.tracked in *.
  rewrite length_fmap in *.
  set (c1r := if negb (CacheDict.__contains__ k (RateLimiter.counter l))
              then match RollingCounter.__init__ (RateLimiter.interval_ms l) 4
                   with
                   | Raise e => (RateLimiter.counter l, Raise e)
                   | Return rc =>
                       CacheDict.__setitem__ k (RateLimiter.SCounter rc)
                                             (RateLimiter.counter l)
                   end
              else (RateLimiter.counter l, Return tt)).
  assert (H1 : Z.of_nat (length (CacheDict.items c1r.1))
               ≤ CacheDict.cache_len (RateLimiter.counter l)
               ∧ CacheDict.cache_len c1r.1
                 = CacheDict.cache_len (RateLimiter.counter l)).
  { subst c1r. destruct (negb _); [|done].
    destruct (RollingCounter.__init__ _ _) as [rc|e]; [|done].
    rewrite setitem_items by done. cbn [fst CacheDict.items CacheDict.cache_len].
    rewrite length_drop. split; [lia | done]. }
  unfold RateLimiter.insert. fold c1r. destruct c1r as [c1 r1].
  cbn [fst] in H1. destruct H1 as [H1 H1'].
  destruct r1 as [[]|e]; cbv beta iota zeta;
    cbn [fst RateLimiter.counter RateLimiter.with_counter
         RateLimiter.limit RateLimiter.interval_ms];
    [|done].
  destruct (getitem_length k c1) as [H2 H2'].
  destruct (CacheDict.__getitem__ k c1) as [c2 [[n|rc]|e]]; cbn [fst] in *;
    cbn [fst RateLimiter.counter RateLimiter.with_counter
         RateLimiter.limit RateLimiter.interval_ms];
    try (split_and!; [lia | congruence | done | done]).
  destruct (RollingCounter.increment ms rc) as [rc' [count|e]];
    cbn [fst RateLimiter.counter RateLimiter.with_counter CacheDict.mutate
         CacheDict.items CacheDict.cache_len RateLimiter.limit
         RateLimiter.interval_ms];
    rewrite length_map; (split_and!; [lia | congruence | done | done]).
Qed.

Lemma two_entries_ok : cache_ok two_entries.
Proof.
  split; [|cbn; lia]. unfold cache_keys. cbn.
  apply (bool_decide_unpack _). vm_compute. reflexivity.
Defined.

(** An instance of X1. *)
Lemma cache_write_then_read_witness :
  1 ≤ CacheDict.cache_len two_entries
  ∧ ∃ d',
      CacheDict.__setitem__ "C" 3 two_entries = (d', Return tt)
      ∧ CacheDict.__contains__ "C" d' = true
      ∧ CacheDict.__getitem__ "C" d' = (d', Return 3).
Proof.
  assert (H : 1 ≤ CacheDict.cache_len two_entries) by (cbn; lia).
  split; [exact H|]. exact (cache_write_then_read "C" 3 two_entries H).
Defined.

(** An instance of X2. *)
Lemma cache_stays_in_order_witness :
  0 ≤ CacheDict.cache_len two_entries
  ∧ NoDup (cache_keys two_entries)
  ∧ (CacheDict.__setitem__ "C" 3 two_entries).2 = Return tt
  ∧ cache_ok (CacheDict.__setitem__ "C" 3 two_entries).1
  ∧ CacheDict.cache_len (CacheDict.__setitem__ "C" 3 two_entries).1
    = CacheDict.cache_len two_entries
  ∧ (cache_ok two_entries → cache_ok (CacheDict.__getitem__ "C" two_entries).1).
Proof.
  assert (H1 : 0 ≤ CacheDict.cache_len two_entries) by (cbn; lia).
  assert (H2 : NoDup (cache_keys two_entries)) by apply two_entries_ok.
  split; [exact H1|]. split; [exact H2|].
  exact (cache_stays_in_order "C" 3 two_entries H1 H2).
Defined.

(** An instance of X3: with [A] and [B] in a cache for two, writing [C]
    drops [A]. *)
Lemma cache_evicts_oldest_witness :
  1 ≤ CacheDict.cache_len two_entries
  ∧ cache_ok two_entries
  ∧ CacheDict.__contains__ "C" two_entries = false
  ∧ CacheDict.items (CacheDict.__setitem__ "C" 3 two_entries).1
    = ((if decide (Z.of_nat (length (CacheDict.items two_entries))
                   = CacheDict.cache_len two_entries)
        then tail (CacheDict.items two_entries)
        else CacheDict.items two_entries) ++ [("C", 3)])%list.
Proof.
  assert (H1 : 1 ≤ CacheDict.cache_len two_entries) by (cbn; lia).
  assert (H3 : CacheDict.__contains__ "C" two_entries = false) by reflexivity.
  split; [exact H1|]. split; [exact two_entries_ok|]. split; [exact H3|].
  exact (cache_evicts_oldest "C" 3 two_entries H1 two_entries_ok H3).
Defined.

(** An instance of X4: after [A] is read, writing [C] drops [B], not
    [A]. *)
Lemma cache_read_key_survives_witness :
  2 ≤ CacheDict.cache_len two_entries
  ∧ CacheDict.__contains__ "A" two_entries = true
  ∧ "C" ≠ "A"
  ∧ CacheDict.__contains__
      "A" (CacheDict.__setitem__
             "C" 3 (CacheDict.__getitem__ "A" two_entries).1).1 = true.
Proof.
  assert (H1 : 2 ≤ CacheDict.cache_len two_entries) by (cbn; lia).
  assert (H2 : CacheDict.__contains__ "A" two_entries = true) by reflexivity.
  assert (H3 : "C" ≠ "A") by discriminate.
  split; [exact H1|]. split; [exact H2|]. split; [exact H3|].
  exact (cache_read_key_survives "A" "C" 3 two_entries H1 H2 H3).
Defined.

(** An instance of X5: the default limiter and a first request. *)
Lemma limiter_memory_bound_witness :
  0 ≤ CacheDict.cache_len (RateLimiter.counter default_limiter)
  ∧ Z.of_nat (length (RateLimiter.tracked default_limiter))
    ≤ CacheDict.cache_len (RateLimiter.counter default_limiter)
  ∧ Z.of_nat (length (RateLimiter.tracked
                        (RateLimiter.insert (client 1) now default_limiter).1))
    ≤ CacheDict.cache_len (RateLimiter.counter default_limiter).
Proof.
  assert (H1 : 0 ≤ CacheDict.cache_len (RateLimiter.counter default_limiter))
    by (cbn; lia).
  assert (H2 : Z.of_nat (length (RateLimiter.tracked default_limiter))
               ≤ CacheDict.cache_len (RateLimiter.counter default_limiter))
    by (cbn; lia).
  split; [exact H1|]. split; [exact H2|].
  exact (proj1 (limiter_memory_bound (client 1) now default_limiter H1 H2)).
Defined.

(** ** The rolling counter *)

Lemma pop_excess_drops (bins : Z) (counts : list Z) :
  0 ≤ bins →
  RollingCounter.pop_excess bins counts
  = (drop (length counts - Z.to_nat bins) counts, Return tt).
Proof.
  intros Hb. induction counts as [|c counts IH].
  - simpl. destruct (Z.gtb_spec 0 bins); [lia | done].
  - cbn [RollingCounter.pop_excess].
    destruct (Z.gtb_spec (Z.of_nat (length (c :: counts))) bins) as [Hgt|Hle].
    + rewrite IH. simpl length in *.
      replace (S (length counts) - Z.to_nat bins)%nat
        with (S (length counts - Z.to_nat bins)) by lia.
      done.
    + simpl length in *.
      replace (S (length counts) - Z.to_nat bins)%nat with 0%nat by lia.
      done.
Qed.

Lemma bump_last_some (counts : list Z) :
  counts ≠ [] →
  ∃ counts', RollingCounter.bump_last counts = Some counts'
             ∧ length counts' = length counts
             ∧ RollingCounter.sum counts' = RollingCounter.sum counts + 1.
Proof.
  induction counts as [|c counts IH]; [done|]. intros _.
  destruct counts as [|c' counts].
  - exists [c + 1]. split_and!; [done | done |].
    unfold RollingCounter.sum. cbn [fold_right]. lia.
  - destruct IH as (counts' & Hb & Hl & Hs); [done|].
    exists (c :: counts'). cbn [RollingCounter.bump_last].
    cbn [RollingCounter.bump_last] in Hb. rewrite Hb.
    split_and!; [done | simpl in *; lia |].
    unfold RollingCounter.sum in *. cbn [fold_right] in *. lia.
Qed.

Lemma bump_last_snoc (counts : list Z) (c : Z) :
  RollingCounter.bump_last (counts ++ [c]) = Some (counts ++ [c + 1])%list.
Proof.
  induction counts as [|c' counts IH]; [done|].
  simpl app. destruct (counts ++ [c])%list as [|x xs] eqn:E.
  { by destruct counts. }
  change (RollingCounter.bump_last (c' :: x :: xs))
    with (cons c' <$> RollingCounter.bump_last (x :: xs)).
  by rewrite IH.
Qed.

(** X6.  A call of [increment] that returns gives back the sum of the
    bins it retains; that sum is also what [value()] returns afterwards.
    The bin width and the number of bins are never changed, whether the
    call returns or raises. *)
Theorem increment_returns_sum (ms : Z) (rc rc' : RollingCounter.t) (n : Z) :
  RollingCounter.increment ms rc = (rc', Return n) →
  n = RollingCounter.sum (RollingCounter._counts rc')
  ∧ RollingCounter.value rc' = n
  ∧ RollingCounter._counts rc' ≠ []
  ∧ RollingCounter.interval_ms rc' = RollingCounter.interval_ms rc
  ∧ RollingCounter._bins rc' = RollingCounter._bins rc.
Proof.
  unfold RollingCounter.increment.
  destruct (RollingCounter.interval_ms rc =? 0); [done|].
  destruct (RollingCounter.roll _ rc) as [rc1 [[]|e]] eqn:Hroll; [|done].
  assert (Hsame : RollingCounter.interval_ms rc1 = RollingCounter.interval_ms rc
                  ∧ RollingCounter._bins rc1 = RollingCounter._bins rc).
  { unfold RollingCounter.roll in Hroll.
    destruct (negb _); [|by injection Hroll as <-].
    destruct (_ >? _); [by injection Hroll as <-|].
    destruct (RollingCounter.pop_excess _ _) as [cs [[]|e]];
      by injection Hroll as <-. }
  destruct (RollingCounter.bump_last (RollingCounter._counts rc1))
    as [counts|] eqn:Hbump; [|done].
  intros [= <- <-].
  cbn [RollingCounter._counts RollingCounter._count RollingCounter.value
       RollingCounter.with_count RollingCounter.with_counts
       RollingCounter.interval_ms RollingCounter._bins].
  destruct Hsame as [Hs1 Hs2].
  split; [done|]. split; [done|]. split; [|by split].
  intros ->. destruct (RollingCounter._counts rc1) as [|c cs]; [done|].
  destruct (bump_last_some (c :: cs) ltac:(done)) as (cs' & Hb' & Hl & _).
  rewrite Hbump in Hb'. by injection Hb' as <-.
Qed.

(** X7.  The counter never keeps more than [bins] bins: if it holds at
    most [bins] counts (and [bins] is at least 1), it still does after
    [increment], whatever the clock reads and whether the call returns or
    raises. *)
Theorem increment_bounded_bins (ms : Z) (rc : RollingCounter.t) :
  1 ≤ RollingCounter._bins rc →
  Z.of_nat (length (RollingCounter._counts rc)) ≤ RollingCounter._bins rc →
  Z.of_nat (length (RollingCounter._counts (RollingCounter.increment ms rc).1))
  ≤ RollingCounter._bins rc.
Proof.
  intros Hb Hlen. unfold RollingCounter.increment.
  destruct (RollingCounter.interval_ms rc =? 0); [done|].
  unfold RollingCounter.roll.
  destruct (negb _).
  - destruct (_ >? _).
    + cbn. lia.
    + rewrite pop_excess_drops by lia.
      set (cs := drop _ _).
      assert (Hcs : Z.of_nat (length cs) ≤ RollingCounter._bins rc).
      { subst cs. rewrite length_drop, length_app. simpl. lia. }
      cbn [RollingCounter._counts RollingCounter.with_index
           RollingCounter.with_counts].
      destruct (RollingCounter.bump_last cs) as [cs'|] eqn:Hbump; [|by cbn].
      cbn. destruct cs as [|c cs0]; [done|].
      destruct (bump_last_some (c :: cs0) ltac:(done)) as (cs'' & Hb' & Hl & _).
      rewrite Hbump in Hb'. injection Hb' as <-. rewrite Hl. exact Hcs.
  - destruct (RollingCounter.bump_last (RollingCounter._counts rc))
      as [cs'|] eqn:Hbump; [|by cbn].
    cbn. destruct (RollingCounter._counts rc) as [|c cs0] eqn:E; [done|].
    destruct (bump_last_some (c :: cs0) ltac:(done)) as (cs'' & Hb' & Hl & _).
    rewrite Hbump in Hb'. injection Hb' as <-. rewrite Hl. exact Hlen.
Qed.

(** X8.  With a bin width other than 0 and at least one bin, [increment]
    raises in one case only: the clock is in the bin of the stored index
    and no count exists yet, as for a new counter used during the first
    bin after the epoch.  It then raises [IndexError] and leaves the
    counter as it was. *)
Theorem increment_raises_iff (ms : Z) (rc : RollingCounter.t) :
  RollingCounter.interval_ms rc ≠ 0 →
  1 ≤ RollingCounter._bins rc →
  ((∃ e, (RollingCounter.increment ms rc).2 = Raise e)
   ↔ ms / RollingCounter.interval_ms rc = RollingCounter._current_index rc
     ∧ RollingCounter._counts rc = [])
  ∧ (ms / RollingCounter.interval_ms rc = RollingCounter._current_index rc →
     RollingCounter._counts rc = [] →
     RollingCounter.increment ms rc = (rc, Raise IndexError)).
Proof.
  intros Hi Hb. unfold RollingCounter.increment, RollingCounter.roll.
  apply Z.eqb_neq in Hi. rewrite Hi.
  destruct (Z.eqb_spec (ms / RollingCounter.interval_ms rc)
                       (RollingCounter._current_index rc)) as [Heq|Hne];
    cbn [negb].
  - destruct (RollingCounter._counts rc) as [|c cs] eqn:E.
    + cbn. split; [|done]. split; [done | by eexists].
    + destruct (bump_last_some (c :: cs) ltac:(done)) as (cs' & -> & _).
      cbn. split; [|done]. split; [by intros [e ?] | by intros [_ ?]].
  - split; [|done]. split; [|by intros [? _]]. intros [e He]. exfalso.
    destruct (_ >? _); [by cbn in He|].
    rewrite pop_excess_drops in He by lia.
    rewrite length_app in He. simpl length in He.
    rewrite drop_app_le in He by lia.
    cbn [RollingCounter._counts RollingCounter.with_index
         RollingCounter.with_counts] in He.
    rewrite bump_last_snoc in He. by cbn in He.
Qed.

(** X9.  A call in the bin of the stored index, once a count exists, adds
    one to the latest bin: it returns the sum of the bins plus one and
    keeps the stored index and the number of counts. *)
Theorem increment_same_bin (ms : Z) (rc : RollingCounter.t) :
  RollingCounter.interval_ms rc ≠ 0 →
  ms / RollingCounter.interval_ms rc = RollingCounter._current_index rc →
  RollingCounter._counts rc ≠ [] →
  let rc' := (RollingCounter.increment ms rc).1 in
  (RollingCounter.increment ms rc).2
  = Return (RollingCounter.sum (RollingCounter._counts rc) + 1)
  ∧ RollingCounter._current_index rc' = RollingCounter._current_index rc
  ∧ length (RollingCounter._counts rc') = length (RollingCounter._counts rc).
Proof.
  intros Hi Heq Hne. unfold RollingCounter.increment, RollingCounter.roll.
  apply Z.eqb_neq in Hi. rewrite Hi, Heq, Z.eqb_refl. cbn [negb].
  destruct (bump_last_some _ Hne) as (cs' & -> & Hl & Hs).
  cbn [fst snd RollingCounter._counts RollingCounter._count
       RollingCounter._current_index RollingCounter.with_count
       RollingCounter.with_counts].
  by rewrite Hs, Hl.
Qed.

(** X10.  A call in another bin that is at most [bins] bins ahead of the
    stored index (or behind it) opens one new bin, however many bins the
    clock has moved: the counts become the old ones followed by 1, cut
    down from the front to [bins] entries, the stored index becomes the
    bin of the clock, and the sum of the new counts is returned. *)
Theorem increment_next_bin (ms : Z) (rc : RollingCounter.t) :
  RollingCounter.interval_ms rc ≠ 0 →
  1 ≤ RollingCounter._bins rc →
  ms / RollingCounter.interval_ms rc ≠ RollingCounter._current_index rc →
  ms / RollingCounter.interval_ms rc - RollingCounter._current_index rc
  ≤ RollingCounter._bins rc →
  let counts :=
    drop (length (RollingCounter._counts rc) + 1
          - Z.to_nat (RollingCounter._bins rc))
         (RollingCounter._counts rc ++ [1]) in
  RollingCounter.increment ms rc
  = (RollingCounter.mk (RollingCounter.interval_ms rc)
                       (ms / RollingCounter.interval_ms rc)
                       (RollingCounter._bins rc) counts
                       (RollingCounter.sum counts),
     Return (RollingCounter.sum counts)).
Proof.
  intros Hi Hb Hne Hnear counts.
  unfold RollingCounter.increment, RollingCounter.roll.
  apply Z.eqb_neq in Hi, Hne. rewrite Hi, Hne. cbn [negb].
  destruct (Z.gtb_spec (ms / RollingCounter.interval_ms rc
                        - RollingCounter._current_index rc)
                       (RollingCounter._bins rc)); [lia|].
  rewrite pop_excess_drops by lia.
  rewrite length_app. simpl length.
  rewrite drop_app_le by lia.
  cbn [RollingCounter._counts RollingCounter.with_index
       RollingCounter.with_counts].
  rewrite bump_last_snoc. subst counts.
  rewrite drop_app_le by lia. done.
Qed.

(** X11.  Once the clock is more than [bins] bins ahead of the stored
    index, [increment] starts afresh and returns 1 without moving the
    stored index; so another call at the same or a later clock reading
    returns 1 again, and so on: the count never passes 1. *)
Theorem increment_stuck_at_one (ms ms' : Z) (rc : RollingCounter.t) :
  0 < RollingCounter.interval_ms rc →
  0 ≤ RollingCounter._bins rc →
  RollingCounter._bins rc
  < ms / RollingCounter.interval_ms rc - RollingCounter._current_index rc →
  ms ≤ ms' →
  let restarted :=
    RollingCounter.mk (RollingCounter.interval_ms rc)
                      (RollingCounter._current_index rc)
                      (RollingCounter._bins rc) [1] 1 in
  RollingCounter.increment ms rc = (restarted, Return 1)
  ∧ RollingCounter.increment ms' restarted = (restarted, Return 1).
Proof.
  intros Hi Hb Hfar Hle restarted.
  assert (Hstart : ∀ t (c : RollingCounter.t),
             RollingCounter.interval_ms c = RollingCounter.interval_ms rc →
             RollingCounter._current_index c = RollingCounter._current_index rc →
             RollingCounter._bins c = RollingCounter._bins rc →
             ms ≤ t →
             RollingCounter.increment t c = (restarted, Return 1)).
  { intros t c Hci Hcc Hcb Ht.
    unfold RollingCounter.increment, RollingCounter.roll.
    rewrite Hci, Hcc, Hcb.
    destruct (Z.eqb_spec (RollingCounter.interval_ms rc) 0); [lia|].
    assert (ms / RollingCounter.interval_ms rc
            ≤ t / RollingCounter.interval_ms rc)
      by (apply Z.div_le_mono; lia).
    destruct (Z.eqb_spec (t / RollingCounter.interval_ms rc)
                         (RollingCounter._current_index rc)); [lia|].
    cbn [negb].
    destruct (Z.gtb_spec (t / RollingCounter.interval_ms rc
                          - RollingCounter._current_index rc)
                         (RollingCounter._bins rc)); [|lia].
    unfold restarted, RollingCounter.with_counts, RollingCounter.with_count.
    cbn. by rewrite ?Hci, ?Hcc, ?Hcb. }
  split; [apply Hstart; (done || lia) | apply Hstart; done].
Qed.

(** An instance of X6. *)
Lemma increment_returns_sum_witness :
  RollingCounter.increment 20000 counter_in_bin_1
  = (RollingCounter.mk 15000 1 4 [2; 4] 6, Return 6)
  ∧ 6 = RollingCounter.sum [2; 4]
  ∧ RollingCounter.value (RollingCounter.mk 15000 1 4 [2; 4] 6) = 6.
Proof.
  assert (H : RollingCounter.increment 20000 counter_in_bin_1
              = (RollingCounter.mk 15000 1 4 [2; 4] 6, Return 6))
    by reflexivity.
  split; [exact H|].
  destruct (increment_returns_sum 20000 counter_in_bin_1 _ 6 H)
    as (H1 & H2 & _).
  split; [exact H1 | exact H2].
Defined.

(** An instance of X7. *)
Lemma increment_bounded_bins_witness :
  1 ≤ RollingCounter._bins counter_in_bin_1
  ∧ Z.of_nat (length (RollingCounter._counts counter_in_bin_1))
    ≤ RollingCounter._bins counter_in_bin_1
  ∧ Z.of_nat (length (RollingCounter._counts
                        (RollingCounter.increment 95000 counter_in_bin_1).1))
    ≤ RollingCounter._bins counter_in_bin_1.
Proof.
  assert (H1 : 1 ≤ RollingCounter._bins counter_in_bin_1) by (cbn; lia).
  assert (H2 : Z.of_nat (length (RollingCounter._counts counter_in_bin_1))
               ≤ RollingCounter._bins counter_in_bin_1) by (cbn; lia).
  split; [exact H1|]. split; [exact H2|].
  exact (increment_bounded_bins 95000 counter_in_bin_1 H1 H2).
Defined.

(** An instance of X8: a new counter, ten milliseconds after the epoch. *)
Lemma increment_raises_iff_witness :
  RollingCounter.interval_ms new_counter ≠ 0
  ∧ 1 ≤ RollingCounter._bins new_counter
  ∧ 10 / RollingCounter.interval_ms new_counter
    = RollingCounter._current_index new_counter
  ∧ RollingCounter._counts new_counter = []
  ∧ RollingCounter.increment 10 new_counter = (new_counter, Raise IndexError).
Proof.
  assert (H1 : RollingCounter.interval_ms new_counter ≠ 0) by (cbn; lia).
  assert (H2 : 1 ≤ RollingCounter._bins new_counter) by (cbn; lia).
  assert (H3 : 10 / RollingCounter.interval_ms new_counter
               = RollingCounter._current_index new_counter) by reflexivity.
  assert (H4 : RollingCounter._counts new_counter = []) by reflexivity.
  split; [exact H1|]. split; [exact H2|]. split; [exact H3|].
  split; [exact H4|].
  exact (proj2 (increment_raises_iff 10 new_counter H1 H2) H3 H4).
Defined.

(** An instance of X9. *)
Lemma increment_same_bin_witness :
  RollingCounter.interval_ms counter_in_bin_1 ≠ 0
  ∧ 20000 / RollingCounter.interval_ms counter_in_bin_1
    = RollingCounter._current_index counter_in_bin_1
  ∧ RollingCounter._counts counter_in_bin_1 ≠ []
  ∧ (RollingCounter.increment 20000 counter_in_bin_1).2
    = Return (RollingCounter.sum (RollingCounter._counts counter_in_bin_1) + 1).
Proof.
  assert (H1 : RollingCounter.interval_ms counter_in_bin_1 ≠ 0) by (cbn; lia).
  assert (H2 : 20000 / RollingCounter.interval_ms counter_in_bin_1
               = RollingCounter._current_index counter_in_bin_1)
    by reflexivity.
  assert (H3 : RollingCounter._counts counter_in_bin_1 ≠ []) by discriminate.
  split; [exact H1|]. split; [exact H2|]. split; [exact H3|].
  exact (proj1 (increment_same_bin 20000 counter_in_bin_1 H1 H2 H3)).
Defined.

(** An instance of X10: from bin 1 to bin 4, three bins later, one bin is
    opened. *)
Lemma increment_next_bin_witness :
  RollingCounter.interval_ms counter_in_bin_1 ≠ 0
  ∧ 1 ≤ RollingCounter._bins counter_in_bin_1
  ∧ 65000 / RollingCounter.interval_ms counter_in_bin_1
    ≠ RollingCounter._current_index counter_in_bin_1
  ∧ 65000 / RollingCounter.interval_ms counter_in_bin_1
    - RollingCounter._current_index counter_in_bin_1
    ≤ RollingCounter._bins counter_in_bin_1
  ∧ RollingCounter.increment 65000 counter_in_bin_1
    = (RollingCounter.mk 15000 4 4 [2; 3; 1] 6, Return 6).
Proof.
  assert (H1 : RollingCounter.interval_ms counter_in_bin_1 ≠ 0) by (cbn; lia).
  assert (H2 : 1 ≤ RollingCounter._bins counter_in_bin_1) by (cbn; lia).
  assert (H3 : 65000 / RollingCounter.interval_ms counter_in_bin_1
               ≠ RollingCounter._current_index counter_in_bin_1)
    by (vm_compute; discriminate).
  assert (H4 : 65000 / RollingCounter.interval_ms counter_in_bin_1
               - RollingCounter._current_index counter_in_bin_1
               ≤ RollingCounter._bins counter_in_bin_1)
    by (vm_compute; discriminate).
  split; [exact H1|]. split; [exact H2|]. split; [exact H3|].
  split; [exact H4|].
  exact (increment_next_bin 65000 counter_in_bin_1 H1 H2 H3 H4).
Defined.

(** An instance of X11: a new counter at a present-day clock reading. *)
Lemma increment_stuck_at_one_witness :
  0 < RollingCounter.interval_ms new_counter
  ∧ 0 ≤ RollingCounter._bins new_counter
  ∧ RollingCounter._bins new_counter
    < now / RollingCounter.interval_ms new_counter
      - RollingCounter._current_index new_counter
  ∧ now ≤ now + 1
  ∧ RollingCounter.increment now new_counter
    = (RollingCounter.mk 15000 0 4 [1] 1, Return 1)
  ∧ RollingCounter.increment (now + 1) (RollingCounter.mk 15000 0 4 [1] 1)
    = (RollingCounter.mk 15000 0 4 [1] 1, Return 1).
Proof.
  assert (H1 : 0 < RollingCounter.interval_ms new_counter) by (cbn; lia).
  assert (H2 : 0 ≤ RollingCounter._bins new_counter) by (cbn; lia).
  assert (H3 : RollingCounter._bins new_counter
               < now / RollingCounter.interval_ms new_counter
                 - RollingCounter._current_index new_counter)
    by (vm_compute; reflexivity).
  assert (H4 : now ≤ now + 1) by lia.
  split; [exact H1|]. split; [exact H2|]. split; [exact H3|].
  split; [exact H4|].
  exact (increment_stuck_at_one now (now + 1) new_counter H1 H2 H3 H4).
Defined.

Lemma token_names_cons_token (part : string) (parts : list string) :
  Router.is_token part = true →
  token_names (part :: parts) = token_name part :: token_names parts.
Proof. intros H. unfold token_names. cbn [List.filter]. by rewrite H. Qed.

Lemma token_names_cons_literal (part : string) (parts : list string) :
  Router.is_token part = false →
  token_names (part :: parts) = token_names parts.
Proof. intros H. unfold token_names. cbn [List.filter]. by rewrite H. Qed.

Lemma compile_parts_tokens (pattern : string) (parts : list string) :
  ∀ (tokens : list string) (re_str : string) (final : bool)
    (re_str' : string) (tokens' : list string),
    Router.compile_parts pattern parts tokens re_str final
    = Return (re_str', tokens') →
    tokens' = (tokens ++ token_names parts)%list.
Proof.
  induction parts as [|part parts IH];
    intros tokens re_str final re_str' tokens' Hrun; simpl in Hrun.
  - injection Hrun as _ <-. unfold token_names. simpl. by rewrite app_nil_r.
  - destruct (Router.is_token part) eqn:Htok.
    + rewrite (token_names_cons_token _ _ Htok).
      unfold token_name, Router.suffix_of.
      destruct (last_char part) as [c|]; [|done].
      destruct (Ascii.eqb c "?").
      { destruct final; [done|]. apply IH in Hrun. subst.
        by rewrite <- app_assoc. }
      destruct (Ascii.eqb c "*").
      { destruct final; [done|]. apply IH in Hrun. subst.
        by rewrite <- app_assoc. }
      destruct (Ascii.eqb c "+").
      { destruct final; [done|]. apply IH in Hrun. subst.
        by rewrite <- app_assoc. }
      apply IH in Hrun. subst. by rewrite <- app_assoc.
    + rewrite (token_names_cons_literal _ _ Htok). by apply IH in Hrun.
Qed.

Lemma template_parts_tokens (parts : list string) :
  Forall (λ part : string, part ≠ "") parts →
  ∀ (tokens : list string) (template : string) (required : Z),
    ∃ (template' : string) (required' : Z),
      Router.template_parts parts tokens template required
      = Return (template', (tokens ++ token_names parts)%list, required')
      ∧ required ≤ required'
        ≤ required + Z.of_nat (length (token_names parts)).
Proof.
  induction 1 as [|part parts Hne _ IH]; intros tokens template required.
  - exists template, required. unfold token_names. simpl.
    rewrite app_nil_r. split; [done | lia].
  - simpl. destruct (Router.is_token part) eqn:Htok.
    + rewrite (token_names_cons_token _ _ Htok).
      unfold token_name, Router.suffix_of.
      destruct (last_char_nonempty part Hne) as [c ->].
      destruct (Ascii.eqb c "?"); cbn [orb].
      { destruct (IH (tokens ++ [drop_last (drop_first part)])%list
                     (template +:+ "/{" +:+ drop_last (drop_first part) +:+ "}")
                     required) as (t' & r' & -> & Hr).
        exists t', r'. rewrite <- app_assoc. split; [done|]. cbn [length]. lia. }
      destruct (Ascii.eqb c "*"); cbn [orb].
      { destruct (IH (tokens ++ [drop_last (drop_first part)])%list
                     (template +:+ "/{" +:+ drop_last (drop_first part) +:+ "}")
                     required) as (t' & r' & -> & Hr).
        exists t', r'. rewrite <- app_assoc. split; [done|]. cbn [length]. lia. }
      destruct (Ascii.eqb c "+").
      { destruct (IH (tokens ++ [drop_last (drop_first part)])%list
                     (template +:+ "/{" +:+ drop_last (drop_first part) +:+ "}")
                     (required + 1)) as (t' & r' & -> & Hr).
        exists t', r'. rewrite <- app_assoc. split; [done|]. cbn [length]. lia. }
      destruct (IH (tokens ++ [drop_first part])%list
                   (template +:+ "/{" +:+ drop_first part +:+ "}")
                   (required + 1)) as (t' & r' & -> & Hr).
      exists t', r'. rewrite <- app_assoc. split; [done|]. cbn [length]. lia.
    + rewrite (token_names_cons_literal _ _ Htok). apply IH.
Qed.

(** X12.  [patternToTemplate] returns for every pattern, also for those
    [patternToRegex] rejects; the number of required tokens it reports lies
    between 0 and the number of tokens; and whenever [patternToRegex] gets
    as far as a regular expression, both report the same token names in the
    same order. *)
Theorem template_tokens_agree_with_regex (pattern : string) :
  ∃ (template : string) (tokens : list string) (required : Z),
    Router.patternToTemplate pattern = Return (template, tokens, required)
    ∧ 0 ≤ required ≤ Z.of_nat (length tokens)
    ∧ ∀ (re_str : string) (tokens' : list string),
        Router.regex_text pattern = Return (re_str, tokens') →
        tokens' = tokens.
Proof.
  destruct (template_parts_tokens _ (parts_of_nonempty pattern) [] "" 0)
    as (template & required & Hrun & Hreq).
  exists template, (token_names (Router.parts_of pattern)), required.
  split; [exact Hrun|]. split; [simpl in Hreq; lia|].
  intros re_str tokens'. unfold Router.regex_text.
  destruct (Router.compile_parts pattern (Router.parts_of pattern) [] "^" false)
    as [[s toks]|e] eqn:Hc; [|done].
  intros [= _ <-]. by apply compile_parts_tokens in Hc.
Qed.
Lemma str_app_assoc (a b c : string) : (a +:+ b) +:+ c = a +:+ (b +:+ c).
Proof.
  induction a as [|x a IH]; [done|].
  change (String x ((a +:+ b) +:+ c) = String x (a +:+ (b +:+ c))).
  by rewrite IH.
Qed.

Lemma str_app_empty (a : string) : a +:+ "" = a.
Proof.
  induction a as [|x a IH]; [done|].
  change (String x (a +:+ "") = String x a). by rewrite IH.
Qed.

(** The loop only appends to the text: nothing, or three characters at
    least. *)
Lemma compile_parts_grows (pattern : string) (parts : list string) :
  Forall (λ part : string, part ≠ "") parts →
  ∀ (tokens : list string) (re_str : string) (final : bool)
    (re_str' : string) (tokens' : list string),
    Router.compile_parts pattern parts tokens re_str final
    = Return (re_str', tokens') →
    ∃ tail : string,
      re_str' = re_str +:+ tail
      ∧ (tail = "" ∨ (3 ≤ String.length tail)%nat).
Proof.
  induction 1 as [|part parts Hne _ IH];
    intros tokens re_str final re_str' tokens' Hrun; simpl in Hrun.
  - injection Hrun as <- _. exists "". by rewrite str_app_empty; auto.
  - assert (Hgrow : ∀ (frag : string) tokens1 final1,
               (3 ≤ String.length frag)%nat →
               Router.compile_parts pattern parts tokens1 (re_str +:+ frag)
                                    final1 = Return (re_str', tokens') →
               ∃ tail : string,
                 re_str' = re_str +:+ tail
                 ∧ (tail = "" ∨ (3 ≤ String.length tail)%nat)).
    { intros frag tokens1 final1 Hlen Hrun1.
      apply IH in Hrun1 as (tail & -> & Htail).
      exists (frag +:+ tail). rewrite str_app_assoc. split; [done|].
      right. rewrite str_length_app. lia. }
    destruct (Router.is_token part).
    + destruct (last_char part) as [c|]; [|done].
      destruct (Ascii.eqb c "?").
      { destruct final; [done|]. eapply Hgrow; [|exact Hrun]. simpl; lia. }
      destruct (Ascii.eqb c "*").
      { destruct final; [done|]. eapply Hgrow; [|exact Hrun]. simpl; lia. }
      destruct (Ascii.eqb c "+").
      { destruct final; [done|]. eapply Hgrow; [|exact Hrun]. simpl; lia. }
      eapply Hgrow; [|exact Hrun]. simpl; lia.
    + eapply (Hgrow ("\/" +:+ part)); [|exact Hrun].
      destruct part; [done | simpl; lia].
Qed.

(** X13.  The text [patternToRegex] hands to [re.compile] always starts
    with [^] and ends in an optional slash before [$]: the comparison of
    the text with [^\/] that would leave the slash out never holds.  The
    only exception the loop raises is [ValueError(pattern)]. *)
Theorem regex_text_always_optional_slash (pattern : string) :
  match Router.regex_text pattern with
  | Return (re_str, _) => ∃ body : string, re_str = "^" +:+ body +:+ "\/?$"
  | Raise e => e = ValueError pattern
  end.
Proof.
  unfold Router.regex_text.
  destruct (Router.compile_parts pattern (Router.parts_of pattern) [] "^" false)
    as [[re_str toks]|e] eqn:Hrun.
  - destruct (compile_parts_grows pattern _ (parts_of_nonempty pattern)
                                  _ _ _ _ _ Hrun) as (tail & -> & Htail).
    assert (Hne : String.eqb ("^" +:+ tail) "^\/" = false).
    { apply String.eqb_neq. intros Heq.
      destruct Htail as [->|Hlen]; [done|].
      apply (f_equal String.length) in Heq.
    rewrite str_length_app in Heq. simpl in Heq. lia. }
    rewrite Hne. cbn [negb]. exists tail.
    by rewrite !str_app_assoc.
  - destruct (compile_parts_outcome pattern _ (parts_of_nonempty pattern)
                                    [] "^" false) as [Hret Hraise].
    destruct (decide (greedy_count (Router.parts_of pattern) + 0 ≤ 1)%nat)
      as [Hc|Hc].
    + destruct (Hret Hc) as [r Hr]. by rewrite Hr in Hrun.
    + rewrite Hraise in Hrun by lia. by injection Hrun as <-.
Qed.

(** What the loop makes of plain segments: the parser has read exactly
    their items, and opened one group for each token. *)
Lemma compile_parts_items (pattern : string) (parts : list string) :
  Forall (λ part : string,
            part ≠ "" ∧ (Router.is_token part || plain_literal part) = true)
         parts →
  ∀ (tokens : list string) (re_str : string) (final : bool)
    (re_str' : string) (tokens' : list string) (sq : list re.regex) (g : nat),
    Router.compile_parts pattern parts tokens re_str final
    = Return (re_str', tokens') →
    re.parse_from (re.POk re.initial) (chars re_str)
    = re.POk (re.mkp re.MNormal sq [] [] g) →
    re.parse_from (re.POk re.initial) (chars re_str')
    = re.POk (re.mkp re.MNormal (rev (pattern_items g parts) ++ sq) [] []
                     (g + length (token_names parts))).
Proof.
  induction 1 as [|part parts [Hne Hok] _ IH];
    intros tokens re_str final re_str' tokens' sq g Hrun Hparse.
  - simpl in Hrun. injection Hrun as <- <-. simpl.
    by rewrite Nat.add_0_r.
  - simpl in Hrun. cbn [pattern_items].
    destruct (Router.is_token part) eqn:Htok.
    + rewrite (token_names_cons_token _ _ Htok). cbn [length].
      destruct (last_char_nonempty part Hne) as [c Hc].
      rewrite Hc in Hrun |- *.
      destruct (Ascii.eqb c "?").
      { destruct final; [done|].
        rewrite (IH _ _ _ _ _ (item_optional (S g) :: sq) (S g) Hrun).
        - cbn [rev]. rewrite <- app_assoc. do 2 f_equal. lia.
        - by rewrite parse_text_app, Hparse, parse_re_optional. }
      destruct (Ascii.eqb c "*").
      { destruct final; [done|].
        rewrite (IH _ _ _ _ _ (item_star (S g) :: sq) (S g) Hrun).
        - cbn [rev]. rewrite <- app_assoc. do 2 f_equal. lia.
        - by rewrite parse_text_app, Hparse, parse_re_star. }
      destruct (Ascii.eqb c "+").
      { destruct final; [done|].
        rewrite (IH _ _ _ _ _ (item_plus (S g) :: re.Opt (re.Chr "/") :: sq)
                    (S g) Hrun).
        - cbn [rev]. rewrite <- !app_assoc. do 2 f_equal. lia.
        - by rewrite parse_text_app, Hparse, parse_re_plus. }
      rewrite (IH _ _ _ _ _ (item_plain (S g) :: re.Chr "/" :: sq)
                  (S g) Hrun).
      * cbn [rev]. rewrite <- !app_assoc. do 2 f_equal. lia.
      * by rewrite parse_text_app, Hparse, parse_re_plain.
    + rewrite (token_names_cons_literal _ _ Htok). simpl in Hok.
      rewrite (IH _ _ _ _ _ (rev (re.Chr <$> chars part) ++ re.Chr "/" :: sq)%list
                  g Hrun).
      * f_equal. rewrite rev_app_distr. cbn [rev].
        by rewrite <- !app_assoc.
      * rewrite !parse_text_app, Hparse, parse_slash.
        by apply parse_plain_literal.
Qed.

(** What [patternToRegex] returns for a plain pattern. *)
Lemma plain_pattern_ast (pattern : string) (p : re.Pattern)
      (tokens : list string) :
  plain_pattern pattern = true →
  Router.patternToRegex pattern = Some (Return (p, tokens)) →
  tokens = token_names (Router.parts_of pattern)
  ∧ p = re.mkpat
          (re.seq_of (re.Bol :: pattern_items 0 (Router.parts_of pattern)
                        ++ [re.Opt (re.Chr "/"); re.Eol]))
          (length tokens).
Proof.
  intros Hplain Hp.
  unfold Router.patternToRegex, Router.regex_text in Hp.
  destruct (Router.compile_parts pattern (Router.parts_of pattern) [] "^" false)
    as [[re_str toks]|e] eqn:Hrun; [|done].
  pose proof (compile_parts_tokens _ _ _ _ _ _ _ Hrun) as Htoks.
  simpl in Htoks. subst toks.
  pose proof (compile_parts_items pattern _ (plain_parts pattern Hplain)
                [] "^" false re_str _ [re.Bol] 0%nat Hrun eq_refl) as Hparse.
  destruct (compile_parts_grows pattern _ (parts_of_nonempty pattern)
                                _ _ _ _ _ Hrun) as (tail & -> & Htail).
  assert (Hne : String.eqb ("^" +:+ tail) "^\/" = false).
  { apply String.eqb_neq. intros Heq.
    destruct Htail as [->|Hlen]; [done|].
    apply (f_equal String.length) in Heq.
    rewrite str_length_app in Heq. simpl in Heq. lia. }
  rewrite Hne in Hp. cbn [negb] in Hp. unfold re.compile in Hp.
  rewrite 2!parse_text_app, Hparse, parse_optional_slash, parse_dollar in Hp.
  cbn [re.finish re.p_mode re.p_stack] in Hp.
  injection Hp as <- <-. split; [done|].
  unfold re.branches.
  cbn [re.p_seq re.p_alts re.p_groups re.ast rev app re.alt_of].
  rewrite !rev_app_distr, rev_involutive. cbn [rev app].
  by rewrite <- app_assoc.
Qed.
Lemma dict_of_pairs_keys (pairs : list (string * option string))
      (m : gmap string (option string)) (k : string) :
  is_Some (fold_left (λ m kv, <[kv.1 := kv.2]> m) pairs m !! k)
  ↔ k ∈ pairs.*1 ∨ is_Some (m !! k).
Proof.
  revert m. induction pairs as [|[k' v] pairs IH]; intros m; simpl.
  - split; [auto | intros [H|H]; [by apply elem_of_nil in H | done]].
  - rewrite IH, elem_of_cons.
    destruct (decide (k = k')) as [->|Hne].
    + rewrite lookup_insert_eq. split; [auto | intros _; right; eauto].
    + rewrite lookup_insert_ne by done. tauto.
Qed.

(** X14.  For a plain pattern the compiled expression has one group for
    each token: a match yields as many groups as there are tokens, and the
    dictionary [getRoute] builds from them has every token as a key, and
    no other key. *)
Theorem plain_pattern_binds_every_token (pattern path : string)
        (p : re.Pattern) (tokens : list string)
        (groups : list (option string)) :
  plain_pattern pattern = true →
  Router.patternToRegex pattern = Some (Return (p, tokens)) →
  re.match_groups p path = Some groups →
  length groups = length tokens
  ∧ ∀ k : string,
      is_Some (Router.dict_of_pairs (zip tokens groups) !! k) ↔ k ∈ tokens.
Proof.
  intros Hplain Hp Hmatch.
  destruct (plain_pattern_ast pattern p tokens Hplain Hp) as [_ ->].
  unfold re.match_groups in Hmatch. cbn [re.ast re.groups] in Hmatch.
  destruct (re.run _ _ _) as [caps|]; [|done]. injection Hmatch as <-.
  assert (Hlen : length (map (λ i, text <$> re.lookup_group i caps)
                             (seq 1 (length tokens))) = length tokens).
  { by rewrite length_map, length_seq. }
  split; [exact Hlen|]. intros k. unfold Router.dict_of_pairs.
  rewrite dict_of_pairs_keys, fst_zip by lia.
  rewrite lookup_empty. split; [intros [H|[? H]]; done | auto].
Qed.

(** An instance of X14: [/user/:id/:what] and the path [/user/7/files]. *)
Lemma plain_pattern_binds_every_token_witness :
  plain_pattern "/user/:id/:what" = true
  ∧ Router.patternToRegex "/user/:id/:what"
    = Some (Return (matcher_of "/user/:id/:what", ["id"; "what"]))
  ∧ re.match_groups (matcher_of "/user/:id/:what") "/user/7/files"
    = Some [Some "7"; Some "files"]
  ∧ length [Some "7"; Some "files"] = length ["id"; "what"]
  ∧ ∀ k : string,
      is_Some (Router.dict_of_pairs
                 (zip ["id"; "what"] [Some "7"; Some "files"]) !! k)
      ↔ k ∈ ["id"; "what"].
Proof.
  assert (H1 : plain_pattern "/user/:id/:what" = true) by reflexivity.
  assert (H2 : Router.patternToRegex "/user/:id/:what"
               = Some (Return (matcher_of "/user/:id/:what", ["id"; "what"])))
    by (vm_compute; reflexivity).
  assert (H3 : re.match_groups (matcher_of "/user/:id/:what") "/user/7/files"
               = Some [Some "7"; Some "files"]) by (vm_compute; reflexivity).
  split; [exact H1|]. split; [exact H2|]. split; [exact H3|].
  exact (plain_pattern_binds_every_token _ _ _ _ _ H1 H2 H3).
Defined.

Lemma first_match_found (rows more : list Router.entry) (path : string)
      (found : Route * gmap string (option string)) :
  Router.first_match rows path = Some found →
  Router.first_match (rows ++ more) path = Some found.
Proof.
  induction rows as [|[[re_ptn tokens] endpt] rows IH]; [done|].
  simpl. by destruct (re.match_groups re_ptn path).
Qed.

(** What [registerRoutes] leaves behind, whether it returns or raises: the
    routes up to the first one that fails ([registered]) have been added to
    [routes], and to the list of their method, each with what
    [patternToRegex] makes of its pattern; the limiter is untouched. *)
Lemma registerRoutes_rows (new_routes : list Route) :
  ∀ (r r' : Router.t) (o : Outcome unit),
    Router.registerRoutes new_routes r = Some (r', o) →
    ∃ registered : list Route,
      registered `prefix_of` new_routes
      ∧ (o = Return tt → registered = new_routes)
      ∧ Router.routes r' = (Router.routes r ++ registered)%list
      ∧ Router.limiter r' = Router.limiter r
      ∧ ∀ (m : string) (rows : list Router.entry),
          Router.route_table r !! m = Some rows →
          ∃ more : list Router.entry,
            Router.route_table r' !! m = Some (rows ++ more)%list
            ∧ more.*2 = routes_for m registered
            ∧ Forall (λ row : Router.entry,
                        Router.patternToRegex (pattern row.2)
                        = Some (Return (row.1.1, row.1.2))) more.
Proof.
  induction new_routes as [|route rest IH]; intros r r' o Hreg;
    simpl in Hreg.
  - injection Hreg as <- <-. exists []. split_and!; try done.
    + by rewrite app_nil_r.
    + intros m rows Hrows. exists []. by rewrite app_nil_r.
  - assert (Hstop : ∀ e, Some (r, Raise e) = Some (r', o) →
               ∃ registered : list Route,
                 registered `prefix_of` route :: rest
                 ∧ (o = Return tt → registered = route :: rest)
                 ∧ Router.routes r' = (Router.routes r ++ registered)%list
                 ∧ Router.limiter r' = Router.limiter r
                 ∧ ∀ (m : string) (rows : list Router.entry),
                     Router.route_table r !! m = Some rows →
                     ∃ more : list Router.entry,
                       Router.route_table r' !! m = Some (rows ++ more)%list
                       ∧ more.*2 = routes_for m registered
                       ∧ Forall (λ row : Router.entry,
                                   Router.patternToRegex (pattern row.2)
                                   = Some (Return (row.1.1, row.1.2))) more).
    { intros e [= <- <-]. exists []. split_and!; try done.
      + apply prefix_nil.
      + by rewrite app_nil_r.
      + intros m rows Hrows. exists []. by rewrite app_nil_r. }
    destruct (Router.patternToRegex (pattern route))
      as [[[regex tokens]|e]|] eqn:Hre; [| |done].
    2: { by apply (Hstop e). }
    destruct (Router.route_table r !! route_method route) as [rows0|] eqn:Hm.
    2: { by eapply Hstop. }
    apply IH in Hreg as (registered & Hpre & Hall & Hroutes & Hlim & Htab).
    cbn [Router.routes Router.limiter Router.route_table] in *.
    exists (route :: registered). split_and!.
    + by apply prefix_cons.
    + intros Ho. by rewrite (Hall Ho).
    + by rewrite Hroutes, <- app_assoc.
    + done.
    + intros m rows Hrows. unfold routes_for. cbn [List.filter].
      destruct (String.eqb_spec (route_method route) m) as [<-|Hne].
      * rewrite Hm in Hrows. injection Hrows as <-.
        destruct (Htab (route_method route)
                       (rows0 ++ [(regex, tokens, route)])%list)
          as (more & Hmore & Hsnd & Hall').
        { by rewrite lookup_insert_eq. }
        exists ((regex, tokens, route) :: more). split_and!.
        -- by rewrite Hmore, <- app_assoc.
        -- cbn [fmap list_fmap]. f_equal. exact Hsnd.
        -- by constructor.
      * destruct (Htab m rows) as (more & Hmore & Hsnd & Hall').
        { by rewrite lookup_insert_ne. }
        exists more. done.
Qed.

(** X15.  Registering more routes never changes what an existing lookup
    finds: a method and path that resolved before resolve to the same
    route, with the same bindings, afterwards.  This holds also when the
    registration raises half way. *)
Theorem registration_keeps_earlier_lookups (r r' : Router.t)
        (new_routes : list Route) (o : Outcome unit) (method path : string)
        (found : Route * gmap string (option string)) :
  Router.registerRoutes new_routes r = Some (r', o) →
  Router.getRoute method path r = Some found →
  Router.getRoute method path r' = Some found.
Proof.
  intros Hreg. unfold Router.getRoute.
  destruct (Router.route_table r !! method) as [rows|] eqn:Hrows; [|done].
  destruct (registerRoutes_rows _ _ _ _ Hreg)
    as (registered & _ & _ & _ & _ & Htab).
  destruct (Htab method rows Hrows) as (more & Hmore & _).
  rewrite Hmore. apply first_match_found.
Qed.

(** X16.  After [registerRoutes] has returned, [routes] has grown by the
    new routes in their order, and the list of each method by the new
    routes of that method in their order, each stored with what
    [patternToRegex] returns for its pattern.  The limiter is as before. *)
Theorem registerRoutes_keeps_tables_in_step (r r' : Router.t)
        (new_routes : list Route) (m : string) (rows : list Router.entry) :
  Router.registerRoutes new_routes r = Some (r', Return tt) →
  Router.route_table r !! m = Some rows →
  Router.routes r' = (Router.routes r ++ new_routes)%list
  ∧ Router.limiter r' = Router.limiter r
  ∧ ∃ more : list Router.entry,
      Router.route_table r' !! m = Some (rows ++ more)%list
      ∧ more.*2 = routes_for m new_routes
      ∧ Forall (λ row : Router.entry,
                  Router.patternToRegex (pattern row.2)
                  = Some (Return (row.1.1, row.1.2))) more.
Proof.
  intros Hreg Hrows.
  destruct (registerRoutes_rows _ _ _ _ Hreg)
    as (registered & _ & Hall & Hroutes & Hlim & Htab).
  rewrite (Hall eq_refl) in *. split_and!; [done | done |].
  by apply Htab.
Qed.

(** X17.  When [registerRoutes] raises, the routes before the failing one
    stay registered: the router is the one that registering just those
    routes gives.  The failing route is one whose pattern
    [patternToRegex] rejects, or one whose method has no list; the pattern
    is looked at first. *)
Theorem registerRoutes_is_not_atomic (r r' : Router.t)
        (new_routes : list Route) (e : PyExn) :
  Router.registerRoutes new_routes r = Some (r', Raise e) →
  ∃ (registered : list Route) (bad : Route) (rest : list Route),
    new_routes = (registered ++ bad :: rest)%list
    ∧ Router.registerRoutes registered r = Some (r', Return tt)
    ∧ (Router.patternToRegex (pattern bad) = Some (Raise e)
       ∨ (∃ compiled, Router.patternToRegex (pattern bad)
                      = Some (Return compiled))
         ∧ Router.route_table r' !! route_method bad = None
         ∧ e = ValueError ("Unsupported method: " +:+ route_method bad)).
Proof.
  revert r. induction new_routes as [|route rest IH]; intros r Hreg;
    simpl in Hreg; [done|].
  destruct (Router.patternToRegex (pattern route))
    as [[[regex tokens]|e']|] eqn:Hre; [| |done].
  2: { injection Hreg as <- <-. exists [], route, rest. split_and!; auto. }
  destruct (Router.route_table r !! route_method route) as [rows0|] eqn:Hm.
  2: { injection Hreg as <- <-. exists [], route, rest.
       split_and!; [done | done |]. right. eauto. }
  apply IH in Hreg as (registered & bad & rest' & -> & Hreg & Hbad).
  exists (route :: registered), bad, rest'. split_and!; [done | | done].
  simpl. by rewrite Hre, Hm.
Qed.
(** An instance of X15: [/user/admin] keeps resolving to the route
    [/user/:id] after the route [/user/admin] has been registered. *)
Lemma registration_keeps_earlier_lookups_witness :
  Router.registerRoutes [user_admin silent_handler] id_router
  = Some (user_router, Return tt)
  ∧ Router.getRoute "GET" "/user/admin" id_router
    = Some (user_by_id silent_handler, {["id" := Some "admin"]})
  ∧ Router.getRoute "GET" "/user/admin" user_router
    = Some (user_by_id silent_handler, {["id" := Some "admin"]}).
Proof.
  assert (H1 : Router.registerRoutes [user_admin silent_handler] id_router
               = Some (user_router, Return tt)) by (vm_compute; reflexivity).
  assert (H2 : Router.getRoute "GET" "/user/admin" id_router
               = Some (user_by_id silent_handler, {["id" := Some "admin"]}))
    by (vm_compute; reflexivity).
  split; [exact H1|]. split; [exact H2|].
  exact (registration_keeps_earlier_lookups _ _ _ _ _ _ _ H1 H2).
Defined.

(** An instance of X16: the two routes of the precedence example on a new
    router. *)
Lemma registerRoutes_keeps_tables_in_step_witness :
  Router.registerRoutes [user_by_id silent_handler; user_admin silent_handler]
                        new_router
  = Some (user_router, Return tt)
  ∧ Router.route_table new_router !! "GET" = Some []
  ∧ Router.routes user_router
    = (Router.routes new_router
       ++ [user_by_id silent_handler; user_admin silent_handler])%list
  ∧ Router.limiter user_router = Router.limiter new_router
  ∧ ∃ more : list Router.entry,
      Router.route_table user_router !! "GET" = Some ([] ++ more)%list
      ∧ more.*2 = routes_for "GET" [user_by_id silent_handler;
                                    user_admin silent_handler]
      ∧ Forall (λ row : Router.entry,
                  Router.patternToRegex (pattern row.2)
                  = Some (Return (row.1.1, row.1.2))) more.
Proof.
  assert (H1 : Router.registerRoutes
                 [user_by_id silent_handler; user_admin silent_handler]
                 new_router
               = Some (user_router, Return tt)) by (vm_compute; reflexivity).
  assert (H2 : Router.route_table new_router !! "GET" = Some [])
    by (vm_compute; reflexivity).
  split; [exact H1|]. split; [exact H2|].
  exact (registerRoutes_keeps_tables_in_step _ _ _ _ _ H1 H2).
Defined.

(** An instance of X17: the second of three routes has a pattern that
    [patternToRegex] rejects; the first stays registered, the third is
    never looked at. *)
Lemma registerRoutes_is_not_atomic_witness :
  Router.registerRoutes [user_by_id silent_handler;
                         twice_optional silent_handler;
                         user_admin silent_handler] new_router
  = Some (id_router, Raise (ValueError "/user/:a?/:b?"))
  ∧ ∃ (registered : list Route) (bad : Route) (rest : list Route),
      [user_by_id silent_handler; twice_optional silent_handler;
       user_admin silent_handler] = (registered ++ bad :: rest)%list
      ∧ Router.registerRoutes registered new_router
        = Some (id_router, Return tt)
      ∧ (Router.patternToRegex (pattern bad)
         = Some (Raise (ValueError "/user/:a?/:b?"))
         ∨ (∃ compiled, Router.patternToRegex (pattern bad)
                        = Some (Return compiled))
           ∧ Router.route_table id_router !! route_method bad = None
           ∧ ValueError "/user/:a?/:b?"
             = ValueError ("Unsupported method: " +:+ route_method bad)).
Proof.
  assert (H1 : Router.registerRoutes [user_by_id silent_handler;
                                      twice_optional silent_handler;
                                      user_admin silent_handler] new_router
               = Some (id_router, Raise (ValueError "/user/:a?/:b?")))
    by (vm_compute; reflexivity).
  split; [exact H1|].
  exact (registerRoutes_is_not_atomic _ _ _ _ H1).
Defined.

Section MoreDispatchProperties.

Context (gzip_compress : string → string).
Context (int_of_bytes : string → option Z).

(** X18.  On a router a program can hold, a request whose method is not
    one of GET, PUT, POST and DELETE is answered like an unknown path,
    whatever its path: [dispatch] returns the rendered 404 response.
    Method names are compared as they are, so [HEAD] or [get] are such
    methods. *)
Theorem unsupported_method_is_not_found (router : Router.t)
        (request : Request) (ms : Z) (l : RateLimiter.t) :
  reachable router →
  method request ∉ supported_methods →
  RateLimiter.insert (client_address request).1 ms (Router.limiter router)
  = (l, Return false) →
  dispatch gzip_compress int_of_bytes request ms router
  = (Router.with_limiter router l,
     Return (rendered_error "path not found" 404)).
Proof.
  intros Hreach Hmethod Hinsert.
  rewrite (dispatch_when_allowed gzip_compress int_of_bytes _ _ _ _ Hinsert).
  unfold request_response, Router.getRoute.
  destruct (Router.route_table router !! method request) as [rows|] eqn:Hrows.
  { exfalso. apply Hmethod. eapply reachable_methods; [exact Hreach|].
    by rewrite Hrows. }
  by rewrite render_error.
Qed.

(** X19.  A [JsonResponse] built from a text, from [None] or from bytes
    cannot be rendered: [Response.__init__] has turned the payload into
    bytes, which [json.dumps] refuses.  The response is left as it was.
    When a handler returns such a response, the exception leaves
    [dispatch]: no 500 response is made of it. *)
Theorem json_response_of_text_cannot_render (obj : PyObj) (code : Z)
        (router : Router.t) (request : Request) (ms : Z) (l : RateLimiter.t)
        (endpt : Route) (matches : gmap string (option string)) :
  (obj = PyNone ∨ (∃ s, obj = PyStr s) ∨ (∃ b, obj = PyBytes b)) →
  RateLimiter.insert (client_address request).1 ms (Router.limiter router)
  = (l, Return false) →
  Router.getRoute (method request) (path request) router
  = Some (endpt, matches) →
  check_content_length int_of_bytes endpt (with_matches request matches)
  = None →
  callback endpt (with_matches request matches)
  = Return (VResponse (JsonResponse obj code)) →
  (∃ e, _get_payload gzip_compress (JsonResponse obj code)
        = (JsonResponse obj code, Raise (TypeError e)))
  ∧ ∃ e, dispatch gzip_compress int_of_bytes request ms router
         = (Router.with_limiter router l, Raise (TypeError e)).
Proof.
  intros Hobj Hinsert Hroute Hcheck Hcall.
  assert (Hrender : ∃ e, _get_payload gzip_compress (JsonResponse obj code)
                         = (JsonResponse obj code, Raise (TypeError e))).
  { destruct Hobj as [->|[[s ->]|[b ->]]]; eexists; reflexivity. }
  split; [exact Hrender|]. destruct Hrender as [e He]. exists e.
  rewrite (dispatch_when_allowed gzip_compress int_of_bytes _ _ _ _ Hinsert).
  unfold request_response. rewrite Hroute, Hcheck.
  unfold run_callback. rewrite Hcall. cbn [finish_response].
  by rewrite He.
Qed.

Lemma set_headers_twice (k1 v1 k2 v2 : string) (h : gmap string string) :
  <[k2 := v2]> (<[k1 := v1]> (<[k2 := v2]> (<[k1 := v1]> h)))
  = <[k2 := v2]> (<[k1 := v1]> h).
Proof.
  apply map_eq. intros k.
  destruct (decide (k = k2)) as [->|H2].
  { by rewrite !lookup_insert_eq. }
  rewrite !(lookup_insert_ne _ k2) by done.
  destruct (decide (k = k1)) as [->|H1].
  { by rewrite !lookup_insert_eq. }
  by repeat (rewrite lookup_insert_ne by done).
Qed.

(** X20.  Rendering never changes the status code or the class of a
    response.  Rendering a JSON or serializable response a second time
    gives the same bytes and leaves the response as the first rendering
    left it.  A plain response that compresses keeps the compressed bytes
    as its payload, so a second rendering compresses them again. *)
Theorem rendering_a_second_time (r r1 : Response) (body : PyObj) :
  _get_payload gzip_compress r = (r1, Return body) →
  status_code r1 = status_code r
  ∧ cls r1 = cls r
  ∧ match cls r with
    | ClsJsonResponse | ClsSerializableResponse =>
        _get_payload gzip_compress r1 = (r1, Return body)
    | ClsResponse | ClsErrorResponse =>
        if compress r then
          ∃ b, payload r = PyBytes b
               ∧ body = PyBytes (gzip_compress b)
               ∧ (_get_payload gzip_compress r1).2
                 = Return (PyBytes (gzip_compress (gzip_compress b)))
        else r1 = r ∧ body = payload r
    end.
Proof.
  destruct r as [c code h p z]. unfold _get_payload at 1.
  unfold base_get_payload at 1 2 3.
  cbn [cls compress payload status_code resp_headers].
  destruct c, z.
  - destruct p; try done. intros [= <- <-]. split_and!; [done | done |].
    exists b. split_and!; reflexivity.
  - intros [= <- <-]. by split_and!.
  - destruct p; try done. intros [= <- <-]. split_and!; [done | done |].
    exists b. split_and!; reflexivity.
  - intros [= <- <-]. by split_and!.
  - by destruct p.
  - destruct (json.dumps p) as [dumped|e] eqn:Hd; [|done].
    intros [= <- <-]. split_and!; [done | done |].
    unfold _get_payload, base_get_payload, set_header.
    cbn [cls compress payload status_code resp_headers].
    by rewrite Hd, set_headers_twice.
  - by destruct p.
  - destruct p; try done. intros [= <- <-]. split_and!; [done | done |].
    unfold _get_payload, base_get_payload, set_header.
    cbn [cls compress payload status_code resp_headers].
    by rewrite set_headers_twice.
Qed.

End MoreDispatchProperties.
(** An instance of X18: a HEAD request to the router of the precedence
    example. *)
Lemma unsupported_method_is_not_found_witness :
  let l := (RateLimiter.insert "10.0.0.1" now (Router.limiter user_router)).1 in
  reachable user_router
  ∧ (method head_request ∉ supported_methods)
  ∧ RateLimiter.insert (client_address head_request).1 now
                       (Router.limiter user_router) = (l, Return false)
  ∧ dispatch stored python_int.parse head_request now user_router
    = (Router.with_limiter user_router l,
       Return (rendered_error "path not found" 404)).
Proof.
  intros l.
  assert (H1 : reachable user_router).
  { apply (reach_register new_router user_router
                           [user_by_id silent_handler;
                            user_admin silent_handler] (Return tt));
      [constructor|].
    vm_compute. reflexivity. }
  assert (H2 : method head_request ∉ supported_methods).
  { apply (bool_decide_unpack _). vm_compute. reflexivity. }
  assert (H3 : RateLimiter.insert (client_address head_request).1 now
                                  (Router.limiter user_router)
               = (l, Return false)).
  { vm_compute. reflexivity. }
  split; [exact H1|]. split; [exact H2|]. split; [exact H3|].
  exact (unsupported_method_is_not_found stored python_int.parse user_router
                                         head_request now l H1 H2 H3).
Defined.

(** An instance of X19: the handler of [/user/:id] answers
    [JsonResponse("ok")]. *)
Lemma json_response_of_text_cannot_render_witness :
  let l := (RateLimiter.insert "10.0.0.1" now (Router.limiter text_router)).1 in
  (PyStr "ok" = PyNone ∨ (∃ s, PyStr "ok" = PyStr s)
   ∨ (∃ b, PyStr "ok" = PyBytes b))
  ∧ RateLimiter.insert (client_address user_request).1 now
                       (Router.limiter text_router) = (l, Return false)
  ∧ Router.getRoute (method user_request) (path user_request) text_router
    = Some (user_by_id text_handler, {["id" := Some "7"]})
  ∧ check_content_length python_int.parse (user_by_id text_handler)
                         (with_matches user_request {["id" := Some "7"]})
    = None
  ∧ callback (user_by_id text_handler)
             (with_matches user_request {["id" := Some "7"]})
    = Return (VResponse (JsonResponse (PyStr "ok") 200))
  ∧ (∃ e, _get_payload stored (JsonResponse (PyStr "ok") 200)
          = (JsonResponse (PyStr "ok") 200, Raise (TypeError e)))
  ∧ ∃ e, dispatch stored python_int.parse user_request now text_router
         = (Router.with_limiter text_router l, Raise (TypeError e)).
Proof.
  intros l.
  assert (H0 : PyStr "ok" = PyNone ∨ (∃ s, PyStr "ok" = PyStr s)
               ∨ (∃ b, PyStr "ok" = PyBytes b)).
  { right. left. exists "ok". reflexivity. }
  assert (H1 : RateLimiter.insert (client_address user_request).1 now
                                  (Router.limiter text_router)
               = (l, Return false)).
  { vm_compute. reflexivity. }
  assert (H2 : Router.getRoute (method user_request) (path user_request)
                               text_router
               = Some (user_by_id text_handler, {["id" := Some "7"]})).
  { vm_compute. reflexivity. }
  assert (H3 : check_content_length python_int.parse (user_by_id text_handler)
                 (with_matches user_request {["id" := Some "7"]}) = None).
  { reflexivity. }
  assert (H4 : callback (user_by_id text_handler)
                        (with_matches user_request {["id" := Some "7"]})
               = Return (VResponse (JsonResponse (PyStr "ok") 200))).
  { reflexivity. }
  split; [exact H0|]. split; [exact H1|]. split; [exact H2|].
  split; [exact H3|]. split; [exact H4|].
  exact (json_response_of_text_cannot_render
           stored python_int.parse (PyStr "ok") 200 text_router user_request
           now l (user_by_id text_handler) {["id" := Some "7"]}
           H0 H1 H2 H3 H4).
Defined.

(** An instance of X20: a plain response with [compress] set, rendered
    with a compressor that returns its input. *)
Lemma rendering_a_second_time_witness :
  let r1 := (_get_payload stored compressed_response).1 in
  _get_payload stored compressed_response = (r1, Return (PyBytes "hello"))
  ∧ status_code r1 = status_code compressed_response
  ∧ cls r1 = cls compressed_response
  ∧ ∃ b, payload compressed_response = PyBytes b
         ∧ PyBytes "hello" = PyBytes (stored b)
         ∧ (_get_payload stored r1).2
           = Return (PyBytes (stored (stored b))).
Proof.
  intros r1.
  assert (H : _get_payload stored compressed_response
              = (r1, Return (PyBytes "hello"))) by reflexivity.
  split; [exact H|].
  exact (rendering_a_second_time stored compressed_response r1
                                 (PyBytes "hello") H).
Defined.

(** ** Matching the path made from a simple pattern *)

Lemma star_not_slash (m : re.mstate → re.cont → option re.captures)
      (k : re.cont) (c0 : re.captures) (v : list ascii) :
  (∀ st k', m st k' = re.eat (λ x, negb (re.member ["/"%char] x)) st k') →
  "/"%char ∉ v →
  ∀ (tail : list ascii) (n pos : nat) (caps : re.captures),
    seg_end tail →
    (length v ≤ n)%nat →
    k (re.mkm (pos + length v) tail caps) = Some c0 →
    re.star_loop m k n (re.mkm pos (v ++ tail) caps) = Some c0.
Proof.
  intros Hm. induction v as [|x v IH]; intros Hv tail n pos caps Hend Hn Hk.
  - rewrite Nat.add_0_r in Hk. cbn [app]. destruct n; [done|].
    rewrite star_loop_S, Hm. unfold re.eat. cbn [re.m_rest].
    destruct Hend as [->|[t ->]]; [by rewrite Hk|].
    change (negb (re.member ["/"%char] "/"%char)) with false.
    cbn iota. exact Hk.
  - destruct n as [|n]; [simpl in Hn; lia|].
    rewrite star_loop_S, Hm. unfold re.eat.
    cbn [app re.m_rest re.m_pos re.m_caps].
    assert (Hx : negb (re.member ["/"%char] x) = true).
    { unfold re.member. cbn [existsb]. rewrite orb_false_r.
      apply negb_true_iff. apply Ascii.eqb_neq. intros ->.
      apply Hv. left. }
    rewrite Hx.
    destruct (Nat.ltb_spec (length (v ++ tail)) (length (x :: v ++ tail)))
      as [_|Hlen]; [|simpl in Hlen; lia].
    rewrite (IH ltac:(set_solver) tail n (S pos) caps Hend); [done | |].
    + simpl in Hn. lia.
    + rewrite <- Hk. do 2 f_equal. simpl. lia.
Qed.
Lemma run_item_plain (i : nat) (st : re.mstate) (k : re.cont)
      (c0 : re.captures) (v tail : list ascii) :
  re.m_rest st = (v ++ tail)%list →
  v ≠ [] →
  "/"%char ∉ v →
  seg_end tail →
  k (re.mkm (re.m_pos st + length v) tail ((i, v) :: re.m_caps st))
  = Some c0 →
  re.run (item_plain i) st k = Some c0.
Proof.
  intros Hrest Hne Hv Hend Hk. destruct st as [pos rest caps].
  cbn [re.m_rest re.m_pos re.m_caps] in *. subst rest.
  destruct v as [|x v]; [done|].
  unfold item_plain, re.seq_of. cbn [fold_right].
  cbn [re.run]. unfold re.eat at 1. cbn [app re.m_rest re.m_pos re.m_caps].
  assert (Hx : negb (re.member ["/"%char] x) = true).
  { unfold re.member. cbn [existsb]. rewrite orb_false_r.
    apply negb_true_iff. apply Ascii.eqb_neq. intros ->. apply Hv. left. }
  rewrite Hx.
  apply star_not_slash; [done | set_solver | done | |].
  - rewrite length_app. lia.
  - unfold re.capture. cbn [re.m_rest re.m_pos re.m_caps].
    rewrite <- Hk. f_equal.
    change (x :: v ++ tail)%list with ((x :: v) ++ tail)%list.
    rewrite length_app, Nat.add_sub, take_app_length.
    f_equal. simpl. lia.
Qed.

Lemma run_literal (cs : list ascii) (items : list re.regex) (k : re.cont) :
  ∀ (pos : nat) (tail : list ascii) (caps : re.captures),
    re.run (re.seq_of ((re.Chr <$> cs) ++ items))
           (re.mkm pos (cs ++ tail) caps) k
    = re.run (re.seq_of items) (re.mkm (pos + length cs) tail caps) k.
Proof.
  induction cs as [|c cs IH]; intros pos tail caps.
  - cbn [fmap list_fmap app length]. by rewrite Nat.add_0_r.
  - cbn [fmap list_fmap app length]. unfold re.seq_of. cbn [fold_right].
    cbn [re.run]. unfold re.eat. cbn [re.m_rest re.m_pos re.m_caps].
    rewrite Ascii.eqb_refl. fold (re.seq_of ((re.Chr <$> cs) ++ items)).
    rewrite IH. do 2 f_equal. lia.
Qed.

Lemma lookup_add_caps (values : list string) :
  ∀ (g : nat) (caps : re.captures) (i : nat),
    (g < i)%nat →
    (i ≤ g + length values)%nat →
    re.lookup_group i (add_caps g values caps)
    = chars <$> values !! (i - S g)%nat.
Proof.
  induction values as [|v values IH]; intros g caps i Hlo Hhi.
  - simpl in Hhi. lia.
  - cbn [add_caps]. destruct (decide (i = S g)) as [->|Hne].
    + rewrite Nat.sub_diag. cbn [lookup list_lookup fmap option_fmap option_map].
      clear IH Hhi Hlo. revert caps.
      assert (Hkeep : ∀ (vs : list string) (g' : nat) (caps : re.captures),
                 (S g ≤ g')%nat →
                 re.lookup_group (S g) (add_caps g' vs caps)
                 = re.lookup_group (S g) caps).
      { induction vs as [|w vs IHvs]; intros g' caps Hg; [done|].
        cbn [add_caps]. rewrite IHvs by lia. cbn [re.lookup_group].
        destruct (Nat.eqb_spec (S g) (S g')); [lia | done]. }
      intros caps. rewrite Hkeep by lia. cbn [re.lookup_group].
      by rewrite Nat.eqb_refl.
    + rewrite IH by (simpl in Hhi; lia).
      replace (i - S g)%nat with (S (i - S (S g)))%nat by lia. done.
Qed.

Lemma groups_of_caps (values : list string) :
  map (λ i, text <$> re.lookup_group i (add_caps 0 values []))
      (seq 1 (length values))
  = Some <$> values.
Proof.
  apply list_eq. intros j.
  rewrite list_lookup_fmap.
  change (map ?f ?l) with (f <$> l). rewrite list_lookup_fmap.
  destruct (values !! j) as [v|] eqn:Hj.
  - assert (Hlt : (j < length values)%nat) by (by eapply lookup_lt_Some).
    rewrite (lookup_seq_lt _ _ _ Hlt). cbn [fmap option_fmap option_map].
    rewrite lookup_add_caps by lia.
    replace (1 + j - 1)%nat with j by lia. rewrite Hj.
    cbn [fmap option_fmap option_map]. by rewrite text_chars.
  - apply lookup_ge_None in Hj.
    rewrite lookup_seq_ge by lia. done.
Qed.
Lemma simple_token_items (g : nat) (part : string) (parts : list string) :
  part ≠ "" →
  Router.is_token part = true →
  is_greedy part = false →
  pattern_items g (part :: parts)
  = re.Chr "/" :: item_plain (S g) :: pattern_items (S g) parts.
Proof.
  intros Hne Htok Hgreedy. cbn [pattern_items]. rewrite Htok.
  unfold is_greedy, Router.suffix_of in Hgreedy. rewrite Htok in Hgreedy.
  destruct (last_char_nonempty part Hne) as [c Hc].
  rewrite Hc in Hgreedy |- *. cbn [andb] in Hgreedy.
  destruct (Ascii.eqb c "?"); [done|].
  destruct (Ascii.eqb c "*"); [done|].
  by destruct (Ascii.eqb c "+").
Qed.

Lemma fill_seg_end (parts values : list string) (tail : list ascii) :
  seg_end tail → seg_end (chars (fill parts values) ++ tail).
Proof.
  intros Hend. destruct parts as [|part parts]; [done|]. right.
  cbn [fill]. destruct (Router.is_token part); [destruct values|];
    rewrite chars_app; eexists; reflexivity.
Qed.

Lemma chars_nonempty (v : string) : v ≠ "" → chars v ≠ [].
Proof. by destruct v. Qed.

(** The items of simple segments take the path made from them, and bind
    the groups to the values. *)
Lemma run_simple_items (parts : list string) :
  Forall (λ part : string, part ≠ "" ∧ simple_part part = true) parts →
  ∀ (values : list string) (g : nat) (rest_items : list re.regex)
    (k : re.cont) (pos : nat) (tail : list ascii) (caps c0 : re.captures),
    length values = length (token_names parts) →
    Forall segment_value values →
    seg_end tail →
    re.run (re.seq_of rest_items)
           (re.mkm (pos + length (chars (fill parts values))) tail
                   (add_caps g values caps)) k = Some c0 →
    re.run (re.seq_of (pattern_items g parts ++ rest_items))
           (re.mkm pos (chars (fill parts values) ++ tail) caps) k = Some c0.
Proof.
  induction 1 as [|part parts [Hne Hsimple] _ IH];
    intros values g rest_items k pos tail caps c0 Hlen Hvalues Hend Hk.
  - destruct values; [|done]. cbn [fill pattern_items app] in *.
    cbn [chars list_ascii_of_string length app] in *.
    by rewrite Nat.add_0_r in Hk.
  - unfold simple_part in Hsimple.
    destruct (Router.is_token part) eqn:Htok.
    + apply negb_true_iff in Hsimple.
      rewrite (simple_token_items g part parts Hne Htok Hsimple).
      rewrite (token_names_cons_token _ _ Htok) in Hlen.
      destruct values as [|v values]; [done|].
      injection Hlen as Hlen. apply Forall_cons in Hvalues as [[Hv1 Hv2] Hvalues].
      cbn [fill add_caps] in *. rewrite Htok in *.
      rewrite !chars_app in *. rewrite !length_app in Hk.
      change (chars "/") with ["/"%char] in *.
      cbn [app length] in *.
      unfold re.seq_of. cbn [fold_right re.run].
      unfold re.eat at 1. cbn [re.m_rest re.m_pos re.m_caps].
      change (Ascii.eqb "/" "/") with true. cbn iota.
      rewrite <- app_assoc.
      apply (run_item_plain (S g) _ _ c0 (chars v)
                            (chars (fill parts values) ++ tail)).
      * done.
      * by apply chars_nonempty.
      * done.
      * by apply fill_seg_end.
      * cbn [re.m_rest re.m_pos re.m_caps].
        apply (IH values (S g) rest_items k _ tail _ c0 Hlen Hvalues Hend).
        rewrite <- Hk. do 2 f_equal. lia.
    + rewrite (token_names_cons_literal _ _ Htok) in Hlen.
      cbn [fill pattern_items] in *. rewrite Htok in *.
      rewrite !chars_app in *. rewrite !length_app in Hk.
      change (chars "/") with ["/"%char] in *.
      change (re.Chr "/" :: (re.Chr <$> chars part))
        with (re.Chr <$> ("/"%char :: chars part)).
      rewrite <- app_assoc.
      change (["/"%char] ++ chars part ++ chars (fill parts values))%list
        with (("/"%char :: chars part) ++ chars (fill parts values))%list.
      rewrite <- app_assoc. rewrite run_literal.
      apply (IH values g rest_items k _ tail caps c0 Hlen Hvalues Hend).
      rewrite <- Hk. do 2 f_equal. cbn [length app]. lia.
Qed.




(** ** Safe path join: relative file names stay under the root *)

Lemma str_app_cons (a : ascii) (s t : string) :
  String a s +:+ t = String a (s +:+ t).
Proof. reflexivity. Qed.

Lemma str_app_nil (t : string) : "" +:+ t = t.
Proof. reflexivity. Qed.

Lemma replace_app (a b : ascii) (s t : string) :
  replace a b (s +:+ t) = replace a b s +:+ replace a b t.
Proof.
  induction s as [|c s IH]; [done|].
  rewrite str_app_cons. cbn [replace]. by rewrite IH, str_app_cons.
Qed.

Lemma replace_absent (a b : ascii) (s : string) :
  a ∉ chars s → replace a b s = s.
Proof.
  induction s as [|c s IH]; [done|]. cbn [chars list_ascii_of_string].
  intros Hnot. cbn [replace].
  destruct (Ascii.eqb_spec c a) as [->|Hne].
  - exfalso. apply Hnot. left.
  - f_equal. apply IH. intros Hin. apply Hnot. by right.
Qed.

Lemma replace_join_clean (comps : list string) :
  Forall clean_component comps →
  replace "\" "/" (str_join "/" comps) = str_join "/" comps.
Proof.
  induction 1 as [|c comps (_ & _ & _ & _ & Hback) Hcomps IH]; [done|].
  destruct comps as [|c' comps].
  - cbn [str_join]. by apply replace_absent.
  - change (str_join "/" (c :: c' :: comps))
      with (c +:+ "/" +:+ str_join "/" (c' :: comps)).
    rewrite !replace_app, IH, (replace_absent _ _ c Hback). done.
Qed.

Lemma split_no_sep (sep : ascii) (s : string) :
  sep ∉ chars s → split sep s = [s].
Proof.
  induction s as [|c s IH]; [done|]. cbn [chars list_ascii_of_string].
  intros Hnot. cbn [split].
  destruct (Ascii.eqb_spec c sep) as [->|Hne].
  - exfalso. apply Hnot. left.
  - rewrite IH; [done|]. intros Hin. apply Hnot. by right.
Qed.

Lemma split_app_sep (sep : ascii) (s t : string) :
  sep ∉ chars s →
  split sep (s +:+ String sep t) = s :: split sep t.
Proof.
  induction s as [|c s IH].
  - intros _. rewrite str_app_nil. cbn [split]. by rewrite Ascii.eqb_refl.
  - cbn [chars list_ascii_of_string]. intros Hnot.
    rewrite str_app_cons. cbn [split].
    destruct (Ascii.eqb_spec c sep) as [->|Hne].
    + exfalso. apply Hnot. left.
    + rewrite IH; [done|]. intros Hin. apply Hnot. by right.
Qed.

Lemma split_join_clean (comps : list string) (t : string) :
  Forall clean_component comps →
  split "/" (str_join "/" comps +:+ String "/" t)
  = match comps with
    | [] => "" :: split "/" t
    | _ => (comps ++ split "/" t)%list
    end.
Proof.
  induction 1 as [|c comps (_ & _ & _ & Hslash & _) Hcomps IH].
  - cbn [str_join]. rewrite str_app_nil. cbn [split].
    by rewrite Ascii.eqb_refl.
  - destruct comps as [|c' comps].
    + cbn [str_join]. by rewrite split_app_sep.
    + change (str_join "/" (c :: c' :: comps))
        with (c +:+ String "/" (str_join "/" (c' :: comps))).
      rewrite str_app_assoc, str_app_cons.
      rewrite split_app_sep by done. by rewrite IH.
Qed.

(** Without [..] the loop of [normpath] only drops the empty components
    and the dots. *)
Lemma norm_comps_plain (n : nat) (comps : list string) :
  Forall (λ c : string, c ≠ "..") comps →
  ∀ new_comps : list string,
    posixpath.norm_comps n comps new_comps
    = (rev new_comps
       ++ List.filter (λ c, negb (String.eqb c "" || String.eqb c "."))
                      comps)%list.
Proof.
  induction 1 as [|c comps Hc _ IH]; intros new_comps.
  - cbn. by rewrite app_nil_r.
  - cbn [posixpath.norm_comps List.filter].
    destruct (String.eqb c "" || String.eqb c ".")%bool; [apply IH|].
    cbn [negb]. apply String.eqb_neq in Hc. rewrite Hc. cbn [negb orb].
    rewrite IH. cbn [rev]. by rewrite <- app_assoc.
Qed.
Lemma str_join_snoc (sep : string) (l : list string) (c : string) :
  str_join sep (l ++ [c])
  = match l with
    | [] => c
    | _ => (str_join sep l +:+ sep) +:+ c
    end.
Proof.
  induction l as [|x l IH]; [done|].
  destruct l as [|y l].
  { change (x +:+ sep +:+ c = (x +:+ sep) +:+ c). by rewrite str_app_assoc. }
  change (str_join sep ((x :: y :: l) ++ [c]))
    with (x +:+ sep +:+ str_join sep ((y :: l) ++ [c])).
  rewrite IH.
  change (str_join sep (x :: y :: l))
    with (x +:+ sep +:+ str_join sep (y :: l)).
  by rewrite !str_app_assoc.
Qed.

Lemma endswith_slash_clean (a c : string) :
  c ≠ "" → "/"%char ∉ chars c → endswith "/" (a +:+ c) = false.
Proof.
  intros Hne Hslash. unfold endswith. rewrite chars_app, rev_app_distr.
  destruct (rev (chars c)) as [|z l] eqn:Hrev.
  - exfalso. apply (chars_nonempty c Hne).
    apply (f_equal (@rev ascii)) in Hrev. by rewrite rev_involutive in Hrev.
  - assert (Hz : z ∈ chars c).
    { apply list_elem_of_In, in_rev. rewrite Hrev. by left. }
    change (text (rev (chars "/"))) with "/".
    cbn [app text string_of_list_ascii startswith].
    destruct (Ascii.eqb_spec "/" z) as [<-|_]; done.
Qed.

Lemma rooted_no_trailing_slash (comps : list string) :
  comps ≠ [] → Forall clean_component comps →
  endswith "/" (rooted comps) = false.
Proof.
  intros Hne Hclean. destruct comps as [|x comps] using rev_ind; [done|].
  clear IHcomps. apply Forall_app in Hclean as [_ Hx].
  apply Forall_singleton in Hx as (Hx & _ & _ & Hslash & _).
  unfold rooted. rewrite str_join_snoc.
  destruct comps; rewrite <- ?str_app_assoc; by apply endswith_slash_clean.
Qed.

Lemma startswith_app (a b : string) : startswith a (a +:+ b) = true.
Proof.
  induction a as [|c a IH]; [done|].
  rewrite str_app_cons. cbn [startswith]. by rewrite Ascii.eqb_refl, IH.
Qed.

Lemma str_join_app (sep : string) (l more : list string) :
  l ≠ [] →
  ∃ rest : string, str_join sep (l ++ more) = str_join sep l +:+ rest.
Proof.
  intros Hne. induction l as [|x l IH]; [done|].
  destruct l as [|y l].
  - destruct more as [|m more].
    + exists "". by rewrite str_app_empty.
    + by exists (sep +:+ str_join sep (m :: more)).
  - destruct IH as [rest Hrest]; [done|]. exists rest.
    change (str_join sep ((x :: y :: l) ++ more))
      with (x +:+ sep +:+ str_join sep ((y :: l) ++ more)).
    rewrite Hrest.
    change (str_join sep (x :: y :: l))
      with (x +:+ sep +:+ str_join sep (y :: l)).
    by rewrite !str_app_assoc.
Qed.
Lemma str_join_first (comps : list string) :
  comps ≠ [] → Forall clean_component comps →
  ∃ (a : ascii) (s : string), str_join "/" comps = String a s ∧ a ≠ "/"%char.
Proof.
  intros Hne Hclean. destruct comps as [|c comps]; [done|].
  apply Forall_cons in Hclean as [(Hc & _ & _ & Hslash & _) _].
  destruct c as [|a c]; [done|].
  assert (Ha : a ≠ "/"%char).
  { intros ->. apply Hslash. left. }
  destruct comps as [|c' comps]; [by exists a, c|].
  exists a, (c +:+ "/" +:+ str_join "/" (c' :: comps)). done.
Qed.

Lemma filter_no_dot (l : list string) :
  "." ∉ l →
  List.filter (λ c, negb (String.eqb c "" || String.eqb c ".")) l
  = List.filter (λ c, negb (String.eqb c "")) l.
Proof.
  induction l as [|c l IH]; [done|]. intros Hnot. cbn [List.filter].
  rewrite IH by set_solver.
  destruct (String.eqb_spec c ".") as [->|_]; [set_solver|].
  by rewrite orb_false_r.
Qed.

Lemma filter_clean (comps : list string) :
  Forall clean_component comps →
  List.filter (λ c, negb (String.eqb c "" || String.eqb c ".")) comps = comps.
Proof.
  induction 1 as [|c comps (H1 & H2 & _) _ IH]; [done|].
  cbn [List.filter]. rewrite IH.
  apply String.eqb_neq in H1, H2. by rewrite H1, H2.
Qed.

(** X22.  What the docstring of [path_join_safe] promises holds for
    relative file names.  Let the root be an absolute path of ordinary
    components, and let the file name, with its backslashes turned into
    slashes, not start with a slash.  When [path_join_safe] returns, the
    result is the root followed by the components of the file name that
    are not empty, none of which is [.] or [..]; so it starts with the
    root, whatever the working directory is. *)
Theorem relative_filename_stays_under_root (cwd filename result : string)
        (comps : list string) :
  comps ≠ [] →
  Forall clean_component comps →
  startswith "/" (replace "\" "/" filename) = false →
  path_join_safe cwd (rooted comps) filename = Return result →
  result = rooted (comps ++ named_components filename)
  ∧ startswith (rooted comps) result = true
  ∧ Forall (λ c : string, c ≠ "" ∧ c ≠ "." ∧ c ≠ "..")
           (named_components filename).
Proof.
  intros Hne Hclean Hrel. unfold path_join_safe.
  assert (Hroot : replace "\" "/" (rooted comps) = rooted comps).
  { unfold rooted. by rewrite replace_app, replace_join_clean. }
  rewrite Hroot. set (f := replace "\" "/" filename) in *.
  case_bool_decide as Hdots; [done|].
  rewrite !elem_of_list_to_set in Hdots.
  assert (Hdot : "." ∉ split "/" f) by tauto.
  assert (Hdotdot : ".." ∉ split "/" f) by tauto.
  assert (Hnamed : Forall (λ c : string, c ≠ "" ∧ c ≠ "." ∧ c ≠ "..")
                          (named_components filename)).
  { unfold named_components. fold f. apply Forall_forall. intros c Hin.
    apply list_elem_of_In, filter_In in Hin as [Hin Hc].
    apply list_elem_of_In in Hin. apply negb_true_iff, String.eqb_neq in Hc.
    split_and!; [done | by intros -> | by intros ->]. }
  assert (Hresult :
            posixpath.abspath cwd (posixpath.join (rooted comps) f)
            = rooted (comps ++ named_components filename)).
  { unfold posixpath.join. rewrite Hrel.
    rewrite (rooted_no_trailing_slash comps Hne Hclean).
    change (String.eqb (rooted comps) "") with false. cbn [orb].
    unfold rooted at 1.
    change ("/" +:+ str_join "/" comps)
      with (String "/" (str_join "/" comps)).
    rewrite str_app_cons.
    change ("/" +:+ f) with (String "/" f).
    unfold posixpath.abspath, posixpath.isabs. cbn [startswith].
    change (Ascii.eqb "/" "/") with true. cbn [andb].
    unfold posixpath.normpath. cbn [String.eqb].
    destruct (str_join_first comps Hne Hclean) as (a & s & Hjoin & Ha).
    assert (Hone : (startswith "//" (String "/" (str_join "/" comps
                                                  +:+ String "/" f))
                    && negb (startswith "///"
                               (String "/" (str_join "/" comps
                                            +:+ String "/" f))))%bool
                   = false).
    { rewrite Hjoin, str_app_cons. cbn [startswith].
      apply Ascii.eqb_neq in Ha. rewrite (Ascii.eqb_sym "/" a), Ha.
      by rewrite andb_false_r. }
    assert (Hslash : startswith "/" (String "/" (str_join "/" comps
                                                 +:+ String "/" f)) = true)
      by reflexivity.
    rewrite Hone, Hslash. cbn iota.
    cbn [split]. change (Ascii.eqb "/" "/") with true.
    cbn iota. rewrite (split_join_clean comps f Hclean).
    destruct comps as [|c comps']; [done|].
    set (cs := c :: comps') in *.
    rewrite norm_comps_plain.
    2: { constructor; [done|]. apply Forall_app. split.
         - eapply Forall_impl; [exact Hclean|]. by intros ? (_ & _ & ? & _).
         - apply Forall_forall. intros x Hx ->. done. }
    cbn [rev app List.filter String.eqb orb negb].
    rewrite List.filter_app, (filter_clean cs Hclean), (filter_no_dot _ Hdot).
    fold (named_components filename).
    change ("/" +:+ str_join "/" (cs ++ named_components filename))
      with (String "/" (str_join "/" (cs ++ named_components filename))).
    cbn [String.eqb]. reflexivity. }
  rewrite Hresult. intros [= <-]. split_and!; [done | | done].
  destruct (str_join_app "/" comps (named_components filename) Hne)
    as [rest Hrest].
  unfold rooted. rewrite Hrest, <- str_app_assoc. apply startswith_app.
Qed.

(** An instance of X22: a file below [/srv/www], named with a backslash
    and a doubled slash. *)
Lemma relative_filename_stays_under_root_witness :
  ["srv"; "www"] ≠ []
  ∧ Forall clean_component ["srv"; "www"]
  ∧ startswith "/" (replace "\" "/" "img\logo//a.png") = false
  ∧ path_join_safe "/home/user" (rooted ["srv"; "www"]) "img\logo//a.png"
    = Return "/srv/www/img/logo/a.png"
  ∧ "/srv/www/img/logo/a.png"
    = rooted (["srv"; "www"] ++ named_components "img\logo//a.png")
  ∧ startswith (rooted ["srv"; "www"]) "/srv/www/img/logo/a.png" = true
  ∧ Forall (λ c : string, c ≠ "" ∧ c ≠ "." ∧ c ≠ "..")
           (named_components "img\logo//a.png").
Proof.
  assert (H1 : ["srv"; "www"] ≠ []) by done.
  assert (H2 : Forall clean_component ["srv"; "www"]).
  { apply Forall_cons. split.
    { unfold clean_component. apply (bool_decide_unpack _).
      vm_compute. reflexivity. }
    apply Forall_cons. split.
    { unfold clean_component. apply (bool_decide_unpack _).
      vm_compute. reflexivity. }
    apply Forall_nil_2. }
  assert (H3 : startswith "/" (replace "\" "/" "img\logo//a.png") = false)
    by reflexivity.
  assert (H4 : path_join_safe "/home/user" (rooted ["srv"; "www"])
                              "img\logo//a.png"
               = Return "/srv/www/img/logo/a.png")
    by (vm_compute; reflexivity).
  split; [exact H1|]. split; [exact H2|]. split; [exact H3|].
  split; [exact H4|].
  exact (relative_filename_stays_under_root _ _ _ _ H1 H2 H3 H4).
Defined.

(** ** Headers built by the transport *)

Lemma fold_insert_last (after : list (string * list string)) (K : string) :
  Forall (λ kv : string * list string, upper kv.1 ≠ K) after →
  ∀ m : gmap string (list string),
    fold_left (λ m kv, <[upper kv.1 := kv.2]> m) after m !! K = m !! K.
Proof.
  induction 1 as [|[k v] after Hk _ IH]; intros m; [done|].
  cbn [fold_left]. rewrite IH. by rewrite lookup_insert_ne.
Qed.

Section TransportHeaders.

Context (int_of_bytes : string → option Z).

(** X23.  The header map the transport builds is looked up without regard
    to the case of ASCII letters, and of several raw headers whose names
    differ only in case the last one wins.  So a [Content-Length] header
    is found however the client spelled it, and the validation of
    [request_response] never answers 411 for such a request.  A plain
    dictionary, as the test client builds, finds a header only under the
    exact name. *)
Theorem transport_headers_ignore_case
        (before after : list (string * list string)) (k key : string)
        (vs : list string) :
  upper k = upper key →
  Forall (λ kv : string * list string, upper kv.1 ≠ upper key) after →
  headers_get key (transport_headers (before ++ (k, vs) :: after)) = Some vs
  ∧ headers_contains key (transport_headers (before ++ (k, vs) :: after))
    = true
  ∧ (upper key = upper "Content-Length" →
     ∀ (endpt : Route) (request : Request),
       headers request = transport_headers (before ++ (k, vs) :: after) →
       check_content_length int_of_bytes endpt request
       ≠ Some (JsonResponse (error_body "Content-Length not specified") 411))
  ∧ (k ≠ key → headers_get key (PlainDict {[k := vs]}) = None).
Proof.
  intros Hk Hafter.
  assert (Hget : ∀ key' : string,
             upper key' = upper key →
             headers_get key' (transport_headers (before ++ (k, vs) :: after))
             = Some vs).
  { intros key' Hkey'. unfold headers_get, transport_headers.
    rewrite fold_left_app. cbn [fold_left]. rewrite Hkey'.
    rewrite (fold_insert_last after (upper key) Hafter).
    cbn [fst snd]. rewrite Hk. by rewrite lookup_insert_eq. }
  split_and!.
  - by apply Hget.
  - unfold headers_contains. by rewrite Hget.
  - intros Hcl endpt request Hheaders. unfold check_content_length.
    destruct (options endpt !! "max_content_length") as [max|]; [|done].
    unfold headers_contains. rewrite Hheaders.
    rewrite (Hget "Content-Length") by done. cbn [negb].
    destruct (_ >? max); done.
  - intros Hne. cbn [headers_get]. by rewrite lookup_singleton_ne.
Qed.

End TransportHeaders.

(** An instance of X23: a client sends [content-length] in lower case,
    after a first header [Content-Length]. *)
Lemma transport_headers_ignore_case_witness :
  upper "content-length" = upper "Content-Length"
  ∧ Forall (λ kv : string * list string,
              upper kv.1 ≠ upper "Content-Length")
           [("Accept", ["*/*"])]
  ∧ headers_get "Content-Length"
                (transport_headers ([("Content-Length", ["99"])]
                                    ++ ("content-length", ["7"])
                                    :: [("Accept", ["*/*"])]))
    = Some ["7"]
  ∧ headers_contains "Content-Length"
                     (transport_headers ([("Content-Length", ["99"])]
                                         ++ ("content-length", ["7"])
                                         :: [("Accept", ["*/*"])]))
    = true
  ∧ (upper "Content-Length" = upper "Content-Length" →
     ∀ (endpt : Route) (request : Request),
       headers request
       = transport_headers ([("Content-Length", ["99"])]
                            ++ ("content-length", ["7"])
                            :: [("Accept", ["*/*"])]) →
       check_content_length python_int.parse endpt request
       ≠ Some (JsonResponse (error_body "Content-Length not specified") 411))
  ∧ ("content-length" ≠ "Content-Length" →
     headers_get "Content-Length" (PlainDict {["content-length" := ["7"]]})
     = None).
Proof.
  assert (H1 : upper "content-length" = upper "Content-Length")
    by reflexivity.
  assert (H2 : Forall (λ kv : string * list string,
                         upper kv.1 ≠ upper "Content-Length")
                      [("Accept", ["*/*"])]).
  { apply Forall_cons. split; [|apply Forall_nil_2].
    apply (bool_decide_unpack _). vm_compute. reflexivity. }
  split; [exact H1|]. split; [exact H2|].
  exact (transport_headers_ignore_case
           python_int.parse [("Content-Length", ["99"])]
           [("Accept", ["*/*"])] "content-length" "Content-Length" ["7"]
           H1 H2).
Defined.
(** ** The rate limit of a route *)

Lemma first_match_relimit (f : Route → option (Z * string))
      (rows : list Router.entry) (path : string) :
  Router.first_match
    ((λ row : Router.entry, (row.1, with_ratelimit (f row.2) row.2)) <$> rows)
    path
  = (λ found : Route * gmap string (option string),
       (with_ratelimit (f found.1) found.1, found.2))
      <$> Router.first_match rows path.
Proof.
  induction rows as [|[[re_ptn tokens] endpt] rows IH]; [done|].
  cbn [fmap list_fmap Router.first_match fst snd].
  destruct (re.match_groups re_ptn path); [done|]. exact IH.
Qed.

Section RouteRateLimit.

Context (gzip_compress : string → string).
Context (int_of_bytes : string → option Z).

(** X24.  The [ratelimit] attribute of a route, which the [ratelimit]
    decorator and [Resource] set, is never looked at: whatever values the
    routes of a router carry there, [dispatch] gives the same outcome and
    leaves the same limiter.  Only the limiter of the router, shared by all
    routes, limits requests. *)
Theorem route_ratelimit_has_no_effect (f : Route → option (Z * string))
        (router : Router.t) (request : Request) (ms : Z) :
  (dispatch gzip_compress int_of_bytes request ms (relimit f router)).2
  = (dispatch gzip_compress int_of_bytes request ms router).2
  ∧ Router.limiter
      (dispatch gzip_compress int_of_bytes request ms (relimit f router)).1
    = Router.limiter
        (dispatch gzip_compress int_of_bytes request ms router).1.
Proof.
  assert (Hrr : ∀ l, request_response int_of_bytes
                       (Router.with_limiter (relimit f router) l) request
                     = request_response int_of_bytes
                         (Router.with_limiter router l) request).
  { intros l. unfold request_response, Router.getRoute.
    cbn [Router.with_limiter relimit Router.route_table].
    rewrite lookup_fmap.
    destruct (Router.route_table router !! method request) as [rows|];
      [|done].
    cbn [fmap option_fmap option_map]. rewrite first_match_relimit.
    destruct (Router.first_match rows (path request))
      as [[endpt matches]|]; [|done].
    cbn [fmap option_fmap option_map fst snd]. done. }
  unfold dispatch. cbn [relimit Router.limiter].
  destruct (RateLimiter.insert (client_address request).1 ms
                               (Router.limiter router)) as [l [blocked|e]];
    [|done].
  fold (relimit f router). destruct blocked.
  - by destruct (_get_payload gzip_compress _) as [? [?|?]].
  - rewrite Hrr.
    destruct (request_response int_of_bytes (Router.with_limiter router l)
                               request) as [response|e]; [|done].
    by destruct (_get_payload gzip_compress response) as [? [?|?]].
Qed.

End RouteRateLimit.
(** ** The name space of a class body *)

Lemma class_body_snoc {V : Type} (bindings : list (string * V))
      (k : string) (v : V) :
  class_body (bindings ++ [(k, v)])
  = OrderedPropertyMap.__setitem__ k v (class_body bindings).
Proof. unfold class_body. by rewrite fold_left_app. Qed.

Lemma class_body_dict {V : Type} (bindings : list (string * V)) :
  OrderedPropertyMap.dict (class_body bindings)
  = list_to_map (reverse bindings).
Proof.
  induction bindings as [|[k v] bindings IH] using rev_ind; [done|].
  rewrite class_body_snoc, reverse_snoc. cbn. by rewrite IH.
Qed.

Lemma class_body_bound {V : Type} (bindings : list (string * V))
      (k : string) :
  is_Some (OrderedPropertyMap.dict (class_body bindings) !! k)
  ↔ k ∈ bindings.*1.
Proof.
  rewrite class_body_dict, <- not_eq_None_Some, <- not_elem_of_list_to_map.
  rewrite fmap_reverse, elem_of_reverse.
  split; [apply dec_stable | auto].
Qed.

Lemma first_definitions_snoc (names : list string) (k : string) :
  first_definitions (names ++ [k])
  = if bool_decide (k ∈ names) then first_definitions names
    else (first_definitions names ++ [k])%list.
Proof.
  unfold first_definitions. rewrite reverse_snoc. cbn [remove_dups].
  destruct (decide_rel elem_of k (reverse names)) as [Hin|Hin];
    rewrite elem_of_reverse in Hin.
  - by rewrite bool_decide_eq_true_2.
  - by rewrite bool_decide_eq_false_2, reverse_cons.
Qed.

Lemma class_body_names {V : Type} (bindings : list (string * V)) :
  OrderedPropertyMap.member_names (class_body bindings)
  = first_definitions bindings.*1.
Proof.
  induction bindings as [|[k v] bindings IH] using rev_ind; [done|].
  rewrite class_body_snoc, fmap_app. cbn [fmap list_fmap fst].
  rewrite first_definitions_snoc. cbn [OrderedPropertyMap.__setitem__
                                        OrderedPropertyMap.member_names].
  rewrite IH. case_bool_decide as Hin.
  - apply class_body_bound in Hin as [x Hx]. by rewrite Hx.
  - destruct (OrderedPropertyMap.dict (class_body bindings) !! k)
      as [x|] eqn:Hx; [|done].
    exfalso. apply Hin. apply class_body_bound. by rewrite Hx.
Qed.

(** X25.  The name space of a class body records each name once, in the
    order in which the names are first bound; its names are exactly the
    keys of the dictionary, and the dictionary holds for each name the
    value bound last. *)
Theorem member_names_are_first_definitions {V : Type}
        (bindings : list (string * V)) :
  OrderedPropertyMap.member_names (class_body bindings)
  = first_definitions bindings.*1
  ∧ NoDup (OrderedPropertyMap.member_names (class_body bindings))
  ∧ (∀ k : string,
        k ∈ OrderedPropertyMap.member_names (class_body bindings)
        ↔ is_Some (OrderedPropertyMap.dict (class_body bindings) !! k))
  ∧ OrderedPropertyMap.dict (class_body bindings)
    = list_to_map (reverse bindings).
Proof.
  rewrite class_body_names. split_and!; [done | | | apply class_body_dict].
  - unfold first_definitions. rewrite reverse_Permutation.
    apply NoDup_remove_dups.
  - intros k. rewrite class_body_bound. unfold first_definitions.
    by rewrite elem_of_reverse, elem_of_remove_dups, elem_of_reverse.
Qed.
(** ** Resources made with the decorators *)

(** The decorators keep [_route] and [_methods] in step: both are
    missing, or there is a route and one method, a supported one. *)
Lemma built_route_and_method (f : Func) :
  built f →
  (_route f = None)
  ∨ ∃ (path method : string),
      _route f = Some path ∧ _methods f = Some [method]
      ∧ method ∈ supported_methods.
Proof.
  induction 1 as [n b | p f _ IH | p n f _ IH | p n f _ IH | p f _ IH
                  | h f _ IH | p f _ IH | int_of_str rate d f Hd _ IH].
  - by left.
  - right. exists p, "GET". split_and!; [done | done |].
    apply (bool_decide_unpack _). vm_compute. reflexivity.
  - right. exists p, "PUT". split_and!; [done | done |].
    apply (bool_decide_unpack _). vm_compute. reflexivity.
  - right. exists p, "POST". split_and!; [done | done |].
    apply (bool_decide_unpack _). vm_compute. reflexivity.
  - right. exists p, "DELETE". split_and!; [done | done |].
    apply (bool_decide_unpack _). vm_compute. reflexivity.
  - exact IH.
  - exact IH.
  - unfold decorator.ratelimit in Hd.
    destruct (split "/" rate) as [|count_text [|unit [|]]]; try done.
    case_bool_decide; [|done].
    destruct (int_of_str count_text); [|done].
    injection Hd as <-. exact IH.
Qed.

Lemma reachable_has_methods (r : Router.t) :
  reachable r →
  ∀ m : string, m ∈ supported_methods → is_Some (Router.route_table r !! m).
Proof.
  induction 1 as [|r r' new_routes o _ IH Hreg|r l _ IH]; intros m Hm.
  - unfold supported_methods in Hm.
    repeat (apply elem_of_cons in Hm as [->|Hm]; [by eexists|]).
    by apply elem_of_nil in Hm.
  - destruct (IH m Hm) as [rows Hrows].
    destruct (registerRoutes_rows _ _ _ _ Hreg)
      as (registered & _ & _ & _ & _ & Htab).
    destruct (Htab m rows Hrows) as (more & Hmore & _). by rewrite Hmore.
  - by apply IH.
Qed.

Lemma registerRoutes_supported (new_routes : list Route) :
  ∀ (r r' : Router.t) (o : Outcome unit),
    (∀ m : string,
        m ∈ supported_methods → is_Some (Router.route_table r !! m)) →
    Forall (λ route, route_method route ∈ supported_methods) new_routes →
    Router.registerRoutes new_routes r = Some (r', o) →
    o = Return tt
    ∨ ∃ (bad : Route) (e : PyExn),
        o = Raise e ∧ bad ∈ new_routes
        ∧ Router.patternToRegex (pattern bad) = Some (Raise e).
Proof.
  induction new_routes as [|route rest IH]; intros r r' o Hhas Hsup Hreg;
    simpl in Hreg.
  - injection Hreg as _ <-. by left.
  - apply Forall_cons in Hsup as [Hroute Hrest].
    destruct (Router.patternToRegex (pattern route))
      as [[[regex tokens]|e]|] eqn:Hre; [| |done].
    2: { injection Hreg as _ <-. right. exists route, e.
         split_and!; [done | by left | done]. }
    destruct (Hhas _ Hroute) as [rows Hrows]. rewrite Hrows in Hreg.
    apply IH in Hreg as [->|(bad & e & -> & Hbad & He)]; [by left | | |done].
    + right. exists bad, e. split_and!; [done | by right | done].
    + intros m Hm. cbn [Router.route_table].
      destruct (decide (m = route_method route)) as [->|Hne].
      * rewrite lookup_insert_eq. by eexists.
      * rewrite lookup_insert_ne by done. by apply Hhas.
Qed.

Lemma collect_built (cls_name : string) (ns : OrderedPropertyMap.t Member)
      (names : list string) :
  (∀ name, name ∈ names →
           is_Some (OrderedPropertyMap.dict ns !! name)) →
  (∀ name f, OrderedPropertyMap.dict ns !! name = Some (MFunc f) → built f) →
  ∀ _routes : list Route,
    Forall (λ route, route_method route ∈ supported_methods) _routes →
    ∃ routes : list Route,
      Resource.collect cls_name (Resource.own_attribute ns) names _routes
      = Return routes
      ∧ Forall (λ route, route_method route ∈ supported_methods) routes.
Proof.
  intros Hbound Hbuilt. induction names as [|name names IH];
    intros _routes Hsup.
  - by exists _routes.
  - assert (IH' := IH ltac:(intros n Hn; apply Hbound; by right)).
    cbn [Resource.collect]. destruct (startswith "_" name); [by apply IH'|].
    unfold Resource.own_attribute at 1.
    destruct (Hbound name ltac:(by left)) as [m Hm]. rewrite Hm.
    destruct m as [f|]; [|by apply IH'].
    destruct (built_route_and_method f (Hbuilt _ _ Hm))
      as [Hnone|(path & method & Hroute & Hmethods & Hmethod)].
    + rewrite Hnone. by apply IH'.
    + rewrite Hroute, Hmethods. apply IH'.
      apply Forall_app. split; [done|]. by apply Forall_singleton.
Qed.

(** X26.  A class whose body binds functions made with the decorators
    of the module, and objects without a route, can always be
    instantiated: [Resource.__init__] raises nothing.  Each of its routes
    has one of the four supported methods, so that registering them with
    a router a program can hold never raises for an unsupported method: it
    returns, or it raises what [patternToRegex] raises for the pattern of
    one of the routes. *)
Theorem resource_of_built_handlers (cls_name : string)
        (bindings : list (string * Member)) :
  handlers_built bindings →
  ∃ routes : list Route,
    Resource.__init__ cls_name (class_body bindings) = Return routes
    ∧ Forall (λ route, route_method route ∈ supported_methods) routes
    ∧ ∀ (r r' : Router.t) (o : Outcome unit),
        reachable r →
        Router.registerRoutes routes r = Some (r', o) →
        o = Return tt
        ∨ ∃ (bad : Route) (e : PyExn),
            o = Raise e ∧ bad ∈ routes
            ∧ Router.patternToRegex (pattern bad) = Some (Raise e).
Proof.
  intros Hbuilt. unfold Resource.__init__.
  destruct (collect_built cls_name (class_body bindings)
              (OrderedPropertyMap.member_names (class_body bindings)))
    with (_routes := @nil Route) as (routes & Hroutes & Hsup).
  - intros name Hname. apply class_body_bound.
    rewrite class_body_names in Hname. unfold first_definitions in Hname.
    by rewrite elem_of_reverse, elem_of_remove_dups, elem_of_reverse in Hname.
  - intros name f Hf. rewrite class_body_dict in Hf.
    apply elem_of_list_to_map_2 in Hf. rewrite elem_of_reverse in Hf.
    unfold handlers_built in Hbuilt. rewrite Forall_forall in Hbuilt.
    exact (Hbuilt _ Hf).
  - constructor.
  - exists routes. split_and!; [done | done |].
    intros r r' o Hreach Hreg.
    by apply (registerRoutes_supported routes r r' o
                                       (reachable_has_methods r Hreach)).
Qed.
(** An instance of X26: the class body [user_resource_body]. *)
Lemma resource_of_built_handlers_witness :
  handlers_built user_resource_body
  ∧ ∃ routes : list Route,
      Resource.__init__ "user" (class_body user_resource_body)
      = Return routes
      ∧ Forall (λ route, route_method route ∈ supported_methods) routes
      ∧ ∀ (r r' : Router.t) (o : Outcome unit),
          reachable r →
          Router.registerRoutes routes r = Some (r', o) →
          o = Return tt
          ∨ ∃ (bad : Route) (e : PyExn),
              o = Raise e ∧ bad ∈ routes
              ∧ Router.patternToRegex (pattern bad) = Some (Raise e).
Proof.
  assert (H : handlers_built user_resource_body).
  { unfold handlers_built, user_resource_body.
    apply Forall_cons. split; [exact I|].
    apply Forall_cons. split; [apply built_get, built_bare|].
    apply Forall_cons. split; [apply built_put, built_bare|].
    apply Forall_cons. split; [apply built_get, built_bare|].
    apply Forall_nil_2. }
  split; [exact H|].
  exact (resource_of_built_handlers "user" user_resource_body H).
Defined.

(** ** The [ratelimit] decorator *)

Lemma split_join (s : string) : str_join "/" (split "/" s) = s.
Proof.
  induction s as [|c s IH]; [done|]. cbn [split].
  destruct (split_cons "/" s) as (w & ws & Hs). rewrite Hs in IH |- *.
  destruct (Ascii.eqb_spec c "/") as [->|_].
  - change (str_join "/" ("" :: w :: ws))
      with (String "/" (str_join "/" (w :: ws))).
    by rewrite IH.
  - destruct ws as [|w' ws].
    + cbn [str_join] in *. by rewrite IH.
    + change (str_join "/" (String c w :: w' :: ws))
        with (String c (str_join "/" (w :: w' :: ws))).
      by rewrite IH.
Qed.

Lemma split_parts_no_sep (s : string) :
  Forall (λ w : string, "/"%char ∉ chars w) (split "/" s).
Proof.
  induction s as [|c s IH]; cbn [split].
  - apply Forall_singleton. cbn. apply not_elem_of_nil.
  - destruct (split_cons "/" s) as (w & ws & Hs). rewrite Hs in IH |- *.
    apply Forall_cons in IH as [Hw Hws].
    destruct (Ascii.eqb_spec c "/") as [->|Hne].
    + apply Forall_cons. split; [cbn; apply not_elem_of_nil|].
      by apply Forall_cons.
    + apply Forall_cons. split; [|done].
      cbn [chars list_ascii_of_string].
      intros [Heq|Hin]%elem_of_cons; [by apply Hne | done].
Qed.

Lemma rate_unit_no_slash (unit : string) :
  unit ∈ decorator.rate_units → "/"%char ∉ chars unit.
Proof.
  unfold decorator.rate_units. intros Hin.
  repeat (apply elem_of_cons in Hin as [->|Hin];
          [apply (bool_decide_unpack _); vm_compute; reflexivity|]).
  by apply elem_of_nil in Hin.
Qed.

Section RateLimitProperties.

Context (int_of_str : string → option Z).

(** X27.  The [ratelimit] decorator accepts exactly the texts made of a
    count that [int] reads, one slash, and one of the units [second],
    [minute], [hour], [day].  The count is stored as read: nothing
    refuses zero or a negative count.  The decorator only sets the
    [_ratelimit] attribute; route, methods and options stay. *)
Theorem ratelimit_decorator_reads_count_and_unit
        (count_text unit : string) (count : Z) :
  "/"%char ∉ chars count_text →
  unit ∈ decorator.rate_units →
  int_of_str count_text = Some count →
  (∃ d : Func → Func,
      decorator.ratelimit int_of_str (count_text +:+ "/" +:+ unit) = Return d
      ∧ ∀ f : Func,
          _ratelimit (d f) = Some (count, unit)
          ∧ _route (d f) = _route f
          ∧ _methods (d f) = _methods f
          ∧ _options (d f) = _options f)
  ∧ ∀ (rate : string) (d : Func → Func),
      decorator.ratelimit int_of_str rate = Return d →
      ∃ (count_text' unit' : string) (count' : Z),
        rate = count_text' +:+ "/" +:+ unit'
        ∧ ("/"%char ∉ chars count_text')
        ∧ unit' ∈ decorator.rate_units
        ∧ int_of_str count_text' = Some count'
        ∧ ∀ f : Func, _ratelimit (d f) = Some (count', unit').
Proof.
  intros Hslash Hunit Hint. split.
  - unfold decorator.ratelimit.
    change (count_text +:+ "/" +:+ unit)
      with (count_text +:+ String "/" unit).
    rewrite (split_app_sep "/" count_text unit Hslash).
    rewrite (split_no_sep "/" unit (rate_unit_no_slash unit Hunit)).
    rewrite bool_decide_eq_true_2 by done. rewrite Hint.
    eexists. split; [reflexivity|]. intros f. by split_and!.
  - intros rate d Hd. unfold decorator.ratelimit in Hd.
    pose proof (split_join rate) as Hjoin.
    pose proof (split_parts_no_sep rate) as Hparts.
    destruct (split "/" rate) as [|a [|b [|]]]; try done.
    case_bool_decide as Hb; [|done].
    destruct (int_of_str a) as [n|] eqn:Ha; [|done].
    injection Hd as <-. exists a, b, n.
    apply Forall_cons in Hparts as [Hpa _].
    split_and!; [by rewrite <- Hjoin | done | done | done | done].
Qed.

End RateLimitProperties.

(** An instance of X27: the rate [-5/minute] is accepted. *)
Lemma ratelimit_decorator_reads_count_and_unit_witness :
  ("/"%char ∉ chars "-5")
  ∧ "minute" ∈ decorator.rate_units
  ∧ python_int.parse "-5" = Some (-5)
  ∧ (∃ d : Func → Func,
        decorator.ratelimit python_int.parse ("-5" +:+ "/" +:+ "minute")
        = Return d
        ∧ ∀ f : Func,
            _ratelimit (d f) = Some (-5, "minute")
            ∧ _route (d f) = _route f
            ∧ _methods (d f) = _methods f
            ∧ _options (d f) = _options f)
  ∧ ∀ (rate : string) (d : Func → Func),
      decorator.ratelimit python_int.parse rate = Return d →
      ∃ (count_text' unit' : string) (count' : Z),
        rate = count_text' +:+ "/" +:+ unit'
        ∧ ("/"%char ∉ chars count_text')
        ∧ unit' ∈ decorator.rate_units
        ∧ python_int.parse count_text' = Some count'
        ∧ ∀ f : Func, _ratelimit (d f) = Some (count', unit').
Proof.
  assert (H1 : "/"%char ∉ chars "-5").
  { apply (bool_decide_unpack _). vm_compute. reflexivity. }
  assert (H2 : "minute" ∈ decorator.rate_units).
  { apply (bool_decide_unpack _). vm_compute. reflexivity. }
  assert (H3 : python_int.parse "-5" = Some (-5)) by reflexivity.
  split; [exact H1|]. split; [exact H2|]. split; [exact H3|].
  exact (ratelimit_decorator_reads_count_and_unit
           python_int.parse "-5" "minute" (-5) H1 H2 H3).
Defined.

(** ** A final token with [*] *)

Lemma lookup_add_caps_above (values : list string) :
  ∀ (g : nat) (caps : re.captures) (i : nat),
    (g + length values < i)%nat →
    re.lookup_group i (add_caps g values caps) = re.lookup_group i caps.
Proof.
  induction values as [|v values IH]; intros g caps i Hi; [done|].
  cbn [add_caps]. rewrite IH by (simpl in Hi; lia).
  cbn [re.lookup_group].
  destruct (Nat.eqb_spec i (S g)); [simpl in Hi; lia | done].
Qed.

Lemma add_caps_snoc (values : list string) (s : string) :
  ∀ (g : nat) (caps : re.captures),
    add_caps g (values ++ [s]) caps
    = (S (g + length values), chars s) :: add_caps g values caps.
Proof.
  induction values as [|v values IH]; intros g caps.
  - cbn. by rewrite Nat.add_0_r.
  - cbn [app add_caps length]. rewrite IH. do 2 f_equal. lia.
Qed.

Lemma token_names_app (a b : list string) :
  token_names (a ++ b) = (token_names a ++ token_names b)%list.
Proof. unfold token_names. by rewrite List.filter_app, fmap_app. Qed.

Lemma star_token_last (token : string) :
  star_token token = true →
  Router.is_token token = true ∧ last_char token = Some "*"%char.
Proof.
  unfold star_token. intros [Htok Hlast]%andb_prop. split; [done|].
  destruct (last_char token) as [c|]; [|done].
  by apply Ascii.eqb_eq in Hlast as ->.
Qed.

Lemma star_token_items (g : nat) (parts : list string) (token : string) :
  Forall (λ part : string, part ≠ "" ∧ simple_part part = true) parts →
  star_token token = true →
  pattern_items g (parts ++ [token])
  = (pattern_items g parts
     ++ [item_star (S (g + length (token_names parts)))])%list.
Proof.
  intros Hparts Hstar. destruct (star_token_last token Hstar) as [Htok Hlast].
  revert g. induction Hparts as [|part parts [Hne Hsimple] _ IH]; intros g.
  - cbn [app pattern_items]. rewrite Htok, Hlast.
    change (Ascii.eqb "*" "?") with false.
    change (Ascii.eqb "*" "*") with true. cbn iota.
    unfold token_names. cbn. by rewrite Nat.add_0_r.
  - unfold simple_part in Hsimple.
    destruct (Router.is_token part) eqn:Hpart.
    + apply negb_true_iff in Hsimple.
      change ((part :: parts) ++ [token])%list
        with (part :: (parts ++ [token]))%list.
      rewrite !(simple_token_items g part _ Hne Hpart Hsimple), IH.
      rewrite (token_names_cons_token _ _ Hpart). cbn [app length].
      do 5 f_equal. lia.
    + cbn [app pattern_items]. rewrite Hpart, IH.
      rewrite (token_names_cons_literal _ _ Hpart).
      by rewrite app_assoc.
Qed.

Lemma run_star_absent (i pos : nat) (caps : re.captures) :
  re.run (re.seq_of [item_star i; re.Opt (re.Chr "/"); re.Eol])
         (re.mkm pos [] caps) (λ st, Some (re.m_caps st))
  = Some caps.
Proof. reflexivity. Qed.

Lemma run_star_rest (i pos : nat) (cs : list ascii) (caps : re.captures) :
  re.newline ∉ cs →
  re.run (re.seq_of [item_star i; re.Opt (re.Chr "/"); re.Eol])
         (re.mkm pos ("/"%char :: cs) caps) (λ st, Some (re.m_caps st))
  = Some ((i, cs) :: caps).
Proof.
  intros Hs. unfold item_star, re.seq_of. cbn [fold_right].
  cbn -[re.star_loop re.capture].
  erewrite star_any_to_the_end; [reflexivity | intros; reflexivity | exact Hs
                                 | lia |].
  cbn. by rewrite Nat.sub_0_r, firstn_all.
Qed.
(** C9.  A final token with [*] after plain segments.  The compiled
    matcher accepts the path that ends where the token begins, and then
    the token takes no part in the match: its group is [None], not the
    empty text.  It accepts that path followed by a slash, with the empty
    text for the token; and that path followed by a slash and any text
    without a newline, with the whole of that text for the token, slashes
    included.  The tokens before it are bound to their values.  The
    matcher of [/files/:rest*] is the instance with no token before. *)
Theorem star_token_captures_the_rest (pattern : string)
        (parts : list string) (token : string) (p : re.Pattern)
        (tokens values : list string) (s : string) :
  Router.parts_of pattern = (parts ++ [token])%list →
  forallb simple_part parts = true →
  star_token token = true →
  Router.patternToRegex pattern = Some (Return (p, tokens)) →
  length tokens = S (length values) →
  Forall segment_value values →
  re.newline ∉ chars s →
  tokens = (token_names parts ++ [drop_last (drop_first token)])%list
  ∧ re.match_groups p (fill parts values)
    = Some ((Some <$> values) ++ [None])%list
  ∧ re.match_groups p (fill parts values +:+ "/")
    = Some ((Some <$> values) ++ [Some ""])%list
  ∧ re.match_groups p (fill parts values +:+ "/" +:+ s)
    = Some ((Some <$> values) ++ [Some s])%list.
Proof.
  intros Hparts Hsimple Hstar Hp Hlen Hvalues Hs.
  destruct (star_token_last token Hstar) as [Htok Hlast].
  assert (Hforall : Forall (λ part : string,
                              part ≠ "" ∧ simple_part part = true) parts).
  { apply Forall_forall. intros part Hin. split.
    - pose proof (parts_of_nonempty pattern) as Hne.
      rewrite Hparts, Forall_forall in Hne. apply Hne.
      apply elem_of_app. by left.
    - rewrite forallb_forall in Hsimple. apply Hsimple.
      by apply list_elem_of_In. }
  assert (Hplain : plain_pattern pattern = true).
  { unfold plain_pattern. rewrite Hparts, forallb_app.
    apply andb_true_intro. split.
    - rewrite forallb_forall in Hsimple |- *. intros part Hin.
      specialize (Hsimple part Hin). unfold simple_part in Hsimple.
      by destruct (Router.is_token part).
    - cbn [forallb]. by rewrite Htok. }
  destruct (plain_pattern_ast pattern p tokens Hplain Hp) as [Htokens ->].
  rewrite Hparts, token_names_app in Htokens.
  assert (Hname : token_names [token] = [drop_last (drop_first token)]).
  { unfold token_names, token_name, Router.suffix_of. cbn [List.filter].
    rewrite Htok. cbn [fmap list_fmap]. rewrite Hlast. done. }
  rewrite Hname in Htokens.
  assert (Hn : length values = length (token_names parts)).
  { rewrite Htokens, length_app in Hlen. simpl in Hlen. lia. }
  split; [exact Htokens|].
  rewrite Hparts, (star_token_items 0 parts token Hforall Hstar).
  cbn [Nat.add]. rewrite <- Hn.
  set (g := S (length values)).
  assert (Hrun : ∀ (tail : list ascii) (c0 : re.captures),
             seg_end tail →
             re.run (re.seq_of [item_star g; re.Opt (re.Chr "/"); re.Eol])
                    (re.mkm (0 + length (chars (fill parts values))) tail
                            (add_caps 0 values []))
                    (λ st, Some (re.m_caps st)) = Some c0 →
             re.run (re.seq_of
                       (re.Bol :: (pattern_items 0 parts ++ [item_star g])
                          ++ [re.Opt (re.Chr "/"); re.Eol]))
                    (re.mkm 0 (chars (fill parts values) ++ tail) [])
                    (λ st, Some (re.m_caps st)) = Some c0).
  { intros tail c0 Hend Hk. rewrite <- app_assoc. cbn [app].
    unfold re.seq_of at 1. cbn [fold_right re.run]. cbn [re.m_pos Nat.eqb].
    by apply (run_simple_items parts Hforall values 0%nat). }
  assert (Hrest : ∀ t : string,
             re.newline ∉ chars t →
             re.match_groups
               (re.mkpat
                  (re.seq_of
                     (re.Bol :: (pattern_items 0 parts ++ [item_star g])
                        ++ [re.Opt (re.Chr "/"); re.Eol]))
                  (length tokens))
               (fill parts values +:+ "/" +:+ t)
             = Some ((Some <$> values) ++ [Some t])%list).
  { intros t Ht. unfold re.match_groups. cbn [re.ast re.groups].
    rewrite chars_app.
    change (chars ("/" +:+ t)) with ("/"%char :: chars t).
    rewrite (Hrun ("/"%char :: chars t) ((g, chars t) :: add_caps 0 values [])).
    - rewrite Hlen.
      replace ((g, chars t) :: add_caps 0 values [])
        with (add_caps 0 (values ++ [t]) [])
        by (by rewrite add_caps_snoc).
      replace (S (length values)) with (length (values ++ [t]))
        by (rewrite length_app; simpl; lia).
      by rewrite groups_of_caps, fmap_app.
    - right. by eexists.
    - by apply run_star_rest. }
  split_and!.
  - unfold re.match_groups. cbn [re.ast re.groups].
    rewrite <- (app_nil_r (chars (fill parts values))).
    rewrite (Hrun [] (add_caps 0 values []));
      [| by left | apply run_star_absent].
    rewrite Hlen, seq_S, map_app, groups_of_caps. cbn [map Nat.add].
    rewrite lookup_add_caps_above by lia. done.
  - rewrite <- (Hrest ""); [done|]. apply not_elem_of_nil.
  - by apply Hrest.
Qed.

(** An instance of C9: the pattern [/files/:rest*] with the paths
    [/files], [/files/] and [/files/a/b]. *)
Lemma star_token_captures_the_rest_witness :
  Router.parts_of "/files/:rest*" = (["files"] ++ [":rest*"])%list
  ∧ forallb simple_part ["files"] = true
  ∧ star_token ":rest*" = true
  ∧ Router.patternToRegex "/files/:rest*"
    = Some (Return (matcher_of "/files/:rest*", ["rest"]))
  ∧ length ["rest"] = S (length (@nil string))
  ∧ Forall segment_value []
  ∧ (re.newline ∉ chars "a/b")
  ∧ ["rest"] = (token_names ["files"] ++ [drop_last (drop_first ":rest*")])%list
  ∧ re.match_groups (matcher_of "/files/:rest*") "/files" = Some [None]
  ∧ re.match_groups (matcher_of "/files/:rest*") "/files/" = Some [Some ""]
  ∧ re.match_groups (matcher_of "/files/:rest*") "/files/a/b"
    = Some [Some "a/b"].
Proof.
  assert (H1 : Router.parts_of "/files/:rest*"
               = (["files"] ++ [":rest*"])%list) by reflexivity.
  assert (H2 : forallb simple_part ["files"] = true) by reflexivity.
  assert (H3 : star_token ":rest*" = true) by reflexivity.
  assert (H4 : Router.patternToRegex "/files/:rest*"
               = Some (Return (matcher_of "/files/:rest*", ["rest"])))
    by (vm_compute; reflexivity).
  assert (H5 : length ["rest"] = S (length (@nil string))) by reflexivity.
  assert (H6 : Forall segment_value []) by apply Forall_nil_2.
  assert (H7 : re.newline ∉ chars "a/b").
  { apply (bool_decide_unpack _). vm_compute. reflexivity. }
  split; [exact H1|]. split; [exact H2|]. split; [exact H3|].
  split; [exact H4|]. split; [exact H5|]. split; [exact H6|].
  split; [exact H7|].
  exact (star_token_captures_the_rest "/files/:rest*" ["files"] ":rest*"
           (matcher_of "/files/:rest*") ["rest"] [] "a/b"
           H1 H2 H3 H4 H5 H6 H7).
Defined.

(** The claim C9 as stated fails, in two ways.  For [/files] the token
    [rest] has no capture at all: its group is [None], and [getRoute]
    binds [rest] to [None]; the empty text is what [/files/] gives.  And
    the token does not capture everything after its slash: [.] does not
    match a newline, so for [/files/a] followed by a newline the capture is
    [a], and [/files/a], a newline and [b] is not matched at all. *)
Lemma star_token_counterexample :
  re.match_groups (matcher_of "/files/:rest*") "/files" = Some [None]
  ∧ Router.getRoute "GET" "/files" (router_with [files_route silent_handler])
    = Some (files_route silent_handler, {["rest" := None]})
  ∧ re.match_groups (matcher_of "/files/:rest*") "/files/" = Some [Some ""]
  ∧ re.match_groups (matcher_of "/files/:rest*") files_a_newline
    = Some [Some "a"]
  ∧ re.match_groups (matcher_of "/files/:rest*") files_a_newline_b = None.
Proof. split_and!; vm_compute; reflexivity. Qed.
